(** * Omniagent: the conversation controller of the sales assistant

    A shallow embedding of [sales_rag_agent.py] (class [SalesRAGAgent]) and of
    [SQLAgentTool.query] from [sql_agent_tool.py], with the properties the
    specification states about them.

    A text is held as a Rocq string of its UTF-8 bytes.  [PyStr] has the
    string methods that act byte by byte, and on ASCII text it has
    [str.strip], [str.lower], [str.isdigit], [str.zfill] and slicing as
    well.  [PyUnicode] has the characters of a text and the methods that
    look at them beyond ASCII: [str.strip], [len], slicing, [str.zfill],
    [str.isdigit] and [str.lower], the last two with the tables of the
    Unicode data base.  The time normalizer, the test for an affirmative
    answer and the chat form use [PyUnicode].  Where the source only looks for an ASCII text in a
    lower-cased one (the decision of the model, the keywords of the
    detector), the letters sought come from ASCII letters only, and the
    methods of [PyStr] are used. *)

From Stdlib Require Import String Ascii List Bool Arith NArith Lia.
Import ListNotations.

Local Open Scope string_scope.
Local Open Scope nat_scope.

(* ================================================================== *)
(** * Python string methods *)
(* ================================================================== *)

Module PyStr.

(** A one-character string. *)
Definition chr (c : ascii) : string := String c EmptyString.

(** The characters the source names through an escape. *)
Definition dquote : ascii := ascii_of_nat 34.
Definition newline : ascii := ascii_of_nat 10.
Definition backslash : ascii := ascii_of_nat 92.
Definition nl : string := chr newline.

Definition code_between (lo hi : nat) (c : ascii) : bool :=
  (lo <=? nat_of_ascii c) && (nat_of_ascii c <=? hi).

(** [str.isspace] of one ASCII character: TAB, LF, VT, FF, CR, the four
    separators FS, GS, RS, US and the space. *)
Definition isspace_char (c : ascii) : bool :=
  code_between 9 13 c || code_between 28 31 c || (nat_of_ascii c =? 32).

Definition isdigit_char (c : ascii) : bool := code_between 48 57 c.

Definition isupper_char (c : ascii) : bool := code_between 65 90 c.

Definition isalnum_char (c : ascii) : bool :=
  isdigit_char c || isupper_char c || code_between 97 122 c.

Definition lower_char (c : ascii) : ascii :=
  if isupper_char c then ascii_of_nat (nat_of_ascii c + 32) else c.

(** [s.lower()] as far as ASCII goes: the letters A to Z are changed
    and nothing else. *)
Fixpoint lower (s : string) : string :=
  match s with
  | EmptyString => EmptyString
  | String c s' => String (lower_char c) (lower s')
  end.

(** [s.lstrip()] as far as ASCII goes. *)
Fixpoint lstrip (s : string) : string :=
  match s with
  | EmptyString => EmptyString
  | String c s' => if isspace_char c then lstrip s' else s
  end.

(** [s.rstrip()] as far as ASCII goes. *)
Fixpoint rstrip (s : string) : string :=
  match s with
  | EmptyString => EmptyString
  | String c s' =>
      match rstrip s' with
      | EmptyString => if isspace_char c then EmptyString else chr c
      | r => String c r
      end
  end.

(** [s.strip()] as far as ASCII goes: the white space of ASCII is
    removed at both ends and nowhere else. *)
Definition strip (s : string) : string := rstrip (lstrip s).

(** [s.replace(c, empty)] for a one-character [c]: every occurrence of
    the character is deleted. *)
Fixpoint remove_char (c : ascii) (s : string) : string :=
  match s with
  | EmptyString => EmptyString
  | String d s' =>
      if Ascii.eqb d c then remove_char c s' else String d (remove_char c s')
  end.

(** [s.isdigit()] as far as ASCII goes: at least one character, and
    every character one of the digits 0 to 9. *)
Fixpoint all_digits (s : string) : bool :=
  match s with
  | EmptyString => true
  | String c s' => isdigit_char c && all_digits s'
  end.

Definition isdigit (s : string) : bool :=
  match s with
  | EmptyString => false
  | _ => all_digits s
  end.

(** [s.startswith(prefix)] *)
Fixpoint startswith (prefix s : string) : bool :=
  match prefix with
  | EmptyString => true
  | String a prefix' =>
      match s with
      | String b s' => Ascii.eqb a b && startswith prefix' s'
      | EmptyString => false
      end
  end.

(** [needle in hay] *)
Fixpoint str_in (needle hay : string) : bool :=
  startswith needle hay
  || match hay with
     | EmptyString => false
     | String _ hay' => str_in needle hay'
     end.

(** [s.split(sep)] for a one-character separator. *)
Fixpoint split (sep : ascii) (s : string) : list string :=
  match s with
  | EmptyString => [EmptyString]
  | String c s' =>
      if Ascii.eqb c sep then EmptyString :: split sep s'
      else match split sep s' with
           | p :: ps => String c p :: ps
           | [] => [chr c]
           end
  end.

Fixpoint zeros (n : nat) : string :=
  match n with
  | O => EmptyString
  | S n' => String "0" (zeros n')
  end.

(** [sep.join(parts)] *)
Definition join (sep : string) (parts : list string) : string :=
  String.concat sep parts.

(** The list slice [l[-n:]] for a positive [n]. *)
Definition last_n {A : Type} (n : nat) (l : list A) : list A :=
  skipn (List.length l - n) l.

(** [key in tokens] for a list of strings. *)
Definition in_list (key : string) (tokens : list string) : bool :=
  existsb (String.eqb key) tokens.

End PyStr.

Import PyStr.

(* ================================================================== *)
(** * Text beyond ASCII *)
(* ================================================================== *)

Module PyUnicode.

(** A byte of an ASCII character, and [s.isascii()]. *)
Definition is_ascii_char (c : ascii) : bool := nat_of_ascii c <? 128.

Fixpoint is_ascii (s : string) : bool :=
  match s with
  | EmptyString => true
  | String c s' => is_ascii_char c && is_ascii s'
  end.

(** A continuation byte of UTF-8. *)
Definition continuation (c : ascii) : bool := code_between 128 191 c.

Definition starts_continued (p : string) : bool :=
  match p with
  | String c _ => continuation c
  | EmptyString => false
  end.

(** The characters of a text, each as its bytes: a byte below 128 is a
    character of its own, a byte from 128 on takes the continuation
    bytes that follow it. *)
Fixpoint code_points (s : string) : list string :=
  match s with
  | EmptyString => []
  | String c s' =>
      match code_points s' with
      | p :: ps =>
          if negb (is_ascii_char c) && starts_continued p
          then String c p :: ps
          else chr c :: p :: ps
      | [] => [chr c]
      end
  end.

(** The text made of a list of characters. *)
Fixpoint text_of (ps : list string) : string :=
  match ps with
  | [] => EmptyString
  | p :: ps' => p ++ text_of ps'
  end.

Definition utf8 (bytes : list nat) : string :=
  string_of_list_ascii (map ascii_of_nat bytes).

(** The characters [str.isspace] accepts: U+0009 to U+000D, U+001C to
    U+001F, U+0020, U+0085, U+00A0, U+1680, U+2000 to U+200A, U+2028,
    U+2029, U+202F, U+205F and U+3000. *)
Definition whitespace_points : list string :=
  map utf8
    [[9]; [10]; [11]; [12]; [13]; [28]; [29]; [30]; [31]; [32];
     [194; 133]; [194; 160]; [225; 154; 128];
     [226; 128; 128]; [226; 128; 129]; [226; 128; 130]; [226; 128; 131];
     [226; 128; 132]; [226; 128; 133]; [226; 128; 134]; [226; 128; 135];
     [226; 128; 136]; [226; 128; 137]; [226; 128; 138];
     [226; 128; 168]; [226; 128; 169]; [226; 128; 175];
     [226; 129; 159]; [227; 128; 128]].

Definition isspace_point (p : string) : bool := in_list p whitespace_points.

Fixpoint lstrip_points (ps : list string) : list string :=
  match ps with
  | [] => []
  | p :: ps' => if isspace_point p then lstrip_points ps' else ps
  end.

Definition rstrip_points (ps : list string) : list string :=
  rev (lstrip_points (rev ps)).

(** [s.strip()]: the white space of Unicode is removed at both ends. *)
Definition str_strip (s : string) : string :=
  text_of (rstrip_points (lstrip_points (code_points s))).

(** [len(s)] *)
Definition str_len (s : string) : nat := List.length (code_points s).

(** The slices [s[:n]] and [s[n:]]. *)
Definition str_take (n : nat) (s : string) : string :=
  text_of (firstn n (code_points s)).

Definition str_drop (n : nat) (s : string) : string :=
  text_of (skipn n (code_points s)).

(** [s.zfill(width)], the width counted in characters. *)
Definition str_zfill (width : nat) (s : string) : string :=
  let pad := zeros (width - str_len s) in
  match s with
  | String c s' =>
      if Ascii.eqb c "+" || Ascii.eqb c "-" then String c (pad ++ s')
      else pad ++ s
  | EmptyString => pad
  end.

(** ** The Unicode data base

    [str.isdigit] and [str.lower] look characters up in the Unicode data
    base of the interpreter.  The tables below are those of Unicode
    14.0, the data base of Python 3.11. *)

Definition no_point : N := 1114112.

(** The value a continuation byte adds. *)
Definition trail (c : ascii) : option N :=
  if continuation c then Some (N_of_ascii c - 128)%N else None.

(** The code point of a character given as its UTF-8 bytes; [no_point]
    for bytes that are no character. *)
Definition decode (p : string) : N :=
  match p with
  | String a EmptyString =>
      if is_ascii_char a then N_of_ascii a else no_point
  | String a (String b EmptyString) =>
      match trail b with
      | Some y =>
          if code_between 194 223 a
          then ((N_of_ascii a - 192) * 64 + y)%N else no_point
      | None => no_point
      end
  | String a (String b (String c EmptyString)) =>
      match trail b, trail c with
      | Some y, Some z =>
          if code_between 224 239 a
          then ((N_of_ascii a - 224) * 4096 + y * 64 + z)%N else no_point
      | _, _ => no_point
      end
  | String a (String b (String c (String d EmptyString))) =>
      match trail b, trail c, trail d with
      | Some x, Some y, Some z =>
          if code_between 240 244 a
          then ((N_of_ascii a - 240) * 262144 + x * 4096 + y * 64 + z)%N
          else no_point
      | _, _, _ => no_point
      end
  | _ => no_point
  end.

(** The UTF-8 bytes of a code point. *)
Definition encode (n : N) : string :=
  if (n <? 128)%N then chr (ascii_of_N n)
  else if (n <? 2048)%N then
    String (ascii_of_N (192 + n / 64)) (chr (ascii_of_N (128 + n mod 64)))
  else if (n <? 65536)%N then
    String (ascii_of_N (224 + n / 4096))
      (String (ascii_of_N (128 + (n / 64) mod 64))
         (chr (ascii_of_N (128 + n mod 64))))
  else
    String (ascii_of_N (240 + n / 262144))
      (String (ascii_of_N (128 + (n / 4096) mod 64))
         (String (ascii_of_N (128 + (n / 64) mod 64))
            (chr (ascii_of_N (128 + n mod 64))))).

Definition in_ranges (n : N) (table : list (N * N)) : bool :=
  existsb (fun r => (fst r <=? n)%N && (n <=? snd r)%N) table.

(** The characters [str.isdigit] accepts, as ranges of code points:
    the decimal digits of every script and the other digits (superscripts,
    circled digits and the like). *)
Definition digit_ranges : list (N * N) :=
  [(48, 57); (178, 179); (185, 185); (1632, 1641); (1776, 1785);
    (1984, 1993); (2406, 2415); (2534, 2543); (2662, 2671); (2790, 2799);
    (2918, 2927); (3046, 3055); (3174, 3183); (3302, 3311); (3430, 3439);
    (3558, 3567); (3664, 3673); (3792, 3801); (3872, 3881); (4160, 4169);
    (4240, 4249); (4969, 4977); (6112, 6121); (6160, 6169); (6470, 6479);
    (6608, 6618); (6784, 6793); (6800, 6809); (6992, 7001); (7088, 7097);
    (7232, 7241); (7248, 7257); (8304, 8304); (8308, 8313); (8320, 8329);
    (9312, 9320); (9332, 9340); (9352, 9360); (9450, 9450); (9461, 9469);
    (9471, 9471); (10102, 10110); (10112, 10120); (10122, 10130);
    (42528, 42537); (43216, 43225); (43264, 43273); (43472, 43481);
    (43504, 43513); (43600, 43609); (44016, 44025); (65296, 65305);
    (66720, 66729); (68160, 68163); (68912, 68921); (69216, 69224);
    (69714, 69722); (69734, 69743); (69872, 69881); (69942, 69951);
    (70096, 70105); (70384, 70393); (70736, 70745); (70864, 70873);
    (71248, 71257); (71360, 71369); (71472, 71481); (71904, 71913);
    (72016, 72025); (72784, 72793); (73040, 73049); (73120, 73129);
    (92768, 92777); (92864, 92873); (93008, 93017); (120782, 120831);
    (123200, 123209); (123632, 123641); (125264, 125273); (127232, 127242);
    (130032, 130041)]%N.

(** The lower-case mapping of single characters.  An entry (first, last,
    step, target) maps the characters first, first + step, ... up to last
    to target, target + step, ... *)
Definition lower_runs : list (N * N * N * N) :=
  [(65, 90, 1, 97); (192, 214, 1, 224); (216, 222, 1, 248);
    (256, 302, 2, 257); (306, 310, 2, 307); (313, 327, 2, 314);
    (330, 374, 2, 331); (376, 376, 1, 255); (377, 381, 2, 378);
    (385, 385, 1, 595); (386, 388, 2, 387); (390, 390, 1, 596);
    (391, 391, 1, 392); (393, 394, 1, 598); (395, 395, 1, 396);
    (398, 398, 1, 477); (399, 399, 1, 601); (400, 400, 1, 603);
    (401, 401, 1, 402); (403, 403, 1, 608); (404, 404, 1, 611);
    (406, 406, 1, 617); (407, 407, 1, 616); (408, 408, 1, 409);
    (412, 412, 1, 623); (413, 413, 1, 626); (415, 415, 1, 629);
    (416, 420, 2, 417); (422, 422, 1, 640); (423, 423, 1, 424);
    (425, 425, 1, 643); (428, 428, 1, 429); (430, 430, 1, 648);
    (431, 431, 1, 432); (433, 434, 1, 650); (435, 437, 2, 436);
    (439, 439, 1, 658); (440, 440, 1, 441); (444, 444, 1, 445);
    (452, 452, 1, 454); (453, 453, 1, 454); (455, 455, 1, 457);
    (456, 456, 1, 457); (458, 458, 1, 460); (459, 475, 2, 460);
    (478, 494, 2, 479); (497, 497, 1, 499); (498, 500, 2, 499);
    (502, 502, 1, 405); (503, 503, 1, 447); (504, 542, 2, 505);
    (544, 544, 1, 414); (546, 562, 2, 547); (570, 570, 1, 11365);
    (571, 571, 1, 572); (573, 573, 1, 410); (574, 574, 1, 11366);
    (577, 577, 1, 578); (579, 579, 1, 384); (580, 580, 1, 649);
    (581, 581, 1, 652); (582, 590, 2, 583); (880, 882, 2, 881);
    (886, 886, 1, 887); (895, 895, 1, 1011); (902, 902, 1, 940);
    (904, 906, 1, 941); (908, 908, 1, 972); (910, 911, 1, 973);
    (913, 929, 1, 945); (932, 939, 1, 964); (975, 975, 1, 983);
    (984, 1006, 2, 985); (1012, 1012, 1, 952); (1015, 1015, 1, 1016);
    (1017, 1017, 1, 1010); (1018, 1018, 1, 1019); (1021, 1023, 1, 891);
    (1024, 1039, 1, 1104); (1040, 1071, 1, 1072); (1120, 1152, 2, 1121);
    (1162, 1214, 2, 1163); (1216, 1216, 1, 1231); (1217, 1229, 2, 1218);
    (1232, 1326, 2, 1233); (1329, 1366, 1, 1377); (4256, 4293, 1, 11520);
    (4295, 4295, 1, 11559); (4301, 4301, 1, 11565); (5024, 5103, 1, 43888);
    (5104, 5109, 1, 5112); (7312, 7354, 1, 4304); (7357, 7359, 1, 4349);
    (7680, 7828, 2, 7681); (7838, 7838, 1, 223); (7840, 7934, 2, 7841);
    (7944, 7951, 1, 7936); (7960, 7965, 1, 7952); (7976, 7983, 1, 7968);
    (7992, 7999, 1, 7984); (8008, 8013, 1, 8000); (8025, 8031, 2, 8017);
    (8040, 8047, 1, 8032); (8072, 8079, 1, 8064); (8088, 8095, 1, 8080);
    (8104, 8111, 1, 8096); (8120, 8121, 1, 8112); (8122, 8123, 1, 8048);
    (8124, 8124, 1, 8115); (8136, 8139, 1, 8050); (8140, 8140, 1, 8131);
    (8152, 8153, 1, 8144); (8154, 8155, 1, 8054); (8168, 8169, 1, 8160);
    (8170, 8171, 1, 8058); (8172, 8172, 1, 8165); (8184, 8185, 1, 8056);
    (8186, 8187, 1, 8060); (8188, 8188, 1, 8179); (8486, 8486, 1, 969);
    (8490, 8490, 1, 107); (8491, 8491, 1, 229); (8498, 8498, 1, 8526);
    (8544, 8559, 1, 8560); (8579, 8579, 1, 8580); (9398, 9423, 1, 9424);
    (11264, 11311, 1, 11312); (11360, 11360, 1, 11361);
    (11362, 11362, 1, 619); (11363, 11363, 1, 7549); (11364, 11364, 1, 637);
    (11367, 11371, 2, 11368); (11373, 11373, 1, 593);
    (11374, 11374, 1, 625); (11375, 11375, 1, 592); (11376, 11376, 1, 594);
    (11378, 11378, 1, 11379); (11381, 11381, 1, 11382);
    (11390, 11391, 1, 575); (11392, 11490, 2, 11393);
    (11499, 11501, 2, 11500); (11506, 11506, 1, 11507);
    (42560, 42604, 2, 42561); (42624, 42650, 2, 42625);
    (42786, 42798, 2, 42787); (42802, 42862, 2, 42803);
    (42873, 42875, 2, 42874); (42877, 42877, 1, 7545);
    (42878, 42886, 2, 42879); (42891, 42891, 1, 42892);
    (42893, 42893, 1, 613); (42896, 42898, 2, 42897);
    (42902, 42920, 2, 42903); (42922, 42922, 1, 614);
    (42923, 42923, 1, 604); (42924, 42924, 1, 609); (42925, 42925, 1, 620);
    (42926, 42926, 1, 618); (42928, 42928, 1, 670); (42929, 42929, 1, 647);
    (42930, 42930, 1, 669); (42931, 42931, 1, 43859);
    (42932, 42946, 2, 42933); (42948, 42948, 1, 42900);
    (42949, 42949, 1, 642); (42950, 42950, 1, 7566);
    (42951, 42953, 2, 42952); (42960, 42960, 1, 42961);
    (42966, 42968, 2, 42967); (42997, 42997, 1, 42998);
    (65313, 65338, 1, 65345); (66560, 66599, 1, 66600);
    (66736, 66771, 1, 66776); (66928, 66938, 1, 66967);
    (66940, 66954, 1, 66979); (66956, 66962, 1, 66995);
    (66964, 66965, 1, 67003); (68736, 68786, 1, 68800);
    (71840, 71871, 1, 71872); (93760, 93791, 1, 93792);
    (125184, 125217, 1, 125218)]%N.

(** The characters that are case-ignorable: marks, modifier letters and
    symbols, format characters and some punctuation inside words. *)
Definition case_ignorable_ranges : list (N * N) :=
  [(39, 39); (46, 46); (58, 58); (94, 94); (96, 96); (168, 168);
    (173, 173); (175, 175); (180, 180); (183, 184); (688, 879); (884, 885);
    (890, 890); (900, 901); (903, 903); (1155, 1161); (1369, 1369);
    (1375, 1375); (1425, 1469); (1471, 1471); (1473, 1474); (1476, 1477);
    (1479, 1479); (1524, 1524); (1536, 1541); (1552, 1562); (1564, 1564);
    (1600, 1600); (1611, 1631); (1648, 1648); (1750, 1757); (1759, 1768);
    (1770, 1773); (1807, 1807); (1809, 1809); (1840, 1866); (1958, 1968);
    (2027, 2037); (2042, 2042); (2045, 2045); (2070, 2093); (2137, 2139);
    (2184, 2184); (2192, 2193); (2200, 2207); (2249, 2306); (2362, 2362);
    (2364, 2364); (2369, 2376); (2381, 2381); (2385, 2391); (2402, 2403);
    (2417, 2417); (2433, 2433); (2492, 2492); (2497, 2500); (2509, 2509);
    (2530, 2531); (2558, 2558); (2561, 2562); (2620, 2620); (2625, 2626);
    (2631, 2632); (2635, 2637); (2641, 2641); (2672, 2673); (2677, 2677);
    (2689, 2690); (2748, 2748); (2753, 2757); (2759, 2760); (2765, 2765);
    (2786, 2787); (2810, 2815); (2817, 2817); (2876, 2876); (2879, 2879);
    (2881, 2884); (2893, 2893); (2901, 2902); (2914, 2915); (2946, 2946);
    (3008, 3008); (3021, 3021); (3072, 3072); (3076, 3076); (3132, 3132);
    (3134, 3136); (3142, 3144); (3146, 3149); (3157, 3158); (3170, 3171);
    (3201, 3201); (3260, 3260); (3263, 3263); (3270, 3270); (3276, 3277);
    (3298, 3299); (3328, 3329); (3387, 3388); (3393, 3396); (3405, 3405);
    (3426, 3427); (3457, 3457); (3530, 3530); (3538, 3540); (3542, 3542);
    (3633, 3633); (3636, 3642); (3654, 3662); (3761, 3761); (3764, 3772);
    (3782, 3782); (3784, 3789); (3864, 3865); (3893, 3893); (3895, 3895);
    (3897, 3897); (3953, 3966); (3968, 3972); (3974, 3975); (3981, 3991);
    (3993, 4028); (4038, 4038); (4141, 4144); (4146, 4151); (4153, 4154);
    (4157, 4158); (4184, 4185); (4190, 4192); (4209, 4212); (4226, 4226);
    (4229, 4230); (4237, 4237); (4253, 4253); (4348, 4348); (4957, 4959);
    (5906, 5908); (5938, 5939); (5970, 5971); (6002, 6003); (6068, 6069);
    (6071, 6077); (6086, 6086); (6089, 6099); (6103, 6103); (6109, 6109);
    (6155, 6159); (6211, 6211); (6277, 6278); (6313, 6313); (6432, 6434);
    (6439, 6440); (6450, 6450); (6457, 6459); (6679, 6680); (6683, 6683);
    (6742, 6742); (6744, 6750); (6752, 6752); (6754, 6754); (6757, 6764);
    (6771, 6780); (6783, 6783); (6823, 6823); (6832, 6862); (6912, 6915);
    (6964, 6964); (6966, 6970); (6972, 6972); (6978, 6978); (7019, 7027);
    (7040, 7041); (7074, 7077); (7080, 7081); (7083, 7085); (7142, 7142);
    (7144, 7145); (7149, 7149); (7151, 7153); (7212, 7219); (7222, 7223);
    (7288, 7293); (7376, 7378); (7380, 7392); (7394, 7400); (7405, 7405);
    (7412, 7412); (7416, 7417); (7468, 7530); (7544, 7544); (7579, 7679);
    (8125, 8125); (8127, 8129); (8141, 8143); (8157, 8159); (8173, 8175);
    (8189, 8190); (8203, 8207); (8216, 8217); (8228, 8228); (8231, 8231);
    (8234, 8238); (8288, 8292); (8294, 8303); (8305, 8305); (8319, 8319);
    (8336, 8348); (8400, 8432); (11388, 11389); (11503, 11505);
    (11631, 11631); (11647, 11647); (11744, 11775); (11823, 11823);
    (12293, 12293); (12330, 12333); (12337, 12341); (12347, 12347);
    (12441, 12446); (12540, 12542); (40981, 40981); (42232, 42237);
    (42508, 42508); (42607, 42610); (42612, 42621); (42623, 42623);
    (42652, 42655); (42736, 42737); (42752, 42785); (42864, 42864);
    (42888, 42890); (42994, 42996); (43000, 43001); (43010, 43010);
    (43014, 43014); (43019, 43019); (43045, 43046); (43052, 43052);
    (43204, 43205); (43232, 43249); (43263, 43263); (43302, 43309);
    (43335, 43345); (43392, 43394); (43443, 43443); (43446, 43449);
    (43452, 43453); (43471, 43471); (43493, 43494); (43561, 43566);
    (43569, 43570); (43573, 43574); (43587, 43587); (43596, 43596);
    (43632, 43632); (43644, 43644); (43696, 43696); (43698, 43700);
    (43703, 43704); (43710, 43711); (43713, 43713); (43741, 43741);
    (43756, 43757); (43763, 43764); (43766, 43766); (43867, 43871);
    (43881, 43883); (44005, 44005); (44008, 44008); (44013, 44013);
    (64286, 64286); (64434, 64450); (65024, 65039); (65043, 65043);
    (65056, 65071); (65106, 65106); (65109, 65109); (65279, 65279);
    (65287, 65287); (65294, 65294); (65306, 65306); (65342, 65342);
    (65344, 65344); (65392, 65392); (65438, 65439); (65507, 65507);
    (65529, 65531); (66045, 66045); (66272, 66272); (66422, 66426);
    (67456, 67461); (67463, 67504); (67506, 67514); (68097, 68099);
    (68101, 68102); (68108, 68111); (68152, 68154); (68159, 68159);
    (68325, 68326); (68900, 68903); (69291, 69292); (69446, 69456);
    (69506, 69509); (69633, 69633); (69688, 69702); (69744, 69744);
    (69747, 69748); (69759, 69761); (69811, 69814); (69817, 69818);
    (69821, 69821); (69826, 69826); (69837, 69837); (69888, 69890);
    (69927, 69931); (69933, 69940); (70003, 70003); (70016, 70017);
    (70070, 70078); (70089, 70092); (70095, 70095); (70191, 70193);
    (70196, 70196); (70198, 70199); (70206, 70206); (70367, 70367);
    (70371, 70378); (70400, 70401); (70459, 70460); (70464, 70464);
    (70502, 70508); (70512, 70516); (70712, 70719); (70722, 70724);
    (70726, 70726); (70750, 70750); (70835, 70840); (70842, 70842);
    (70847, 70848); (70850, 70851); (71090, 71093); (71100, 71101);
    (71103, 71104); (71132, 71133); (71219, 71226); (71229, 71229);
    (71231, 71232); (71339, 71339); (71341, 71341); (71344, 71349);
    (71351, 71351); (71453, 71455); (71458, 71461); (71463, 71467);
    (71727, 71735); (71737, 71738); (71995, 71996); (71998, 71998);
    (72003, 72003); (72148, 72151); (72154, 72155); (72160, 72160);
    (72193, 72202); (72243, 72248); (72251, 72254); (72263, 72263);
    (72273, 72278); (72281, 72283); (72330, 72342); (72344, 72345);
    (72752, 72758); (72760, 72765); (72767, 72767); (72850, 72871);
    (72874, 72880); (72882, 72883); (72885, 72886); (73009, 73014);
    (73018, 73018); (73020, 73021); (73023, 73029); (73031, 73031);
    (73104, 73105); (73109, 73109); (73111, 73111); (73459, 73460);
    (78896, 78904); (92912, 92916); (92976, 92982); (92992, 92995);
    (94031, 94031); (94095, 94111); (94176, 94177); (94179, 94180);
    (110576, 110579); (110581, 110587); (110589, 110590); (113821, 113822);
    (113824, 113827); (118528, 118573); (118576, 118598); (119143, 119145);
    (119155, 119170); (119173, 119179); (119210, 119213); (119362, 119364);
    (121344, 121398); (121403, 121452); (121461, 121461); (121476, 121476);
    (121499, 121503); (121505, 121519); (122880, 122886); (122888, 122904);
    (122907, 122913); (122915, 122916); (122918, 122922); (123184, 123197);
    (123566, 123566); (123628, 123631); (125136, 125142); (125252, 125259);
    (127995, 127999); (917505, 917505); (917536, 917631); (917760, 917999)]%N.

(** The cased characters that are not case-ignorable: the letters that
    are upper case, lower case or title case. *)
Definition cased_ranges : list (N * N) :=
  [(65, 90); (97, 122); (170, 170); (181, 181); (186, 186); (192, 214);
    (216, 246); (248, 442); (444, 447); (452, 659); (661, 687); (880, 883);
    (886, 887); (891, 893); (895, 895); (902, 902); (904, 906); (908, 908);
    (910, 929); (931, 1013); (1015, 1153); (1162, 1327); (1329, 1366);
    (1376, 1416); (4256, 4293); (4295, 4295); (4301, 4301); (4304, 4346);
    (4349, 4351); (5024, 5109); (5112, 5117); (7296, 7304); (7312, 7354);
    (7357, 7359); (7424, 7467); (7531, 7543); (7545, 7578); (7680, 7957);
    (7960, 7965); (7968, 8005); (8008, 8013); (8016, 8023); (8025, 8025);
    (8027, 8027); (8029, 8029); (8031, 8061); (8064, 8116); (8118, 8124);
    (8126, 8126); (8130, 8132); (8134, 8140); (8144, 8147); (8150, 8155);
    (8160, 8172); (8178, 8180); (8182, 8188); (8450, 8450); (8455, 8455);
    (8458, 8467); (8469, 8469); (8473, 8477); (8484, 8484); (8486, 8486);
    (8488, 8488); (8490, 8493); (8495, 8500); (8505, 8505); (8508, 8511);
    (8517, 8521); (8526, 8526); (8544, 8575); (8579, 8580); (9398, 9449);
    (11264, 11387); (11390, 11492); (11499, 11502); (11506, 11507);
    (11520, 11557); (11559, 11559); (11565, 11565); (42560, 42605);
    (42624, 42651); (42786, 42863); (42865, 42887); (42891, 42894);
    (42896, 42954); (42960, 42961); (42963, 42963); (42965, 42969);
    (42997, 42998); (43002, 43002); (43824, 43866); (43872, 43880);
    (43888, 43967); (64256, 64262); (64275, 64279); (65313, 65338);
    (65345, 65370); (66560, 66639); (66736, 66771); (66776, 66811);
    (66928, 66938); (66940, 66954); (66956, 66962); (66964, 66965);
    (66967, 66977); (66979, 66993); (66995, 67001); (67003, 67004);
    (68736, 68786); (68800, 68850); (71840, 71903); (93760, 93823);
    (119808, 119892); (119894, 119964); (119966, 119967); (119970, 119970);
    (119973, 119974); (119977, 119980); (119982, 119993); (119995, 119995);
    (119997, 120003); (120005, 120069); (120071, 120074); (120077, 120084);
    (120086, 120092); (120094, 120121); (120123, 120126); (120128, 120132);
    (120134, 120134); (120138, 120144); (120146, 120485); (120488, 120512);
    (120514, 120538); (120540, 120570); (120572, 120596); (120598, 120628);
    (120630, 120654); (120656, 120686); (120688, 120712); (120714, 120744);
    (120746, 120770); (120772, 120779); (122624, 122633); (122635, 122654);
    (125184, 125251); (127280, 127305); (127312, 127337); (127344, 127369)]%N.

(** Whether [str.isdigit] accepts a character. *)
Definition isdigit_point (p : string) : bool := in_ranges (decode p) digit_ranges.

(** [s.isdigit()]: at least one character, and every character a digit. *)
Definition str_isdigit (s : string) : bool :=
  match code_points s with
  | [] => false
  | ps => forallb isdigit_point ps
  end.

Definition run_target (n : N) (run : N * N * N * N) : option N :=
  let '(first, last, step, target) := run in
  if (first <=? n)%N && (n <=? last)%N && ((n - first) mod step =? 0)%N
  then Some (target + (n - first))%N
  else None.

(** The lower-case mapping of a code point; a code point without one is
    mapped to itself. *)
Fixpoint lower_code (n : N) (runs : list (N * N * N * N)) : N :=
  match runs with
  | [] => n
  | run :: rest =>
      match run_target n run with
      | Some m => m
      | None => lower_code n rest
      end
  end.

Definition case_ignorable (p : string) : bool :=
  in_ranges (decode p) case_ignorable_ranges.

Definition cased (p : string) : bool := in_ranges (decode p) cased_ranges.

Fixpoint skip_ignorable (ps : list string) : list string :=
  match ps with
  | [] => []
  | p :: ps' => if case_ignorable p then skip_ignorable ps' else ps
  end.

(** The capital sigma is final when, case-ignorable characters apart,
    a cased character stands before it and none after it. *)
Definition final_sigma (before after : list string) : bool :=
  match skip_ignorable before with
  | p :: _ =>
      cased p
      && match skip_ignorable after with
         | q :: _ => negb (cased q)
         | [] => true
         end
  | [] => false
  end.

(** The lower case of one character of a text; [before] holds the
    characters before it, the nearest first, and [after] those after
    it.  The capital sigma becomes the final or the ordinary small
    sigma; the capital I with a dot becomes an i and a combining dot. *)
Definition lower_point (before after : list string) (p : string) : string :=
  let n := decode p in
  if (n =? 931)%N then
    if final_sigma before after then encode 962 else encode 963
  else if (n =? 304)%N then utf8 [105; 204; 135]
  else
    let m := lower_code n lower_runs in
    if (m =? n)%N then p else encode m.

Fixpoint lower_from (before after : list string) : list string :=
  match after with
  | [] => []
  | p :: rest => lower_point before rest p :: lower_from (p :: before) rest
  end.

(** [s.lower()] *)
Definition str_lower (s : string) : string :=
  text_of (lower_from [] (code_points s)).

End PyUnicode.

Import PyUnicode.

(* ================================================================== *)
(** * Regular expressions: the part of Python's [re] the source uses *)
(* ================================================================== *)

Module Re.

(** A parsed pattern.  [Repeat n r] is [re]'s unbounded repetition with
    minimum [n]: the quantifiers [*], [+] and [{n,}]. *)
Inductive regex : Type :=
| Void
| Eps
| Lit (c : ascii)
| Class (cs : list ascii)
| Cat (r1 r2 : regex)
| Alt (r1 r2 : regex)
| Repeat (min : nat) (r : regex).

Definition in_class (c : ascii) (cs : list ascii) : bool :=
  existsb (Ascii.eqb c) cs.

Fixpoint nullable (r : regex) : bool :=
  match r with
  | Void => false
  | Eps => true
  | Lit _ => false
  | Class _ => false
  | Cat r1 r2 => nullable r1 && nullable r2
  | Alt r1 r2 => nullable r1 || nullable r2
  | Repeat n r1 => (n =? 0) || nullable r1
  end.

(** The derivative of a pattern by one character. *)
Fixpoint deriv (c : ascii) (r : regex) : regex :=
  match r with
  | Void => Void
  | Eps => Void
  | Lit d => if Ascii.eqb c d then Eps else Void
  | Class cs => if in_class c cs then Eps else Void
  | Cat r1 r2 =>
      if nullable r1 then Alt (Cat (deriv c r1) r2) (deriv c r2)
      else Cat (deriv c r1) r2
  | Alt r1 r2 => Alt (deriv c r1) (deriv c r2)
  | Repeat n r1 => Cat (deriv c r1) (Repeat (pred n) r1)
  end.

(** [re.match(r, s)] finds a match: some prefix of [s] matches [r]. *)
Fixpoint match_prefix (r : regex) (s : string) : bool :=
  nullable r
  || match s with
     | EmptyString => false
     | String c s' => match_prefix (deriv c r) s'
     end.

(** [re.search(r, s)] finds a match: some substring of [s] matches [r]. *)
Fixpoint search (r : regex) (s : string) : bool :=
  match_prefix r s
  || match s with
     | EmptyString => false
     | String _ s' => search r s'
     end.

(** What it means for a text to match a pattern, as [re] documents
    its constructs. *)
Inductive matches : regex -> string -> Prop :=
| matches_eps : matches Eps EmptyString
| matches_lit (c : ascii) : matches (Lit c) (chr c)
| matches_class (c : ascii) (cs : list ascii) :
    in_class c cs = true -> matches (Class cs) (chr c)
| matches_cat (r1 r2 : regex) (s1 s2 : string) :
    matches r1 s1 -> matches r2 s2 -> matches (Cat r1 r2) (s1 ++ s2)
| matches_alt_l (r1 r2 : regex) (s : string) :
    matches r1 s -> matches (Alt r1 r2) s
| matches_alt_r (r1 r2 : regex) (s : string) :
    matches r2 s -> matches (Alt r1 r2) s
| matches_repeat_done (r : regex) : matches (Repeat 0 r) EmptyString
| matches_repeat_more (n : nat) (r : regex) (s1 s2 : string) :
    matches r s1 -> matches (Repeat (pred n) r) s2 ->
    matches (Repeat n r) (s1 ++ s2).

(** ** Reading a pattern

    The parser covers the syntax the patterns of the source are written
    in: literal characters, a backslash before a character that is
    neither a letter nor a digit (the character itself), a character
    set without ranges or negation, and the quantifiers [*], [+] and
    [{n,}].  Everything else ([None]) is outside the model. *)

Definition special (c : ascii) : bool :=
  in_class c ["."; "^"; "$"; "*"; "+"; "?"; "{"; "}"; "["; "]"; "|"; "("; ")"]%char.

(** One literal of a pattern, escaped or not. *)
Definition escaped (p : string) : option (ascii * string) :=
  match p with
  | String e p' => if isalnum_char e then None else Some (e, p')
  | EmptyString => None
  end.

Definition class_atom (p : string) : option (ascii * string) :=
  match p with
  | String c p' => if Ascii.eqb c backslash then escaped p' else Some (c, p')
  | EmptyString => None
  end.

(** The members of a set, up to its closing bracket; a hyphen just
    before the bracket is a member. *)
Fixpoint parse_class (fuel : nat) (p : string) (acc : list ascii)
  : option (list ascii * string) :=
  match fuel with
  | O => None
  | S fuel' =>
      match p with
      | String "]" p' =>
          match acc with
          | [] => None
          | _ => Some (rev acc, p')
          end
      | _ =>
          match class_atom p with
          | None => None
          | Some (c, p1) =>
              match p1 with
              | String "-" (String "]" p3) => Some (rev ("-"%char :: c :: acc), p3)
              | String "-" _ => None
              | _ => parse_class fuel' p1 (c :: acc)
              end
          end
      end
  end.

Fixpoint read_nat (p : string) (acc : option nat) : option nat * string :=
  match p with
  | String c p' =>
      if isdigit_char c then
        read_nat p' (Some (10 * match acc with Some n => n | None => 0 end
                           + (nat_of_ascii c - 48)))
      else (acc, p)
  | EmptyString => (acc, p)
  end.

(** The quantifier that follows an item, if any: its minimum and the
    rest of the pattern. *)
Definition quantifier (p : string) : option (option nat * string) :=
  match p with
  | String "+" p' => Some (Some 1, p')
  | String "*" p' => Some (Some 0, p')
  | String "{" p' =>
      match read_nat p' None with
      | (Some n, String "," (String "}" p'')) => Some (Some n, p'')
      | _ => None
      end
  | String "?" _ => None
  | _ => Some (None, p)
  end.

Definition quantified (atom : regex) (p : string) : option (regex * string) :=
  match quantifier p with
  | Some (Some n, p') =>
      match quantifier p' with
      | Some (None, _) => Some (Repeat n atom, p')
      | _ => None
      end
  | Some (None, p') => Some (atom, p')
  | None => None
  end.

Definition parse_atom (p : string) : option (regex * string) :=
  match p with
  | EmptyString => None
  | String c p' =>
      if Ascii.eqb c backslash then
        match escaped p' with
        | Some (e, p'') => Some (Lit e, p'')
        | None => None
        end
      else if Ascii.eqb c "[" then
        match p' with
        | String "^" _ => None
        | _ =>
            match parse_class (S (String.length p')) p' [] with
            | Some (cs, p'') => Some (Class cs, p'')
            | None => None
            end
        end
      else if special c then None
      else Some (Lit c, p')
  end.

Fixpoint parse_items (fuel : nat) (p : string) : option (list regex) :=
  match fuel with
  | O => None
  | S fuel' =>
      match p with
      | EmptyString => Some []
      | _ =>
          match parse_atom p with
          | None => None
          | Some (atom, p1) =>
              match quantified atom p1 with
              | None => None
              | Some (item, p2) =>
                  match parse_items fuel' p2 with
                  | Some items => Some (item :: items)
                  | None => None
                  end
              end
          end
      end
  end.

(** [re.compile(pattern)] on the modelled syntax: the items in sequence. *)
Definition compile (pattern : string) : option regex :=
  match parse_items (S (String.length pattern)) pattern with
  | Some items => Some (fold_right Cat Eps items)
  | None => None
  end.

(** The truth value of [re.search(pattern, s)]. *)
Definition re_search (pattern s : string) : bool :=
  match compile pattern with
  | Some r => search r s
  | None => false
  end.

End Re.

(* ================================================================== *)
(** * The contact-info detector *)
(* ================================================================== *)

(** The two patterns, character for character as the raw string
    literals of the source hold them: in a raw literal every backslash
    is a character of the pattern, so each doubled backslash reaches
    [re] as an escaped backslash. *)
Definition phone_pattern : string := "\\b\\d{10,}\\b".
Definition email_pattern : string := "[\\w\\.-]+@[\\w\\.-]+".
Definition name_keywords : list string := ["name is"; "i am"; "i'm"; "this is"].

(** [is_contact_info], the function [process] defines locally. *)
Definition is_contact_info (msg : string) : bool :=
  let msg_lower := lower msg in
  if Re.re_search phone_pattern msg || Re.re_search email_pattern msg then true
  else if existsb (fun kw => str_in kw msg_lower) name_keywords then true
  else false.

(* ================================================================== *)
(** * The time normalizer *)
(* ================================================================== *)

(** The token the first statement of [_normalize_time] computes. *)
Definition time_token (message : string) : string :=
  remove_char "."
    (remove_char " "
       (remove_char "'"
          (remove_char dquote (str_lower (str_strip message))))).

(** [SalesRAGAgent._normalize_time] *)
Definition _normalize_time (message : string) : string :=
  let parsed_time := time_token message in
  if str_isdigit parsed_time then
    if str_len parsed_time <=? 2 then str_zfill 2 parsed_time ++ ":00"
    else if str_len parsed_time =? 3 then
      "0" ++ str_take 1 parsed_time ++ ":" ++ str_drop 1 parsed_time
    else if str_len parsed_time =? 4 then
      str_take 2 parsed_time ++ ":" ++ str_drop 2 parsed_time
    else parsed_time
  else if str_in ":" parsed_time then
    let parts := split ":" parsed_time in
    if (List.length parts =? 2) && forallb str_isdigit parts then
      str_zfill 2 (nth 0 parts EmptyString) ++ ":"
      ++ str_zfill 2 (nth 1 parts EmptyString)
    else parsed_time
  else parsed_time.

(* ================================================================== *)
(** * Session state *)
(* ================================================================== *)

(** Modelled from the spec: the enumeration [LeadState] of
    [lead_state.py], a file that is not among the sources.  Its members
    are the six states of the specification, the ones [process] compares
    the state with.  A member stands for its label ([state.value]). *)
Inductive LeadState : Type :=
| NO_INTEREST
| INTEREST_DETECTED
| COLLECTING_INFO
| INFO_COMPLETE
| AWAITING_MEETING_CONFIRMATION
| WAITING_MEETING_SLOT_SELECTION.

(** [partial_lead_info]: field name to captured value. *)
Definition dict : Type := list (string * string).

(** The attributes of [self.lead_tool] that [process] reads or writes. *)
Record LeadTool : Type := {
  state : LeadState;
  partial_lead_info : dict;
  current_lead_id : option string
}.

(** The attribute of [self.meeting_tool] that [process] reads or writes. *)
Record MeetingTool : Type := {
  available_slots : list string
}.

(** The mutable attributes of a [SalesRAGAgent]. *)
Record SalesRAGAgent : Type := {
  lead_tool : LeadTool;
  meeting_tool : MeetingTool;
  conversation_history : list string
}.

(** What [process] returns: the dictionary with the keys [response],
    [lead_info] and [lead_state]. *)
Record Reply : Type := {
  response : string;
  lead_info : option dict;
  lead_state : LeadState
}.

(** A Python exception, with the text [str(e)] gives. *)
Inductive exn : Type := Exception (text : string).

Definition str (e : exn) : string := match e with Exception text => text end.

(** How a call ends: it returns a value or raises. *)
Inductive outcome (A : Type) : Type :=
| Returns (a : A)
| Raises (e : exn).

Arguments Returns {A} a.
Arguments Raises {A} e.

(** The calls [process] makes to its collaborators, as a log records
    them. *)
Inductive Call : Type :=
| UpdateState (message : string)
| GetMissingFields
| LlmInvoke (prompt : string)
| Answer (question : string) (history : list string) (info : dict) (st : LeadState)
| AgentExecutorInvoke (input : string)
| CreateLead
| GetSlots
| FormatSlots (slots : list string)
| Schedule (lead_id slot : string).

(* ================================================================== *)
(** * Collaborators *)
(* ================================================================== *)

(** Modelled from the spec: the collaborators of the controller, whose
    classes ([LeadTool], [MeetingTool], [PDFQATool], the language model
    and the agent executor of the SQL tool) are not among the sources.
    Each is a function of its arguments, of the attributes of its own
    object and of the state [Env] of everything behind it (the model, the
    CRM, the data base); it returns or raises, and leaves its object and
    [Env] changed as it likes.  [get_missing_fields] and [format_slots]
    only read and always return; [answer] only reads the history and the
    lead info it is passed.  [fix_area] belongs to [SQLAgentTool]; it rests on [re]
    and [difflib] and on the areas read from the data base, and is taken
    as given. *)
Record Collaborators (Env : Type) : Type := {
  update_state : string -> LeadTool -> Env -> outcome unit * LeadTool * Env;
  get_missing_fields : LeadTool -> list string;
  create_lead : LeadTool -> Env -> outcome (option string) * LeadTool * Env;
  get_slots : MeetingTool -> Env -> outcome (list string) * MeetingTool * Env;
  format_slots : list string -> string;
  schedule : string -> string -> MeetingTool -> Env -> outcome bool * MeetingTool * Env;
  answer : string -> list string -> dict -> LeadState -> Env -> outcome string * Env;
  llm_invoke : string -> Env -> outcome string * Env;
  fix_area : string -> outcome string;
  agent_executor_invoke : string -> Env -> outcome string * Env
}.

Arguments update_state {Env} _ _ _ _.
Arguments get_missing_fields {Env} _ _.
Arguments create_lead {Env} _ _ _.
Arguments get_slots {Env} _ _ _.
Arguments format_slots {Env} _ _.
Arguments schedule {Env} _ _ _ _ _.
Arguments answer {Env} _ _ _ _ _ _.
Arguments llm_invoke {Env} _ _ _.
Arguments fix_area {Env} _ _.
Arguments agent_executor_invoke {Env} _ _ _.

(** The agent, what lies behind its collaborators, and the log of the
    collaborator calls made so far. *)
Record World (Env : Type) : Type := {
  agent : SalesRAGAgent;
  env : Env;
  calls : list Call
}.

Arguments agent {Env} _.
Arguments env {Env} _.
Arguments calls {Env} _.

Definition with_lead_tool (lt : LeadTool) (a : SalesRAGAgent) : SalesRAGAgent :=
  {| lead_tool := lt;
     meeting_tool := meeting_tool a;
     conversation_history := conversation_history a |}.

Definition with_meeting_tool (mt : MeetingTool) (a : SalesRAGAgent) : SalesRAGAgent :=
  {| lead_tool := lead_tool a;
     meeting_tool := mt;
     conversation_history := conversation_history a |}.

Definition with_history (h : list string) (a : SalesRAGAgent) : SalesRAGAgent :=
  {| lead_tool := lead_tool a;
     meeting_tool := meeting_tool a;
     conversation_history := h |}.

Definition with_state (st : LeadState) (lt : LeadTool) : LeadTool :=
  {| state := st;
     partial_lead_info := partial_lead_info lt;
     current_lead_id := current_lead_id lt |}.

Definition with_available_slots (slots : list string) (mt : MeetingTool) : MeetingTool :=
  {| available_slots := slots |}.

Definition with_current_lead_id (i : option string) (lt : LeadTool) : LeadTool :=
  {| state := state lt;
     partial_lead_info := partial_lead_info lt;
     current_lead_id := i |}.

(* ================================================================== *)
(** * The controller *)
(* ================================================================== *)

Section Controller.

Context {Env : Type} (C : Collaborators Env).

(** A computation on the world that returns or raises; what was changed
    before an exception stays changed. *)
Definition M (A : Type) : Type := World Env -> outcome A * World Env.

Definition ret {A : Type} (a : A) : M A := fun w => (Returns a, w).

Definition bind {A B : Type} (m : M A) (k : A -> M B) : M B :=
  fun w =>
    match m w with
    | (Returns a, w') => k a w'
    | (Raises e, w') => (Raises e, w')
    end.

(** [try: m  except Exception as e: handler e] *)
Definition try_except {A : Type} (m : M A) (handler : exn -> M A) : M A :=
  fun w =>
    match m w with
    | (Returns a, w') => (Returns a, w')
    | (Raises e, w') => handler e w'
    end.

Definition lift {A : Type} (o : outcome A) : M A := fun w => (o, w).

Definition get : M SalesRAGAgent := fun w => (Returns (agent w), w).

Definition modify (f : SalesRAGAgent -> SalesRAGAgent) : M unit :=
  fun w => (Returns tt, {| agent := f (agent w); env := env w; calls := calls w |}).

Definition called (c : Call) (w : World Env) : list Call := (calls w ++ [c])%list.

Notation "x <- m ;; k" := (bind m (fun x => k))
  (at level 61, m at next level, right associativity).
Notation "m ;; k" := (bind m (fun _ => k))
  (at level 61, right associativity).

(** ** The collaborator calls *)

(** [self.lead_tool.update_state(message, self.llm)] *)
Definition lead_tool_update_state (message : string) : M unit :=
  fun w =>
    let '(r, lt, e) := update_state C message (lead_tool (agent w)) (env w) in
    (r, {| agent := with_lead_tool lt (agent w); env := e;
           calls := called (UpdateState message) w |}).

(** [self.lead_tool.get_missing_fields()] *)
Definition lead_tool_get_missing_fields : M (list string) :=
  fun w =>
    (Returns (get_missing_fields C (lead_tool (agent w))),
     {| agent := agent w; env := env w; calls := called GetMissingFields w |}).

(** [self.lead_tool.create_lead()] *)
Definition lead_tool_create_lead : M (option string) :=
  fun w =>
    let '(r, lt, e) := create_lead C (lead_tool (agent w)) (env w) in
    (r, {| agent := with_lead_tool lt (agent w); env := e;
           calls := called CreateLead w |}).

(** [self.meeting_tool.get_slots()] *)
Definition meeting_tool_get_slots : M (list string) :=
  fun w =>
    let '(r, mt, e) := get_slots C (meeting_tool (agent w)) (env w) in
    (r, {| agent := with_meeting_tool mt (agent w); env := e;
           calls := called GetSlots w |}).

(** [self.meeting_tool.format_slots(slots)] *)
Definition meeting_tool_format_slots (slots : list string) : M string :=
  fun w =>
    (Returns (format_slots C slots),
     {| agent := agent w; env := env w; calls := called (FormatSlots slots) w |}).

(** [self.meeting_tool.schedule(lead_id, slot)] *)
Definition meeting_tool_schedule (lead_id slot : string) : M bool :=
  fun w =>
    let '(r, mt, e) := schedule C lead_id slot (meeting_tool (agent w)) (env w) in
    (r, {| agent := with_meeting_tool mt (agent w); env := e;
           calls := called (Schedule lead_id slot) w |}).

(** [self.pdf_qa_tool.answer(message, self.conversation_history,
    self.lead_tool.partial_lead_info, state.value)] *)
Definition pdf_qa_tool_answer (message : string) (st : LeadState) : M string :=
  fun w =>
    let history := conversation_history (agent w) in
    let info := partial_lead_info (lead_tool (agent w)) in
    let '(r, e) := answer C message history info st (env w) in
    (r, {| agent := agent w; env := e;
           calls := called (Answer message history info st) w |}).

(** [self.llm.invoke(prompt).content] *)
Definition llm_invoke_content (prompt : string) : M string :=
  fun w =>
    let '(r, e) := llm_invoke C prompt (env w) in
    (r, {| agent := agent w; env := e; calls := called (LlmInvoke prompt) w |}).

(** [self.agent_executor.invoke({input: question})[output]] *)
Definition agent_executor_output (question : string) : M string :=
  fun w =>
    let '(r, e) := agent_executor_invoke C question (env w) in
    (r, {| agent := agent w; env := e;
           calls := called (AgentExecutorInvoke question) w |}).

(** ** [SQLAgentTool.query]

    The area is fixed before the [try] block opens; only the agent
    executor runs inside it.  (The calls to the logger are left out.) *)
Definition query (question : string) : M string :=
  clean_question <- lift (fix_area C question) ;;
  try_except
    (agent_executor_output clean_question)
    (fun e => ret ("SQL agent error: " ++ str e)).

(** ** [SalesRAGAgent._decide_tool] *)

Definition decide_system_prompt : string :=
  "You are an expert AI assistant. Decide if the user's question is about property/project/unit data (use SQL agent), "
  ++ "or about Emaar properties and its FAQs (use RAG)." ++ nl
  ++ "If the question is about property/unit/project info, price, area, stats, or anything in the database, answer 'sql'." ++ nl
  ++ "If about Emaar, answer 'rag'." ++ nl
  ++ "Only answer 'sql' or 'rag'.".

Definition decide_prompt (message : string) : string :=
  decide_system_prompt ++ nl ++ "User: " ++ message ++ nl ++ "Answer:".

Definition _decide_tool (message : string) : M string :=
  content <- llm_invoke_content (decide_prompt message) ;;
  let decision := lower (strip content) in
  if str_in "sql" decision then ret "sql" else ret "rag".

(** ** [SalesRAGAgent.process] *)

Definition fallback_system_prompt : string :=
  "You are a friendly, conversational sales assistant for Emaar. "
  ++ "If the user greets you or starts with small talk (like 'hi', 'hello', 'how are you', etc.), "
  ++ "respond warmly and conversationally, and guide them to ask about Emmar properties and FAQs about it. "
  ++ "If the user's question is not related to Emaar properties, politely respond: 'Sorry, I can only answer questions related to FSTC pilot training, meetings, or our services. Please ask something related.' "
  ++ "Never answer general knowledge or unrelated questions.".

Definition fallback_prompt (history : list string) (message : string) : string :=
  nl ++ fallback_system_prompt ++ nl
  ++ nl
  ++ "Conversation so far:" ++ nl
  ++ join nl (last_n 6 history) ++ nl
  ++ "Human: " ++ message ++ nl
  ++ "Assistant:" ++ chr dquote ++ nl.

Definition affirmative_tokens : list string :=
  ["yes"; "yeah"; "y"; "sure"; "please"; "schedule"; "schedule meeting";
   "schedul"; "scedul"; "shedule"; "sedul"].

(** The test of the confirmation branch:
    [message.strip().lower() in [...]]. *)
Definition is_affirmative (message : string) : bool :=
  in_list (str_lower (str_strip message)) affirmative_tokens.

(** The truth value of [current_lead_id]: an identifier that is neither
    [None] nor the empty string. *)
Definition truthy_id (i : option string) : option string :=
  match i with
  | Some EmptyString => None
  | _ => i
  end.

Definition need_fields (missing : list string) : string :=
  match missing with
  | [field] => "Just need your " ++ field ++ " to get started."
  | _ => "Just need your " ++ join ", " missing ++ " to get started."
  end.

Definition no_interest_reply (message : string) : M string :=
  tool <- _decide_tool message ;;
  if String.eqb tool "sql" then query message
  else
    rag_response <- pdf_qa_tool_answer message NO_INTEREST ;;
    if negb (str_in "Sorry, I can only answer questions" rag_response)
    then ret rag_response
    else
      a <- get ;;
      llm_invoke_content (fallback_prompt (conversation_history a) message).

Definition interest_detected_reply (message : string) : M string :=
  missing <- lead_tool_get_missing_fields ;;
  if is_contact_info message then
    match missing with
    | [] => ret "Thanks!"
    | _ => ret (need_fields missing)
    end
  else
    r <- pdf_qa_tool_answer message INTEREST_DETECTED ;;
    match missing with
    | [] => ret r
    | _ => ret (r ++ nl ++ nl ++ "Could you share your " ++ join ", " missing ++ "?")
    end.

Definition collecting_info_reply (message : string) : M string :=
  missing <- lead_tool_get_missing_fields ;;
  if is_contact_info message then
    match missing with
    | [] => ret "Thanks!"
    | _ => ret (need_fields missing)
    end
  else
    r <- pdf_qa_tool_answer message COLLECTING_INFO ;;
    match missing with
    | [] => ret r
    | _ => ret (r ++ nl ++ nl ++ "Just need your " ++ join ", " missing ++ " to get started.")
    end.

Definition saved_reply : string :=
  "Great! I've saved your information." ++ nl
  ++ "Do you want to schedule a meeting with our team? (Yes/No)".

Definition save_trouble_reply : string :=
  "Sorry, I had trouble saving your information. Would you mind trying again?".

Definition info_complete_reply : M string :=
  lead_id <- lead_tool_create_lead ;;
  match truthy_id lead_id with
  | Some _ => ret saved_reply
  | None => ret save_trouble_reply
  end.

Definition set_state (st : LeadState) : M unit :=
  modify (fun a => with_lead_tool (with_state st (lead_tool a)) a).

Definition slots_reply (formatted : string) : string :=
  "Here are the available meeting slots for today:" ++ nl
  ++ formatted ++ nl ++ "Please pick one.".

Definition no_slots_reply : string :=
  "Sorry, I couldn’t fetch available meeting slots right now.".

Definition declined_reply : string :=
  "No problem! Let me know if you have any other questions.".

Definition awaiting_confirmation_reply (message : string) : M string :=
  if is_affirmative message then
    slots <- meeting_tool_get_slots ;;
    match slots with
    | _ :: _ =>
        formatted <- meeting_tool_format_slots slots ;;
        set_state WAITING_MEETING_SLOT_SELECTION ;;
        ret (slots_reply formatted)
    | [] =>
        set_state NO_INTEREST ;;
        ret no_slots_reply
    end
  else
    set_state NO_INTEREST ;;
    ret declined_reply.

Definition scheduled_reply (slot : string) : string :=
  "✅ Your meeting has been scheduled at " ++ slot
  ++ ". Our team will contact you soon!".

Definition not_scheduled_reply (slot : string) : string :=
  "❌ Something went wrong while scheduling your meeting at " ++ slot
  ++ ". Please try again.".

Definition invalid_time_reply (message : string) (slots : list string) : string :=
  "⚠️ '" ++ message ++ "' is not a valid time. Please choose from: "
  ++ join ", " slots.

Definition slot_selection_reply (message : string) : M string :=
  let slot := _normalize_time message in
  a <- get ;;
  match (if in_list slot (available_slots (meeting_tool a))
         then truthy_id (current_lead_id (lead_tool a)) else None) with
  | Some lead_id =>
      success <- meeting_tool_schedule lead_id slot ;;
      set_state NO_INTEREST ;;
      modify (fun a => with_meeting_tool (with_available_slots [] (meeting_tool a)) a) ;;
      modify (fun a => with_lead_tool (with_current_lead_id None (lead_tool a)) a) ;;
      ret (if success : bool then scheduled_reply slot else not_scheduled_reply slot)
  | None =>
      ret (invalid_time_reply message (available_slots (meeting_tool a)))
  end.

Definition history_append (turn : string) : M unit :=
  modify (fun a => with_history (conversation_history a ++ [turn])%list a).

Definition history_truncate : M unit :=
  modify (fun a => with_history (last_n 30 (conversation_history a)) a).

(** The answer of the branch for the state [update_state] left. *)
Definition reply_in (st : LeadState) (message : string) : M string :=
  match st with
  | NO_INTEREST => no_interest_reply message
  | INTEREST_DETECTED => interest_detected_reply message
  | COLLECTING_INFO => collecting_info_reply message
  | INFO_COMPLETE => info_complete_reply
  | AWAITING_MEETING_CONFIRMATION => awaiting_confirmation_reply message
  | WAITING_MEETING_SLOT_SELECTION => slot_selection_reply message
  end.

Definition process (message : string) : M Reply :=
  lead_tool_update_state message ;;
  history_append ("Human: " ++ message) ;;
  a <- get ;;
  let st := state (lead_tool a) in
  response <- reply_in st message ;;
  history_append ("Assistant: " ++ response) ;;
  history_truncate ;;
  a' <- get ;;
  ret {| response := response;
         lead_info := match partial_lead_info (lead_tool a') with
                      | [] => None
                      | info => Some info
                      end;
         lead_state := state (lead_tool a') |}.

End Controller.

(* ================================================================== *)
(** * Definitions of the specification's wording, and example data *)
(* ================================================================== *)

(** The padding the specification describes for one part of a time:
    a single digit gets a zero in front. *)
Definition pad_two (part : string) : string :=
  if str_len part =? 1 then "0" ++ part else part.

(** The characters the normalizer deletes. *)
Definition deleted_chars : list ascii := [dquote; "'"; " "; "."]%char.


(** A case-insensitive occurrence of [needle], given in lower case, in
    [hay]: some stretch of [hay] reads [needle] once its letters are
    lower-cased. *)
Definition occurs_ignoring_case (needle hay : string) : Prop :=
  exists before x after, hay = before ++ x ++ after /\ lower x = needle.

(** No character of the text is white space. *)
Fixpoint no_space (s : string) : bool :=
  match s with
  | EmptyString => true
  | String c s' => negb (isspace_char c) && no_space s'
  end.

(** ** Collaborators and sessions for the examples *)

(** The no-break space U+00A0, a white space beyond ASCII. *)
Definition no_break_space : string := utf8 [194; 160].

(** Collaborators with nothing behind them ([Env] is [unit]) and fixed
    answers: what lead creation returns, the slots on offer, whether
    scheduling succeeds, and how the language model and the agent
    executor end. *)
Definition scripted (lead_id : option string) (slots : list string)
    (scheduled : bool) (llm sql : outcome string) : Collaborators unit :=
  {| update_state := fun _ lt e => (Returns tt, lt, e);
     get_missing_fields := fun _ => ["phone"];
     create_lead := fun lt e => (Returns lead_id, lt, e);
     get_slots := fun _ e => (Returns slots, {| available_slots := slots |}, e);
     format_slots := join nl;
     schedule := fun _ _ mt e => (Returns scheduled, mt, e);
     answer := fun _ _ _ _ e => (Returns "Emaar builds homes in Dubai.", e);
     llm_invoke := fun _ e => (llm, e);
     fix_area := fun q => Returns q;
     agent_executor_invoke := fun _ e => (sql, e) |}.

(** The collaborators of an ordinary day. *)
Definition friendly : Collaborators unit :=
  scripted (Some "00Q5g00000ABCDE") ["09:00"; "10:00"] true
    (Returns "rag") (Returns "Three studios are available.").

(** The same with the language model out of reach. *)
Definition llm_down : Collaborators unit :=
  scripted (Some "00Q5g00000ABCDE") ["09:00"; "10:00"] true
    (Raises (Exception "Connection error.")) (Returns "Three studios are available.").

(** The same with a model that answers SQL and an agent executor that
    fails. *)
Definition sql_down : Collaborators unit :=
  scripted (Some "00Q5g00000ABCDE") ["09:00"; "10:00"] true
    (Returns " SQL ") (Raises (Exception "no such table: properties")).


(** The same with a calendar that cannot be reached when a meeting is
    to be scheduled. *)
Definition calendar_down : Collaborators unit :=
  {| update_state := fun _ lt e => (Returns tt, lt, e);
     get_missing_fields := fun _ => ["phone"];
     create_lead := fun lt e => (Returns (Some "00Q5g00000ABCDE"), lt, e);
     get_slots := fun _ e =>
       (Returns ["09:00"; "10:00"], {| available_slots := ["09:00"; "10:00"] |}, e);
     format_slots := join nl;
     schedule := fun _ _ mt e => (Raises (Exception "Calendar unavailable."), mt, e);
     answer := fun _ _ _ _ e => (Returns "Emaar builds homes in Dubai.", e);
     llm_invoke := fun _ e => (Returns "rag", e);
     fix_area := fun q => Returns q;
     agent_executor_invoke := fun _ e => (Returns "Three studios are available.", e) |}.

(** A session in a given state. *)
Definition session (st : LeadState) (lead_id : option string)
    (slots history : list string) : World unit :=
  {| agent := {| lead_tool := {| state := st;
                                 partial_lead_info := [("name", "John")];
                                 current_lead_id := lead_id |};
                 meeting_tool := {| available_slots := slots |};
                 conversation_history := history |};
     env := tt;
     calls := [] |}.

(** The affirmative tokens as the specification lists them. *)
Definition listed_affirmative_tokens : list string :=
  ["yes"; "yeah"; "y"; "sure"; "please"; "schedule";
   "schedul"; "scedul"; "shedule"; "sedul"].


(** No collaborator call raises, the agent executor of the SQL tool
    apart. *)
Record never_raises {Env : Type} (C : Collaborators Env) : Prop := {
  update_state_returns :
    forall message lt e, exists lt' e',
      update_state C message lt e = (Returns tt, lt', e');
  create_lead_returns :
    forall lt e, exists r lt' e', create_lead C lt e = (Returns r, lt', e');
  get_slots_returns :
    forall mt e, exists r mt' e', get_slots C mt e = (Returns r, mt', e');
  schedule_returns :
    forall lead_id slot mt e, exists r mt' e',
      schedule C lead_id slot mt e = (Returns r, mt', e');
  answer_returns :
    forall q h info st e, exists r e', answer C q h info st e = (Returns r, e');
  llm_invoke_returns :
    forall prompt e, exists r e', llm_invoke C prompt e = (Returns r, e');
  fix_area_returns :
    forall q, exists r, fix_area C q = Returns r
}.

(** The world after a sequence of [process] calls, one per message,
    whether a call returned or raised. *)
Fixpoint after_calls {Env : Type} (C : Collaborators Env)
    (messages : list string) (w : World Env) : World Env :=
  match messages with
  | [] => w
  | message :: rest => after_calls C rest (snd (process C message w))
  end.


(** The value a call returned, if it returned. *)
Definition returned {A : Type} (o : outcome A) : option A :=
  match o with
  | Returns a => Some a
  | Raises _ => None
  end.

(** The world in which the branches of [process] start: the lead tool
    as [update_state] left it, the human turn appended. *)
Definition entered {Env : Type} (message : string) (lt : LeadTool) (e : Env)
    (w : World Env) : World Env :=
  {| agent := with_history
                (conversation_history (agent w) ++ [("Human: " ++ message)%string])%list
                (with_lead_tool lt (agent w));
     env := e;
     calls := (calls w ++ [UpdateState message])%list |}.

(** The end of [process] once its branch has answered [r]. *)
Definition finished {Env : Type} (r : string) (w : World Env)
  : outcome Reply * World Env :=
  (Returns {| response := r;
              lead_info := match partial_lead_info (lead_tool (agent w)) with
                           | [] => None
                           | info => Some info
                           end;
              lead_state := state (lead_tool (agent w)) |},
   {| agent := with_history
                 (last_n 30 (conversation_history (agent w) ++ [("Assistant: " ++ r)%string])%list)
                 (agent w);
      env := env w;
      calls := calls w |}).

(** A computation that leaves the conversation history alone. *)
Definition keeps_history {Env A : Type} (m : M (Env := Env) A) : Prop :=
  forall w o w', m w = (o, w') ->
    conversation_history (agent w') = conversation_history (agent w).

(** A computation that returns from every world. *)
Definition always_returns {Env A : Type} (m : M (Env := Env) A) : Prop :=
  forall w, exists a w', m w = (Returns a, w').

(** Thirty turns of an earlier conversation. *)
Definition thirty_turns : list string := repeat "Human: hello" 30.

(** Every character of the text passes the test. *)
Fixpoint all_chars (test : ascii -> bool) (s : string) : bool :=
  match s with
  | EmptyString => true
  | String c s' => test c && all_chars test s'
  end.

(** The characters of the sets of [email_pattern]. *)
Definition email_set : list ascii := [backslash; "w"; backslash; "."; "-"]%char.

(** What the phone pattern matches as the source writes it: a
    backslash, the letter b, a backslash, ten or more letters d, a
    backslash and the letter b. *)
Definition phone_pattern_text (m : string) : Prop :=
  exists ds,
    m = String backslash (String "b" (String backslash
          (ds ++ String backslash (String "b" EmptyString))))
    /\ 10 <= String.length ds
    /\ all_chars (Ascii.eqb "d") ds = true.

(** What the email pattern matches as the source writes it: an at sign
    between two non-empty runs of characters among backslash, w, period
    and hyphen. *)
Definition email_pattern_text (m : string) : Prop :=
  exists u v,
    m = u ++ String "@" v
    /\ 1 <= String.length u /\ all_chars (fun c => Re.in_class c email_set) u = true
    /\ 1 <= String.length v /\ all_chars (fun c => Re.in_class c email_set) v = true.

(* ================================================================== *)
(** * Further definitions: the rest of the controller *)
(* ================================================================== *)

(** The phrase in which the document tool declines a question. *)
Definition out_of_domain (rag_response : string) : bool :=
  str_in "Sorry, I can only answer questions" rag_response.

(** The request for the missing fields that follows a document answer,
    as each of the two collecting states words it. *)
Definition fields_request (st : LeadState) (missing : list string) : string :=
  match missing with
  | [] => EmptyString
  | _ =>
      match st with
      | INTEREST_DETECTED =>
          nl ++ nl ++ "Could you share your " ++ join ", " missing ++ "?"
      | _ =>
          nl ++ nl ++ "Just need your " ++ join ", " missing ++ " to get started."
      end
  end.

(** The calls that reach the language model or the SQL agent. *)
Definition model_call (c : Call) : bool :=
  match c with
  | LlmInvoke _ | AgentExecutorInvoke _ => true
  | _ => false
  end.

(** The calls that go to the lead tool or to the meeting tool, the
    call of [update_state] apart. *)
Definition backend_call (c : Call) : bool :=
  match c with
  | GetMissingFields | CreateLead | GetSlots | FormatSlots _ | Schedule _ _ => true
  | _ => false
  end.

(** Collaborators whose document tool declines every question. *)
Definition declining_documents : Collaborators unit :=
  {| update_state := fun _ lt e => (Returns tt, lt, e);
     get_missing_fields := fun _ => ["phone"; "email"];
     create_lead := fun lt e => (Returns None, lt, e);
     get_slots := fun _ e => (Raises (Exception "Calendar unavailable."),
                              {| available_slots := [] |}, e);
     format_slots := join nl;
     schedule := fun _ _ mt e => (Raises (Exception "Calendar unavailable."), mt, e);
     answer := fun _ _ _ _ e =>
       (Returns "Sorry, I can only answer questions about Emaar.", e);
     llm_invoke := fun _ e => (Returns "Hello! Ask me about Emaar.", e);
     fix_area := fun q => Returns q;
     agent_executor_invoke := fun _ e => (Returns "Three studios are available.", e) |}.

(** Collaborators whose CRM returns an empty identifier. *)
Definition blank_id : Collaborators unit :=
  scripted (Some EmptyString) ["09:00"; "10:00"] true
    (Returns "rag") (Returns "Three studios are available.").

(** Collaborators whose model routes every question to the data base. *)
Definition data_route : Collaborators unit :=
  scripted None [] true (Returns "sql") (Returns "Three studios are available.").

(** A computation that leaves the lead tool and the meeting tool
    alone. *)
Definition keeps_tools {Env A : Type} (m : M (Env := Env) A) : Prop :=
  forall w o w', m w = (o, w') ->
    lead_tool (agent w') = lead_tool (agent w)
    /\ meeting_tool (agent w') = meeting_tool (agent w).

(* ================================================================== *)
(** * Further definitions: the time normalizer *)
(* ================================================================== *)

(** The canonical shape of a slot: two digits, a colon, two digits. *)
Definition canonical_time (s : string) : bool :=
  match s with
  | String a (String b (String ":" (String c (String d EmptyString)))) =>
      isdigit_char a && isdigit_char b && isdigit_char c && isdigit_char d
  | _ => false
  end.

(* ================================================================== *)
(** * Further definitions: the area fix of the SQL tool *)
(* ================================================================== *)

Module SQLAgentTool.

(** The set [A-Za-z ] of the pattern of [fix_area]. *)
Definition area_char (c : ascii) : bool :=
  isupper_char c || code_between 97 122 c || Ascii.eqb c " ".

(** The longest run of such characters at the start of a text: what the
    greedy group of the pattern takes. *)
Fixpoint area_run (s : string) : string :=
  match s with
  | String c s' => if area_char c then String c (area_run s') else EmptyString
  | EmptyString => EmptyString
  end.

(** A match of the pattern in ([A-Za-z ]+), letters in any case, at the
    start of an ASCII text: its group. *)
Definition match_area (s : string) : option string :=
  match s with
  | String i (String n (String blank rest)) =>
      if Ascii.eqb (lower_char i) "i" && Ascii.eqb (lower_char n) "n"
         && Ascii.eqb blank " "
      then match area_run rest with
           | EmptyString => None
           | g => Some g
           end
      else None
  | _ => None
  end.

(** [re.search(pattern, q, re.IGNORECASE)] for a question of ASCII
    text: the group of the leftmost match, if there is one. *)
Fixpoint search_area (q : string) : option string :=
  match match_area q with
  | Some g => Some g
  | None =>
      match q with
      | EmptyString => None
      | String _ q' => search_area q'
      end
  end.

(** [old] at the start of a text, letters in any case. *)
Fixpoint startswith_ci (old s : string) : bool :=
  match old with
  | EmptyString => true
  | String a old' =>
      match s with
      | String b s' =>
          Ascii.eqb (lower_char a) (lower_char b) && startswith_ci old' s'
      | EmptyString => false
      end
  end.

(** [re.sub(re.escape(old), repl, s, flags=re.IGNORECASE)] for ASCII
    texts [old] and [s], a non-empty [old] and a [repl] without
    backslash: from left to right,
    every occurrence of [old], letters in any case, gives way to [repl];
    [skip] counts the characters of an occurrence still to pass. *)
Fixpoint sub_ci (old repl : string) (skip : nat) (s : string) : string :=
  match s with
  | EmptyString => EmptyString
  | String c s' =>
      match skip with
      | S k => sub_ci old repl k s'
      | O =>
          if startswith_ci old s
          then repl ++ sub_ci old repl (String.length old - 1) s'
          else String c (sub_ci old repl 0 s')
      end
  end.

Section WithAreas.

(** [difflib.get_close_matches(word, possibilities, n=1, cutoff=0.6)],
    a function of the Python library that compares with floating-point
    ratios; it is taken as given. *)
Variable get_close_matches : string -> list string -> list string.

(** [self.areas], the area names read from the data base. *)
Variable areas : list string.

(** [SQLAgentTool.fuzzy_match] *)
Definition fuzzy_match (user_val : string) (choices : list string) : string :=
  match get_close_matches user_val choices with
  | m :: _ => m
  | [] => user_val
  end.

(** [SQLAgentTool.fix_area] for a question of ASCII text.  The
    canonical name is the replacement template of [re.sub]; a name with
    a backslash in it, which [re.sub] would read as an escape, is
    outside the model ([None]). *)
Definition fix_area (q : string) : option string :=
  match search_area q with
  | Some group =>
      let user_area := strip group in
      let canonical := fuzzy_match user_area areas in
      if str_in (chr backslash) canonical then None
      else Some (sub_ci group canonical 0 q)
  | None => Some q
  end.

End WithAreas.

End SQLAgentTool.

(** A stand-in for [get_close_matches] in the examples: it knows one
    misspelling. *)
Definition close_matches_example (word : string) (possibilities : list string)
  : list string :=
  if String.eqb word "Busines Bay" then ["Business Bay"] else [].

(* ================================================================== *)
(** * Further definitions: the keys of the data pipeline *)
(* ================================================================== *)

Module DataPipeline.

(** [s.replace(old, new)] for a non-empty [old]: from left to right,
    every occurrence of [old] gives way to [new]; [skip] counts the
    characters of an occurrence still to pass. *)
Fixpoint replace_from (old new : string) (skip : nat) (s : string) : string :=
  match s with
  | EmptyString => EmptyString
  | String c s' =>
      match skip with
      | S k => replace_from old new k s'
      | O =>
          if startswith old s
          then new ++ replace_from old new (String.length old - 1) s'
          else String c (replace_from old new 0 s')
      end
  end.

Definition replace (old new s : string) : string := replace_from old new 0 s.

(** The key of a column: [k.lower().replace('__c', '_c')], for the
    ASCII field names of the export. *)
Definition normalize_key (k : string) : string := replace "__c" "_c" (lower k).

Section Records.

(** The values of a JSON object. *)
Variable V : Type.

(** A Python dictionary with string keys: its items in insertion
    order, no key twice. *)
Definition record : Type := list (string * V).

(** [d[k] = v]: a key already there keeps its place and takes the new
    value, a new key goes to the end. *)
Fixpoint dict_set (k : string) (v : V) (d : record) : record :=
  match d with
  | [] => [(k, v)]
  | (k', v') :: d' =>
      if String.eqb k' k then (k, v) :: d' else (k', v') :: dict_set k v d'
  end.

(** [d.get(k)] *)
Fixpoint dict_get (k : string) (d : record) : option V :=
  match d with
  | [] => None
  | (k', v') :: d' => if String.eqb k' k then Some v' else dict_get k d'
  end.

(** The comprehension of [normalize_jsonl_to_df] for one line:
    [{k.lower().replace('__c', '_c'): v for k, v in obj.items()}]. *)
Definition normalize_record (obj : record) : record :=
  fold_left (fun norm item => dict_set (normalize_key (fst item)) (snd item) norm)
    obj [].

(** The comprehension continued from a dictionary built so far. *)
Definition normalize_onto (obj norm : record) : record :=
  fold_left (fun norm item => dict_set (normalize_key (fst item)) (snd item) norm)
    obj norm.

End Records.

Arguments dict_set {V} k v d.
Arguments dict_get {V} k d.
Arguments normalize_record {V} obj.
Arguments normalize_onto {V} obj norm.

End DataPipeline.

(* ================================================================== *)
(** * Further definitions: the form of the application *)
(* ================================================================== *)

Module App.

Definition empty_message_warning : string := "Please enter a message.".

(** One run of the chat form of [app.py]: whether the form was
    submitted and with which input, the agent and the chat history of
    the session.  It gives the warning shown, if any, and the agent and
    the chat history afterwards; an exception of [process] leaves the
    form before anything is appended. *)
Definition chat_form {Env : Type} (C : Collaborators Env)
    (submitted : bool) (user_input : string) (w : World Env)
    (chat_history : list (string * string))
  : outcome (option string) * World Env * list (string * string) :=
  if submitted && negb (String.eqb (str_strip user_input) EmptyString) then
    match process C user_input w with
    | (Returns result, w') =>
        (Returns None, w',
         (chat_history ++ [("You", user_input); ("Bot", response result)])%list)
    | (Raises x, w') => (Raises x, w', chat_history)
    end
  else if submitted then (Returns (Some empty_message_warning), w, chat_history)
  else (Returns None, w, chat_history).

End App.
(* ================================================================== *)
(** * Facts about the characters of a text *)
(* ================================================================== *)

Lemma append_empty (s1 s2 : string) :
  s1 ++ s2 = EmptyString -> s1 = EmptyString /\ s2 = EmptyString.
Proof. destruct s1; simpl; [auto | discriminate]. Qed.

Lemma append_cons (s1 s2 : string) (c : ascii) (s : string) :
  s1 ++ s2 = String c s ->
  (s1 = EmptyString /\ s2 = String c s)
  \/ exists s1', s1 = String c s1' /\ s = s1' ++ s2.
Proof.
  destruct s1 as [| d s1]; simpl; intro H; [now left |].
  injection H as -> <-. right. now exists s1.
Qed.

Lemma append_assoc (a b c : string) : (a ++ b) ++ c = a ++ b ++ c.
Proof. induction a as [| x a IH]; simpl; [reflexivity | now rewrite IH]. Qed.

Lemma append_empty_r (s : string) : s ++ EmptyString = s.
Proof. induction s as [| x s IH]; simpl; [reflexivity | now rewrite IH]. Qed.

Lemma list_ascii_of_string_app (a b : string) :
  list_ascii_of_string (a ++ b)
  = (list_ascii_of_string a ++ list_ascii_of_string b)%list.
Proof. induction a as [| x a IH]; simpl; [reflexivity | now rewrite IH]. Qed.

Lemma ascii_not_continuation (c : ascii) :
  is_ascii_char c = true -> continuation c = false.
Proof.
  unfold is_ascii_char, continuation, code_between. intro H.
  apply Nat.ltb_lt in H.
  destruct (Nat.leb_spec 128 (nat_of_ascii c)); [lia | reflexivity].
Qed.

Lemma code_points_ascii_head (c : ascii) (s : string) :
  is_ascii_char c = true -> code_points (String c s) = chr c :: code_points s.
Proof.
  intro H. cbn [code_points]. rewrite H. cbn [negb andb].
  destruct (code_points s); reflexivity.
Qed.

Lemma text_of_code_points (s : string) : text_of (code_points s) = s.
Proof.
  induction s as [| c s IH]; [reflexivity |].
  cbn [code_points]. destruct (code_points s) as [| p ps].
  - simpl in IH. subst s. reflexivity.
  - destruct (negb (is_ascii_char c) && starts_continued p);
      cbn [text_of] in *; simpl; now rewrite IH.
Qed.

Lemma code_points_nonempty (s p : string) :
  In p (code_points s) -> p <> EmptyString.
Proof.
  revert p. induction s as [| c s IH]; intros p; [intros [] |].
  cbn [code_points]. destruct (code_points s) as [| q qs].
  - intros [<- | []]. discriminate.
  - destruct (negb (is_ascii_char c) && starts_continued q).
    + intros [<- | H]; [discriminate | apply IH; now right].
    + intros [<- | H]; [discriminate | now apply IH].
Qed.

(** A byte below 128 is a character wherever it stands. *)
Lemma code_points_app_ascii (a b : string) (c : ascii) :
  is_ascii_char c = true ->
  code_points (a ++ String c b) = (code_points a ++ chr c :: code_points b)%list.
Proof.
  intro Hc. induction a as [| d a IH].
  - now apply code_points_ascii_head.
  - cbn [append code_points]. rewrite IH.
    destruct (code_points a) as [| p ps]; cbn [app].
    + cbn [starts_continued chr]. rewrite (ascii_not_continuation c Hc).
      now rewrite andb_false_r.
    + destruct (negb (is_ascii_char d) && starts_continued p); reflexivity.
Qed.

Lemma ascii_byte_is_point (c : ascii) (s : string) :
  is_ascii_char c = true -> In c (list_ascii_of_string s) ->
  In (chr c) (code_points s).
Proof.
  intros Hc Hin. apply in_split in Hin. destruct Hin as (l1 & l2 & Hs).
  assert (s = string_of_list_ascii l1 ++ String c (string_of_list_ascii l2)) as ->.
  { rewrite <- (string_of_list_ascii_of_string s), Hs.
    clear Hs. induction l1 as [| x l1 IH]; simpl; [reflexivity | now rewrite IH]. }
  rewrite (code_points_app_ascii _ _ c Hc). apply in_or_app. right. now left.
Qed.

Lemma code_points_is_ascii (s : string) :
  is_ascii s = true -> code_points s = map chr (list_ascii_of_string s).
Proof.
  induction s as [| c s IH]; [reflexivity |]. cbn [is_ascii]. intro H.
  apply andb_true_iff in H. destruct H as [Hc Hs].
  rewrite (code_points_ascii_head c s Hc), (IH Hs). reflexivity.
Qed.

Lemma is_ascii_app (a b : string) : is_ascii (a ++ b) = is_ascii a && is_ascii b.
Proof.
  induction a as [| c a IH]; simpl; [reflexivity |].
  now rewrite IH, andb_assoc.
Qed.

Lemma is_ascii_text_of (ps : list string) :
  is_ascii (text_of ps) = forallb is_ascii ps.
Proof.
  induction ps as [| p ps IH]; [reflexivity |].
  cbn [text_of forallb]. now rewrite is_ascii_app, IH.
Qed.

Lemma is_ascii_code_points (s : string) :
  is_ascii s = forallb is_ascii (code_points s).
Proof. now rewrite <- is_ascii_text_of, text_of_code_points. Qed.

(** ** The ASCII methods on ASCII text *)

Lemma str_len_ascii (s : string) : is_ascii s = true -> str_len s = String.length s.
Proof.
  intro H. unfold str_len. rewrite (code_points_is_ascii s H), length_map.
  clear H. induction s as [| c s IH]; simpl; [reflexivity | now rewrite IH].
Qed.

(** ** The data base on ASCII

    On ASCII the data base says what [PyStr] says: the digits are 0 to
    9, and [str.lower] changes the letters A to Z and nothing else. *)

Lemma isdigit_ascii (c : ascii) :
  is_ascii_char c = true -> isdigit_point (chr c) = isdigit_char c.
Proof.
  destruct c as [b0 b1 b2 b3 b4 b5 b6 b7].
  destruct b0, b1, b2, b3, b4, b5, b6, b7; intro H;
    first [ discriminate H | vm_compute; reflexivity ].
Qed.

Lemma lower_point_ascii (before after : list string) (c : ascii) :
  is_ascii_char c = true ->
  lower_point before after (chr c) = chr (lower_char c).
Proof.
  destruct c as [b0 b1 b2 b3 b4 b5 b6 b7].
  destruct b0, b1, b2, b3, b4, b5, b6, b7; intro H;
    first [ discriminate H | vm_compute; reflexivity ].
Qed.

Lemma lower_from_ascii (before : list string) (s : string) :
  is_ascii s = true ->
  text_of (lower_from before (map chr (list_ascii_of_string s))) = lower s.
Proof.
  revert before. induction s as [| c s IH]; intros before H; [reflexivity |].
  cbn [is_ascii] in H. apply andb_true_iff in H. destruct H as [Hc Hs].
  cbn [list_ascii_of_string map lower_from text_of lower].
  now rewrite (lower_point_ascii _ _ c Hc), (IH _ Hs).
Qed.

Lemma lower_ascii (s : string) : is_ascii s = true -> str_lower s = lower s.
Proof.
  intro H. unfold str_lower. rewrite (code_points_is_ascii s H).
  now apply lower_from_ascii.
Qed.

Lemma str_isdigit_ascii (s : string) :
  is_ascii s = true -> str_isdigit s = isdigit s.
Proof.
  intro H. unfold str_isdigit. rewrite (code_points_is_ascii s H).
  destruct s as [| c s]; [reflexivity |].
  cbn [list_ascii_of_string map isdigit].
  revert c H. induction s as [| d s IH]; intros c H; cbn [is_ascii] in H;
    apply andb_true_iff in H; destruct H as [Hc Hs].
  - cbn [list_ascii_of_string map forallb all_digits].
    now rewrite (isdigit_ascii c Hc).
  - specialize (IH d Hs). cbn [list_ascii_of_string map forallb all_digits] in *.
    now rewrite (isdigit_ascii c Hc), IH.
Qed.

(** A text of digits holds none of the bytes below 128 that is not a
    digit. *)
Lemma str_isdigit_bytes (s : string) (c : ascii) :
  str_isdigit s = true -> is_ascii_char c = true -> isdigit_char c = false ->
  ~ In c (list_ascii_of_string s).
Proof.
  intros Hd Hc Hn Hin. pose proof (ascii_byte_is_point c s Hc Hin) as Hp.
  unfold str_isdigit in Hd. destruct (code_points s) as [| p ps]; [destruct Hp |].
  rewrite forallb_forall in Hd. specialize (Hd _ Hp).
  rewrite (isdigit_ascii c Hc) in Hd. congruence.
Qed.

Lemma str_isdigit_nonempty (s : string) : str_isdigit s = true -> 1 <= str_len s.
Proof.
  unfold str_isdigit, str_len. destruct (code_points s); [discriminate | simpl; lia].
Qed.

(* ================================================================== *)
(** * Facts about the string methods *)
(* ================================================================== *)

Lemma isdigit_char_cases (c : ascii) :
  isdigit_char c = true ->
  In c ["0"; "1"; "2"; "3"; "4"; "5"; "6"; "7"; "8"; "9"]%char.
Proof.
  destruct c as [b0 b1 b2 b3 b4 b5 b6 b7].
  destruct b0, b1, b2, b3, b4, b5, b6, b7; intro H;
    first [ discriminate H | simpl; tauto ].
Qed.

Lemma digit_lower (c : ascii) : isdigit_char c = true -> lower_char c = c.
Proof.
  intro H. apply isdigit_char_cases in H. simpl in H.
  repeat (destruct H as [H | H]; [subst c; reflexivity |]). contradiction.
Qed.

Lemma digit_not_deleted (c : ascii) :
  isdigit_char c = true -> Re.in_class c (":" :: "+" :: "-" :: deleted_chars)%char = false.
Proof.
  intro H. apply isdigit_char_cases in H. simpl in H.
  repeat (destruct H as [H | H]; [subst c; reflexivity |]). contradiction.
Qed.

Lemma digit_is_ascii (c : ascii) : isdigit_char c = true -> is_ascii_char c = true.
Proof.
  intro H. apply isdigit_char_cases in H. simpl in H.
  repeat (destruct H as [H | H]; [subst c; reflexivity |]). contradiction.
Qed.

Lemma digit_not_space_point (c : ascii) :
  isdigit_char c = true -> isspace_point (chr c) = false.
Proof.
  intro H. apply isdigit_char_cases in H. simpl in H.
  repeat (destruct H as [H | H]; [subst c; reflexivity |]). contradiction.
Qed.

Lemma all_digits_is_ascii (s : string) : all_digits s = true -> is_ascii s = true.
Proof.
  induction s as [| c s IH]; simpl; [trivial |]. intro H.
  apply andb_true_iff in H. destruct H as [Hc Hs].
  now rewrite (digit_is_ascii c Hc), IH.
Qed.

Lemma remove_char_filter (c : ascii) (s : string) :
  list_ascii_of_string (remove_char c s)
  = filter (fun d => negb (Ascii.eqb d c)) (list_ascii_of_string s).
Proof.
  induction s as [| d s IH]; simpl; [reflexivity |].
  destruct (Ascii.eqb d c); simpl; [assumption | now rewrite IH].
Qed.

Lemma filter_filter {A : Type} (f g : A -> bool) (l : list A) :
  filter f (filter g l) = filter (fun x => g x && f x) l.
Proof.
  induction l as [| x l IH]; simpl; [reflexivity |].
  destruct (g x); simpl; [destruct (f x); now rewrite IH | assumption].
Qed.

Lemma time_token_filter (message : string) :
  list_ascii_of_string (time_token message)
  = filter (fun c => negb (Re.in_class c deleted_chars))
      (list_ascii_of_string (str_lower (str_strip message))).
Proof.
  unfold time_token. rewrite !remove_char_filter, !filter_filter.
  apply filter_ext. intro c. unfold Re.in_class, deleted_chars. simpl.
  destruct (Ascii.eqb c dquote), (Ascii.eqb c "'"), (Ascii.eqb c " "),
    (Ascii.eqb c "."); reflexivity.
Qed.

Lemma isdigit_all_digits (s : string) : isdigit s = true -> all_digits s = true.
Proof. destruct s; [discriminate | trivial]. Qed.

Lemma str_in_app_r (n a b : string) : str_in n b = true -> str_in n (a ++ b) = true.
Proof.
  induction a as [| c a IH]; simpl; [trivial |].
  intro H. rewrite (IH H). apply orb_true_r.
Qed.

Lemma split_free (sep : ascii) (h rest : string) :
  ~ In sep (list_ascii_of_string h) ->
  split sep (h ++ String sep rest) = h :: split sep rest.
Proof.
  induction h as [| c h IH]; cbn [append split list_ascii_of_string]; intro H.
  - now rewrite Ascii.eqb_refl.
  - destruct (Ascii.eqb_spec c sep) as [-> | Hne]; [exfalso; apply H; now left |].
    rewrite IH; [reflexivity |]. intro Hin. apply H. now right.
Qed.

Lemma split_no_sep (sep : ascii) (m : string) :
  ~ In sep (list_ascii_of_string m) -> split sep m = [m].
Proof.
  induction m as [| c m IH]; cbn [split list_ascii_of_string]; intro H;
    [reflexivity |].
  destruct (Ascii.eqb_spec c sep) as [-> | Hne]; [exfalso; apply H; now left |].
  rewrite IH; [reflexivity |]. intro Hin. apply H. now right.
Qed.

Lemma split_nonempty (sep : ascii) (s : string) : split sep s <> [].
Proof.
  destruct s as [| c s]; simpl; [discriminate |].
  destruct (Ascii.eqb c sep); [discriminate |].
  destruct (split sep s); discriminate.
Qed.

(** Joining the parts with the separator gives the string back. *)
Lemma join_split (sep : ascii) (s : string) : join (chr sep) (split sep s) = s.
Proof.
  unfold join. induction s as [| c s IH]; simpl; [reflexivity |].
  destruct (Ascii.eqb_spec c sep) as [-> | Hne].
  - pose proof (split_nonempty sep s) as Hn.
    destruct (split sep s) as [| p ps]; [contradiction |].
    simpl in *. now rewrite IH.
  - pose proof (split_nonempty sep s) as Hn.
    destruct (split sep s) as [| p ps]; [contradiction |].
    simpl in *. destruct ps; simpl in *; now rewrite <- IH.
Qed.

(* ================================================================== *)
(** * The time normalizer, case by case *)
(* ================================================================== *)

Lemma str_zfill_digits (part : string) :
  str_isdigit part = true -> str_zfill 2 part = pad_two part.
Proof.
  intro H. pose proof (str_isdigit_nonempty part H) as Hlen.
  assert (Hsign : forall c, In c ["+"; "-"]%char ->
                            ~ In c (list_ascii_of_string part)).
  { intros c Hc. apply (str_isdigit_bytes part c H);
      destruct Hc as [<- | [<- | []]]; reflexivity. }
  unfold str_zfill, pad_two. destruct part as [| c part].
  { unfold str_len in Hlen. simpl in Hlen. lia. }
  destruct (Ascii.eqb_spec c "+") as [-> | _].
  { exfalso. apply (Hsign "+"%char); simpl; auto. }
  destruct (Ascii.eqb_spec c "-") as [-> | _].
  { exfalso. apply (Hsign "-"%char); simpl; auto. }
  cbn [orb].
  destruct (str_len (String c part)) as [| [| n]]; [lia | reflexivity | reflexivity].
Qed.

Lemma normalize_short (message : string) :
  str_isdigit (time_token message) = true ->
  str_len (time_token message) <= 2 ->
  _normalize_time message = pad_two (time_token message) ++ ":00".
Proof.
  intros Hd Hl. unfold _normalize_time. cbv zeta. rewrite Hd.
  destruct (Nat.leb_spec (str_len (time_token message)) 2); [| lia].
  now rewrite (str_zfill_digits _ Hd).
Qed.

Lemma normalize_three (message a b c : string) :
  str_isdigit (time_token message) = true ->
  code_points (time_token message) = [a; b; c] ->
  _normalize_time message = "0" ++ a ++ ":" ++ b ++ c.
Proof.
  intros Hd Ht. unfold _normalize_time, str_len, str_take, str_drop. cbv zeta.
  rewrite Hd, Ht. cbn [List.length Nat.leb Nat.eqb firstn skipn text_of].
  now rewrite !append_empty_r.
Qed.

Lemma normalize_four (message a b c d : string) :
  str_isdigit (time_token message) = true ->
  code_points (time_token message) = [a; b; c; d] ->
  _normalize_time message = a ++ b ++ ":" ++ c ++ d.
Proof.
  intros Hd Ht. unfold _normalize_time, str_len, str_take, str_drop. cbv zeta.
  rewrite Hd, Ht. cbn [List.length Nat.leb Nat.eqb firstn skipn text_of].
  now rewrite !append_empty_r, !append_assoc.
Qed.

Lemma digits_hold_no_colon (s : string) :
  str_isdigit s = true -> ~ In ":"%char (list_ascii_of_string s).
Proof. intro H. now apply (str_isdigit_bytes s ":"%char H). Qed.

Lemma colon_is_no_digit (h m : string) : str_isdigit (h ++ ":" ++ m) = false.
Proof.
  destruct (str_isdigit (h ++ ":" ++ m)) eqn:E; [| reflexivity].
  exfalso. apply (digits_hold_no_colon _ E).
  rewrite list_ascii_of_string_app.
  apply in_or_app. right. now left.
Qed.

Lemma normalize_colon (message h m : string) :
  str_isdigit h = true -> str_isdigit m = true ->
  time_token message = h ++ ":" ++ m ->
  _normalize_time message = pad_two h ++ ":" ++ pad_two m.
Proof.
  intros Hh Hm Ht. unfold _normalize_time. cbv zeta. rewrite Ht.
  rewrite colon_is_no_digit.
  rewrite (str_in_app_r ":" h (":" ++ m) eq_refl).
  change (h ++ ":" ++ m) with (h ++ String ":" m).
  rewrite (split_free ":" h m (digits_hold_no_colon h Hh)).
  rewrite (split_no_sep ":" m (digits_hold_no_colon m Hm)).
  cbn [List.length Nat.eqb forallb nth andb]. rewrite Hh, Hm. cbn [andb].
  now rewrite (str_zfill_digits h Hh), (str_zfill_digits m Hm).
Qed.

Lemma normalize_other (message : string) :
  str_isdigit (time_token message) = false
  \/ 4 < str_len (time_token message) ->
  (forall h m, time_token message = h ++ ":" ++ m ->
               str_isdigit h = false \/ str_isdigit m = false) ->
  _normalize_time message = time_token message.
Proof.
  intros Hother Hparts. unfold _normalize_time. cbv zeta.
  set (t := time_token message) in *.
  destruct (str_isdigit t) eqn:Hd.
  - destruct Hother as [Hf | Hlen]; [discriminate Hf |].
    destruct (Nat.leb_spec (str_len t) 2); [lia |].
    destruct (Nat.eqb_spec (str_len t) 3); [lia |].
    destruct (Nat.eqb_spec (str_len t) 4); [lia | reflexivity].
  - destruct (str_in ":" t); [| reflexivity].
    destruct (split ":" t) as [| h [| m [| x parts]]] eqn:Hs; try reflexivity.
    destruct (forallb (str_isdigit) [h; m]) eqn:Hall;
      [| now rewrite andb_false_r].
    exfalso. simpl in Hall. rewrite andb_true_r in Hall.
    apply andb_true_iff in Hall. destruct Hall as [Hh Hm].
    pose proof (join_split ":" t) as Hj. rewrite Hs in Hj. simpl in Hj.
    destruct (Hparts h m (eq_sym Hj)); congruence.
Qed.

(** The token of an ASCII message that has no white space at its ends. *)
Lemma time_token_plain (s : string) :
  is_ascii s = true -> str_strip s = s ->
  time_token s
  = remove_char "." (remove_char " " (remove_char "'" (remove_char dquote (lower s)))).
Proof.
  intros Ha Hs. unfold time_token. now rewrite Hs, (lower_ascii s Ha).
Qed.

Lemma canonical_token (a b c d : ascii) :
  isdigit_char a = true -> isdigit_char b = true ->
  isdigit_char c = true -> isdigit_char d = true ->
  time_token (String a (String b (String ":" (String c (String d EmptyString)))))
  = String a (String b (String ":" (String c (String d EmptyString)))).
Proof.
  intros Ha Hb Hc Hd.
  assert (Hs : forall x, isdigit_char x = true ->
             lower_char x = x
             /\ Ascii.eqb x dquote = false /\ Ascii.eqb x "'" = false
             /\ Ascii.eqb x " " = false /\ Ascii.eqb x "." = false).
  { intros x Hx. pose proof (digit_not_deleted x Hx) as Hn. simpl in Hn.
    repeat (apply orb_false_iff in Hn; destruct Hn as [? Hn]).
    auto 10 using digit_lower. }
  destruct (Hs a Ha) as (Ha2 & Ha3 & Ha4 & Ha5 & Ha6).
  destruct (Hs b Hb) as (Hb2 & Hb3 & Hb4 & Hb5 & Hb6).
  destruct (Hs c Hc) as (Hc2 & Hc3 & Hc4 & Hc5 & Hc6).
  destruct (Hs d Hd) as (Hd2 & Hd3 & Hd4 & Hd5 & Hd6).
  rewrite time_token_plain.
  - cbn [lower]. rewrite Ha2, Hb2, Hc2, Hd2.
    change (lower_char ":") with ":"%char.
    cbn [remove_char]. rewrite Ha3, Hb3, Hc3, Hd3.
    change (Ascii.eqb ":" dquote) with false. cbv iota.
    cbn [remove_char]. rewrite Ha4, Hb4, Hc4, Hd4.
    change (Ascii.eqb ":" "'") with false. cbv iota.
    cbn [remove_char]. rewrite Ha5, Hb5, Hc5, Hd5.
    change (Ascii.eqb ":" " ") with false. cbv iota.
    cbn [remove_char]. rewrite Ha6, Hb6, Hc6, Hd6.
    change (Ascii.eqb ":" ".") with false. cbv iota.
    reflexivity.
  - cbn [is_ascii].
    now rewrite (digit_is_ascii a Ha), (digit_is_ascii b Hb),
      (digit_is_ascii c Hc), (digit_is_ascii d Hd).
  - unfold str_strip.
    rewrite (code_points_ascii_head a _ (digit_is_ascii a Ha)).
    rewrite (code_points_ascii_head b _ (digit_is_ascii b Hb)).
    rewrite (code_points_ascii_head ":" _ eq_refl).
    rewrite (code_points_ascii_head c _ (digit_is_ascii c Hc)).
    rewrite (code_points_ascii_head d _ (digit_is_ascii d Hd)).
    cbn [code_points lstrip_points]. rewrite (digit_not_space_point a Ha).
    unfold rstrip_points. cbn [rev app lstrip_points].
    rewrite (digit_not_space_point d Hd). reflexivity.
Qed.

Lemma two_digits (a b : ascii) :
  isdigit_char a = true -> isdigit_char b = true ->
  str_isdigit (String a (String b EmptyString)) = true
  /\ pad_two (String a (String b EmptyString)) = String a (String b EmptyString).
Proof.
  intros Ha Hb.
  assert (Hascii : is_ascii (String a (String b EmptyString)) = true).
  { cbn [is_ascii]. now rewrite (digit_is_ascii a Ha), (digit_is_ascii b Hb). }
  split.
  - rewrite (str_isdigit_ascii _ Hascii). simpl. now rewrite Ha, Hb.
  - unfold pad_two. now rewrite (str_len_ascii _ Hascii).
Qed.

Lemma canonical_fixed (a b c d : ascii) :
  isdigit_char a = true -> isdigit_char b = true ->
  isdigit_char c = true -> isdigit_char d = true ->
  _normalize_time (String a (String b (String ":" (String c (String d EmptyString)))))
  = String a (String b (String ":" (String c (String d EmptyString)))).
Proof.
  intros Ha Hb Hc Hd.
  destruct (two_digits a b Ha Hb) as [Hab Pab].
  destruct (two_digits c d Hc Hd) as [Hcd Pcd].
  rewrite (normalize_colon _ (String a (String b EmptyString))
             (String c (String d EmptyString)) Hab Hcd).
  - rewrite Pab, Pcd. reflexivity.
  - now apply canonical_token.
Qed.

(** C2.  The time normalizer.  The token is the message without the
    white space at its ends, lower-cased, and with every quote,
    apostrophe, space and period deleted.  An all-digit token of one or
    two digits is zero-padded and followed by :00; one of three digits
    a b c becomes 0a:bc; one of four digits a b c d becomes ab:cd; a
    token h:m with two numeric parts has each part zero-padded to two
    digits; every other token is returned as it is.  So 9 gives 09:00,
    930 gives 09:30, 14:5 gives 14:05, and a canonical HH:MM token is
    returned unchanged.  White space, digits and letters are those of
    Unicode, and a digit is one character, whatever its bytes. *)
Theorem normalize_time_cases (message : string) :
  let t := time_token message in
  list_ascii_of_string t
  = filter (fun c => negb (existsb (Ascii.eqb c) ["034"; "'"; " "; "."]%char))
      (list_ascii_of_string (str_lower (str_strip message)))
  /\ (str_isdigit t = true -> str_len t <= 2 ->
      _normalize_time message = pad_two t ++ ":00")
  /\ (forall a b c, str_isdigit t = true -> code_points t = [a; b; c] ->
      _normalize_time message = "0" ++ a ++ ":" ++ b ++ c)
  /\ (forall a b c d, str_isdigit t = true -> code_points t = [a; b; c; d] ->
      _normalize_time message = a ++ b ++ ":" ++ c ++ d)
  /\ (forall h m, str_isdigit h = true -> str_isdigit m = true ->
      t = h ++ ":" ++ m ->
      _normalize_time message = pad_two h ++ ":" ++ pad_two m)
  /\ (str_isdigit t = false \/ 4 < str_len t ->
      (forall h m, t = h ++ ":" ++ m ->
                   str_isdigit h = false \/ str_isdigit m = false) ->
      _normalize_time message = t)
  /\ _normalize_time "9" = "09:00"
  /\ _normalize_time "930" = "09:30"
  /\ _normalize_time "14:5" = "14:05"
  /\ (forall a b c d,
      isdigit_char a = true -> isdigit_char b = true ->
      isdigit_char c = true -> isdigit_char d = true ->
      _normalize_time (String a (String b (String ":" (String c (String d EmptyString)))))
      = String a (String b (String ":" (String c (String d EmptyString))))).
Proof.
  intro t.
  split; [apply time_token_filter |].
  split; [now apply normalize_short |].
  split; [intros a b c; now apply normalize_three |].
  split; [intros a b c d; now apply normalize_four |].
  split; [intros h m Hh Hm Ht; now apply normalize_colon |].
  split; [now apply normalize_other |].
  assert (Hnine : time_token "9" = "9")
    by (now rewrite (time_token_plain "9" eq_refl eq_refl)).
  assert (Hhalf : time_token "930" = "930")
    by (now rewrite (time_token_plain "930" eq_refl eq_refl)).
  assert (Hfive : time_token "14:5" = "14:5")
    by (now rewrite (time_token_plain "14:5" eq_refl eq_refl)).
  split.
  { rewrite (normalize_short "9"); rewrite Hnine;
      [reflexivity | now rewrite (str_isdigit_ascii "9" eq_refl) | auto]. }
  split.
  { rewrite (normalize_three "930" "9" "3" "0"); rewrite ?Hhalf;
      [reflexivity | now rewrite (str_isdigit_ascii "930" eq_refl)
      | reflexivity]. }
  split.
  { rewrite (normalize_colon "14:5" "14" "5"); rewrite ?Hfive;
      [reflexivity | now rewrite (str_isdigit_ascii "14" eq_refl)
      | now rewrite (str_isdigit_ascii "5" eq_refl) | reflexivity]. }
  now apply canonical_fixed.
Qed.

(** ** Occurrences *)

Lemma startswith_app (p rest : string) : startswith p (p ++ rest) = true.
Proof.
  induction p as [| c p IH]; simpl; [reflexivity |].
  now rewrite Ascii.eqb_refl, IH.
Qed.

Lemma startswith_split (p s : string) :
  startswith p s = true -> exists rest, s = p ++ rest.
Proof.
  revert s. induction p as [| c p IH]; intros s H; simpl in *.
  - now exists s.
  - destruct s as [| d s]; [discriminate |].
    apply andb_true_iff in H. destruct H as [Hc Hp].
    apply Ascii.eqb_eq in Hc. subst d.
    destruct (IH s Hp) as [rest ->]. now exists rest.
Qed.

(** [needle in hay] holds exactly when [hay] is some text, the needle,
    and some more text. *)
Lemma str_in_spec (needle hay : string) :
  str_in needle hay = true <-> exists a b, hay = a ++ needle ++ b.
Proof.
  split.
  - induction hay as [| c hay IH]; simpl; intro H.
    + rewrite orb_false_r in H. apply startswith_split in H.
      destruct H as [rest ->]. now exists EmptyString, rest.
    + apply orb_true_iff in H. destruct H as [H | H].
      * apply startswith_split in H. destruct H as [rest H].
        exists EmptyString, rest. exact H.
      * destruct (IH H) as (a & b & ->). now exists (String c a), b.
  - intros (a & b & ->). apply str_in_app_r.
    destruct (needle ++ b) eqn:E; simpl; rewrite <- E;
      now rewrite startswith_app.
Qed.

Lemma lower_app (a b : string) : lower (a ++ b) = lower a ++ lower b.
Proof. induction a as [| c a IH]; simpl; [reflexivity | now rewrite IH]. Qed.

Lemma lower_split (s u v : string) :
  lower s = u ++ v -> exists s1 s2, s = s1 ++ s2 /\ lower s1 = u /\ lower s2 = v.
Proof.
  revert s. induction u as [| c u IH]; intros s H; simpl in *.
  - now exists EmptyString, s.
  - destruct s as [| d s]; [discriminate |]. simpl in H.
    injection H as Hc Hs. destruct (IH s Hs) as (s1 & s2 & -> & H1 & H2).
    exists (String d s1), s2. simpl. now rewrite Hc, H1.
Qed.

(** An occurrence in the lower-cased text is an occurrence in the text
    itself, up to the case of its letters. *)
Lemma str_in_lower_spec (needle hay : string) :
  str_in needle (lower hay) = true <-> occurs_ignoring_case needle hay.
Proof.
  unfold occurs_ignoring_case. rewrite str_in_spec. split.
  - intros (a & b & H).
    apply lower_split in H. destruct H as (s1 & s2 & -> & _ & H2).
    apply lower_split in H2. destruct H2 as (x & s3 & -> & Hx & _).
    now exists s1, x, s3.
  - intros (a & x & b & -> & Hx).
    exists (lower a), (lower b). now rewrite !lower_app, Hx.
Qed.

Lemma space_lower (c : ascii) : isspace_char c = true -> lower_char c = c.
Proof.
  destruct c as [b0 b1 b2 b3 b4 b5 b6 b7].
  destruct b0, b1, b2, b3, b4, b5, b6, b7; intro H;
    first [ discriminate H | reflexivity ].
Qed.

(** Stripping does not change where a needle without white space
    occurs. *)
Lemma startswith_lower_rstrip (needle s : string) :
  no_space needle = true ->
  startswith needle (lower (rstrip s)) = startswith needle (lower s).
Proof.
  revert needle. induction s as [| c s IH]; intros needle Hn; [reflexivity |].
  destruct needle as [| x needle]; [reflexivity |].
  simpl in Hn. apply andb_true_iff in Hn. destruct Hn as [Hx Hn].
  specialize (IH needle Hn). simpl.
  destruct (rstrip s) as [| d r] eqn:Hr.
  - destruct (isspace_char c) eqn:Hc; simpl.
    + rewrite (space_lower c Hc).
      destruct (Ascii.eqb_spec x c) as [-> | _]; [| reflexivity].
      now rewrite Hc in Hx.
    + now rewrite <- IH.
  - simpl. now rewrite <- IH.
Qed.

Lemma str_in_lower_rstrip (needle s : string) :
  no_space needle = true ->
  str_in needle (lower (rstrip s)) = str_in needle (lower s).
Proof.
  intro Hn. induction s as [| c s IH]; [reflexivity |].
  pose proof (startswith_lower_rstrip needle (String c s) Hn) as Hq.
  change (str_in needle (lower (String c s)))
    with (startswith needle (lower (String c s)) || str_in needle (lower s)).
  rewrite <- Hq, <- IH. simpl.
  destruct (rstrip s) as [| d r]; [| reflexivity].
  destruct (isspace_char c); simpl.
  - now destruct (startswith needle EmptyString).
  - reflexivity.
Qed.

Lemma str_in_lower_lstrip (needle s : string) :
  no_space needle = true ->
  str_in needle (lower (lstrip s)) = str_in needle (lower s).
Proof.
  intro Hn. induction s as [| c s IH]; [reflexivity |]. simpl.
  destruct (isspace_char c) eqn:Hc; [| reflexivity].
  rewrite IH. destruct needle as [| x needle].
  - simpl. now destruct (lower s).
  - simpl in Hn. apply andb_true_iff in Hn. destruct Hn as [Hx _].
    simpl. rewrite (space_lower c Hc).
    destruct (Ascii.eqb_spec x c) as [-> | _]; [| reflexivity].
    now rewrite Hc in Hx.
Qed.

Lemma str_in_lower_strip (needle s : string) :
  no_space needle = true ->
  str_in needle (lower (strip s)) = str_in needle (lower s).
Proof.
  intro Hn. unfold strip.
  now rewrite str_in_lower_rstrip, str_in_lower_lstrip.
Qed.

(* ================================================================== *)
(** * The matcher finds the matches *)
(* ================================================================== *)

Lemma matches_repeat_nullable (n : nat) (r : Re.regex) :
  Re.matches r EmptyString -> Re.matches (Re.Repeat n r) EmptyString.
Proof.
  intro H. induction n as [| n IH]; [constructor |].
  change EmptyString with (EmptyString ++ EmptyString).
  now apply Re.matches_repeat_more.
Qed.

Lemma nullable_matches (r : Re.regex) :
  Re.nullable r = true -> Re.matches r EmptyString.
Proof.
  induction r as [| | c | cs | r1 IH1 r2 IH2 | r1 IH1 r2 IH2 | n r IH];
    simpl; intro H; try discriminate.
  - constructor.
  - apply andb_true_iff in H. destruct H as [H1 H2].
    change EmptyString with (EmptyString ++ EmptyString).
    constructor; auto.
  - apply orb_true_iff in H. destruct H as [H | H];
      [apply Re.matches_alt_l | apply Re.matches_alt_r]; auto.
  - apply orb_true_iff in H. destruct H as [H | H].
    + apply Nat.eqb_eq in H. subst n. constructor.
    + apply matches_repeat_nullable. auto.
Qed.

Lemma matches_nullable (r : Re.regex) (s : string) :
  Re.matches r s -> s = EmptyString -> Re.nullable r = true.
Proof.
  induction 1 as [| c | c cs Hc | r1 r2 s1 s2 H1 IH1 H2 IH2
                  | r1 r2 s H IH | r1 r2 s H IH | r
                  | n r s1 s2 H1 IH1 H2 IH2];
    intro E; simpl; try discriminate; try reflexivity.
  - apply append_empty in E. destruct E as [E1 E2].
    now rewrite (IH1 E1), (IH2 E2).
  - now rewrite (IH E).
  - rewrite (IH E). apply orb_true_r.
  - apply append_empty in E. destruct E as [E1 _].
    rewrite (IH1 E1). apply orb_true_r.
Qed.

Lemma nullable_spec (r : Re.regex) :
  Re.nullable r = true <-> Re.matches r EmptyString.
Proof.
  split; [apply nullable_matches |].
  intro H. now apply (matches_nullable r EmptyString).
Qed.

Lemma deriv_sound (c : ascii) (r : Re.regex) (s : string) :
  Re.matches (Re.deriv c r) s -> Re.matches r (String c s).
Proof.
  revert s.
  induction r as [| | d | cs | r1 IH1 r2 IH2 | r1 IH1 r2 IH2 | n r IH];
    simpl; intros s H.
  - inversion H.
  - inversion H.
  - destruct (Ascii.eqb_spec c d) as [-> | _]; inversion H; subst.
    apply Re.matches_lit.
  - destruct (Re.in_class c cs) eqn:E; inversion H; subst.
    now apply Re.matches_class.
  - assert (Hcat : forall t, Re.matches (Re.Cat (Re.deriv c r1) r2) t ->
                     Re.matches (Re.Cat r1 r2) (String c t)).
    { intros t Ht. inversion Ht; subst.
      change (String c (s1 ++ s2)) with (String c s1 ++ s2).
      constructor; auto. }
    destruct (Re.nullable r1) eqn:E; [| now apply Hcat].
    inversion H; subst; [now apply Hcat |].
    change (String c s) with (EmptyString ++ String c s).
    constructor; [now apply nullable_matches | auto].
  - inversion H; subst;
      [apply Re.matches_alt_l | apply Re.matches_alt_r]; auto.
  - inversion H; subst.
    change (String c (s1 ++ s2)) with (String c s1 ++ s2).
    apply Re.matches_repeat_more; auto.
Qed.

Lemma deriv_complete (r : Re.regex) (t : string) :
  Re.matches r t ->
  forall c s, t = String c s -> Re.matches (Re.deriv c r) s.
Proof.
  induction 1 as [| d | d cs Hd | r1 r2 s1 s2 H1 IH1 H2 IH2
                  | r1 r2 t H IH | r1 r2 t H IH | r
                  | n r s1 s2 H1 IH1 H2 IH2];
    intros c s E; simpl; try discriminate.
  - injection E as -> <-. rewrite Ascii.eqb_refl. constructor.
  - injection E as -> <-. rewrite Hd. constructor.
  - apply append_cons in E. destruct E as [[-> ->] | (s1' & -> & ->)].
    + rewrite (matches_nullable r1 EmptyString H1 eq_refl).
      apply Re.matches_alt_r. now apply IH2.
    + assert (Hc : Re.matches (Re.Cat (Re.deriv c r1) r2) (s1' ++ s2))
        by (constructor; auto).
      destruct (Re.nullable r1); [now apply Re.matches_alt_l | assumption].
  - apply Re.matches_alt_l. now apply IH.
  - apply Re.matches_alt_r. now apply IH.
  - apply append_cons in E. destruct E as [[-> ->] | (s1' & -> & ->)].
    + specialize (IH2 c s eq_refl). simpl in IH2.
      inversion IH2 as [| | | q1 q2 t1 t2 Ht1 Ht2 | | | |]; subst.
      constructor; [assumption |].
      change t2 with (EmptyString ++ t2).
      now apply Re.matches_repeat_more.
    + constructor; auto.
Qed.

Lemma deriv_spec (c : ascii) (r : Re.regex) (s : string) :
  Re.matches (Re.deriv c r) s <-> Re.matches r (String c s).
Proof.
  split; [apply deriv_sound |].
  intro H. now apply (deriv_complete r (String c s)).
Qed.

(** [match_prefix] answers true exactly when a prefix of the text
    matches. *)
Lemma match_prefix_spec (r : Re.regex) (s : string) :
  Re.match_prefix r s = true
  <-> exists m rest, s = m ++ rest /\ Re.matches r m.
Proof.
  revert r. induction s as [| c s IH]; intro r; simpl.
  - rewrite orb_false_r, nullable_spec. split.
    + intro H. now exists EmptyString, EmptyString.
    + intros (m & rest & E & H). symmetry in E.
      apply append_empty in E. destruct E as [-> _]. exact H.
  - rewrite orb_true_iff, nullable_spec, IH. split.
    + intros [H | (m & rest & -> & H)].
      * now exists EmptyString, (String c s).
      * exists (String c m), rest. split; [reflexivity |].
        now apply deriv_spec.
    + intros (m & rest & E & H). symmetry in E.
      apply append_cons in E. destruct E as [[-> _] | (m' & -> & ->)].
      * now left.
      * right. exists m', rest. split; [reflexivity |].
        now apply deriv_spec.
Qed.

(** [search] answers true exactly when some stretch of the text
    matches. *)
Lemma search_spec (r : Re.regex) (s : string) :
  Re.search r s = true
  <-> exists before m after, s = before ++ m ++ after /\ Re.matches r m.
Proof.
  induction s as [| c s IH]; cbn [Re.search].
  - rewrite orb_false_r, match_prefix_spec. split.
    + intros (m & rest & E & H). now exists EmptyString, m, rest.
    + intros (b & m & a & E & H). symmetry in E.
      apply append_empty in E. destruct E as [-> E].
      exists m, a. now split.
  - rewrite orb_true_iff, IH, match_prefix_spec. split.
    + intros [(m & rest & E & H) | (b & m & a & -> & H)].
      * now exists EmptyString, m, rest.
      * now exists (String c b), m, a.
    + intros (b & m & a & E & H). destruct b as [| d b]; simpl in E.
      * left. now exists m, a.
      * injection E as -> ->. right. now exists b, m, a.
Qed.

(** ** What the two patterns match *)

Lemma matches_eps_inv (m : string) : Re.matches Re.Eps m <-> m = EmptyString.
Proof. split; [now inversion 1 | intros ->; constructor]. Qed.

Lemma matches_lit_cat (a : ascii) (r : Re.regex) (m : string) :
  Re.matches (Re.Cat (Re.Lit a) r) m
  <-> exists m', m = String a m' /\ Re.matches r m'.
Proof.
  split.
  - inversion 1 as [| | | r1 r2 s1 s2 H1 H2 | | | |]; subst.
    inversion H1; subst. now exists s2.
  - intros (m' & -> & H). change (String a m') with (chr a ++ m').
    constructor; [constructor | assumption].
Qed.

Lemma all_chars_app (test : ascii -> bool) (a b : string) :
  all_chars test (a ++ b) = all_chars test a && all_chars test b.
Proof.
  induction a as [| c a IH]; simpl; [reflexivity |].
  now rewrite IH, andb_assoc.
Qed.

Lemma length_append (a b : string) :
  String.length (a ++ b) = String.length a + String.length b.
Proof. induction a as [| c a IH]; simpl; [reflexivity | now rewrite IH]. Qed.

(** A repetition of a one-character pattern matches the runs of such
    characters that are long enough. *)
Section RepeatOne.

Variables (r : Re.regex) (test : ascii -> bool).

Hypothesis one :
  forall s, Re.matches r s <-> exists c, s = chr c /\ test c = true.

Lemma matches_repeat_one_inv (q : Re.regex) (m : string) :
  Re.matches q m ->
  forall k, q = Re.Repeat k r ->
  k <= String.length m /\ all_chars test m = true.
Proof.
  induction 1 as [| | | | | | r0 | n r0 s1 s2 H1 _ H2 IH2];
    intros k E; try discriminate.
  - injection E as <- _. simpl. auto.
  - injection E as -> ->.
    apply one in H1. destruct H1 as (c & -> & Hc).
    destruct (IH2 (pred k) eq_refl) as [Hlen Hall].
    simpl. rewrite Hc, Hall. split; [lia | reflexivity].
Qed.

Lemma matches_repeat_one_intro (m : string) :
  forall k, k <= String.length m -> all_chars test m = true ->
  Re.matches (Re.Repeat k r) m.
Proof.
  induction m as [| c m IH]; intros k Hlen Hall; simpl in *.
  - assert (k = 0) as -> by lia. constructor.
  - apply andb_true_iff in Hall. destruct Hall as [Hc Hall].
    change (String c m) with (chr c ++ m).
    apply Re.matches_repeat_more.
    + apply one. now exists c.
    + apply IH; [lia | assumption].
Qed.

Lemma matches_repeat_one (k : nat) (m : string) :
  Re.matches (Re.Repeat k r) m
  <-> k <= String.length m /\ all_chars test m = true.
Proof.
  split.
  - intro H. now apply (matches_repeat_one_inv _ m H).
  - intros [Hlen Hall]. now apply matches_repeat_one_intro.
Qed.

End RepeatOne.

Lemma matches_lit_one (d : ascii) (s : string) :
  Re.matches (Re.Lit d) s <-> exists c, s = chr c /\ Ascii.eqb d c = true.
Proof.
  split.
  - inversion 1; subst. exists d. now rewrite Ascii.eqb_refl.
  - intros (c & -> & E). apply Ascii.eqb_eq in E. subst. constructor.
Qed.

Lemma matches_class_one (cs : list ascii) (s : string) :
  Re.matches (Re.Class cs) s <-> exists c, s = chr c /\ Re.in_class c cs = true.
Proof.
  split.
  - inversion 1; subst. now exists c.
  - intros (c & -> & E). now constructor.
Qed.

Lemma matches_repeat_cat (k : nat) (r rest : Re.regex) (test : ascii -> bool)
    (m : string) :
  (forall s, Re.matches r s <-> exists c, s = chr c /\ test c = true) ->
  Re.matches (Re.Cat (Re.Repeat k r) rest) m
  <-> exists u m', m = u ++ m' /\ k <= String.length u
                   /\ all_chars test u = true /\ Re.matches rest m'.
Proof.
  intro one. split.
  - inversion 1 as [| | | r1 r2 s1 s2 H1 H2 | | | |]; subst.
    apply (matches_repeat_one r test one) in H1. destruct H1 as [Hlen Hall].
    now exists s1, s2.
  - intros (u & m' & -> & Hlen & Hall & H). constructor; [| assumption].
    now apply (matches_repeat_one r test one).
Qed.

Lemma compile_phone_pattern :
  Re.compile phone_pattern
  = Some (Re.Cat (Re.Lit backslash)
            (Re.Cat (Re.Lit "b")
               (Re.Cat (Re.Lit backslash)
                  (Re.Cat (Re.Repeat 10 (Re.Lit "d"))
                     (Re.Cat (Re.Lit backslash) (Re.Cat (Re.Lit "b") Re.Eps)))))).
Proof. reflexivity. Qed.

Lemma compile_email_pattern :
  Re.compile email_pattern
  = Some (Re.Cat (Re.Repeat 1 (Re.Class email_set))
            (Re.Cat (Re.Lit "@")
               (Re.Cat (Re.Repeat 1 (Re.Class email_set)) Re.Eps))).
Proof. reflexivity. Qed.

Lemma search_phone_pattern (msg : string) :
  Re.re_search phone_pattern msg = true
  <-> exists before m after, msg = before ++ m ++ after /\ phone_pattern_text m.
Proof.
  unfold Re.re_search. rewrite compile_phone_pattern, search_spec.
  assert (Hm : forall m,
             Re.matches
               (Re.Cat (Re.Lit backslash)
                  (Re.Cat (Re.Lit "b")
                     (Re.Cat (Re.Lit backslash)
                        (Re.Cat (Re.Repeat 10 (Re.Lit "d"))
                           (Re.Cat (Re.Lit backslash)
                              (Re.Cat (Re.Lit "b") Re.Eps)))))) m
             <-> phone_pattern_text m).
  { intro m. unfold phone_pattern_text.
    rewrite matches_lit_cat. split.
    - intros (m1 & -> & H). apply matches_lit_cat in H.
      destruct H as (m2 & -> & H). apply matches_lit_cat in H.
      destruct H as (m3 & -> & H).
      apply (matches_repeat_cat 10 _ _ _ _ (matches_lit_one "d")) in H.
      destruct H as (ds & m4 & -> & Hlen & Hall & H).
      apply matches_lit_cat in H. destruct H as (m5 & -> & H).
      apply matches_lit_cat in H. destruct H as (m6 & -> & H).
      apply matches_eps_inv in H. subst m6. now exists ds.
    - intros (ds & -> & Hlen & Hall).
      eexists. split; [reflexivity |].
      apply matches_lit_cat. eexists. split; [reflexivity |].
      apply matches_lit_cat. eexists. split; [reflexivity |].
      apply (matches_repeat_cat 10 _ _ _ _ (matches_lit_one "d")).
      exists ds, (String backslash (String "b" EmptyString)).
      repeat split; try assumption.
      apply matches_lit_cat. eexists. split; [reflexivity |].
      apply matches_lit_cat. eexists. split; [reflexivity |].
      now apply matches_eps_inv. }
  split; intros (b & m & a & E & H); exists b, m, a; (split; [assumption |]);
    now apply Hm.
Qed.

Lemma search_email_pattern (msg : string) :
  Re.re_search email_pattern msg = true
  <-> exists before m after, msg = before ++ m ++ after /\ email_pattern_text m.
Proof.
  unfold Re.re_search. rewrite compile_email_pattern, search_spec.
  assert (Hm : forall m,
             Re.matches
               (Re.Cat (Re.Repeat 1 (Re.Class email_set))
                  (Re.Cat (Re.Lit "@")
                     (Re.Cat (Re.Repeat 1 (Re.Class email_set)) Re.Eps))) m
             <-> email_pattern_text m).
  { intro m. unfold email_pattern_text.
    rewrite (matches_repeat_cat 1 _ _ _ _ (matches_class_one email_set)). split.
    - intros (u & m1 & -> & Hlen & Hall & H).
      apply matches_lit_cat in H. destruct H as (m2 & -> & H).
      apply (matches_repeat_cat 1 _ _ _ _ (matches_class_one email_set)) in H.
      destruct H as (v & m3 & -> & Hlen' & Hall' & H).
      apply matches_eps_inv in H. subst m3. rewrite append_empty_r.
      now exists u, v.
    - intros (u & v & -> & Hlen & Hall & Hlen' & Hall').
      exists u, (String "@" v). repeat split; try assumption.
      apply matches_lit_cat. exists v. split; [reflexivity |].
      apply (matches_repeat_cat 1 _ _ _ _ (matches_class_one email_set)).
      exists v, EmptyString. rewrite append_empty_r.
      repeat split; try assumption. constructor. }
  split; intros (b & m & a & E & H); exists b, m, a; (split; [assumption |]);
    now apply Hm.
Qed.

(** The detector, as the source writes it, answers true exactly on the
    messages that hold the literal text of the phone pattern, the
    literal text of the email pattern, or one of the four phrases in
    any case. *)
Lemma is_contact_info_spec (msg : string) :
  is_contact_info msg = true
  <-> (exists before m after, msg = before ++ m ++ after /\ phone_pattern_text m)
      \/ (exists before m after, msg = before ++ m ++ after /\ email_pattern_text m)
      \/ (exists kw, In kw name_keywords /\ occurs_ignoring_case kw msg).
Proof.
  rewrite <- search_phone_pattern, <- search_email_pattern.
  unfold is_contact_info.
  destruct (Re.re_search phone_pattern msg); [intuition |].
  destruct (Re.re_search email_pattern msg); [intuition |].
  cbn [orb].
  destruct (existsb (fun kw => str_in kw (lower msg)) name_keywords) eqn:E.
  - split; [| reflexivity]. intros _. right. right.
    apply existsb_exists in E. destruct E as (kw & Hin & Hkw).
    exists kw. split; [assumption |]. now apply str_in_lower_spec.
  - split; [discriminate |].
    intros [H | [H | (kw & Hin & Hkw)]]; try discriminate.
    apply str_in_lower_spec in Hkw.
    assert (existsb (fun kw => str_in kw (lower msg)) name_keywords = true)
      by (apply existsb_exists; now exists kw).
    congruence.
Qed.

(* ================================================================== *)
(** * Facts about the controller *)
(* ================================================================== *)

Section ControllerFacts.

Context {Env : Type} (C : Collaborators Env).

Lemma in_list_In (key : string) (tokens : list string) :
  in_list key tokens = true <-> In key tokens.
Proof.
  unfold in_list. rewrite existsb_exists. split.
  - intros (x & Hx & He). apply String.eqb_eq in He. now subst.
  - intro H. exists key. split; [assumption | apply String.eqb_refl].
Qed.

Lemma in_list_not_In (key : string) (tokens : list string) :
  in_list key tokens = false <-> ~ In key tokens.
Proof.
  rewrite <- in_list_In. destruct (in_list key tokens); split; congruence.
Qed.

(** [process] step by step, once [update_state] has returned. *)
Lemma process_steps (message : string) (w : World Env) (lt : LeadTool) (e : Env) :
  update_state C message (lead_tool (agent w)) (env w) = (Returns tt, lt, e) ->
  process C message w
  = match reply_in C (state lt) message (entered message lt e w) with
    | (Returns r, w') => finished r w'
    | (Raises x, w') => (Raises x, w')
    end.
Proof.
  intro H. unfold process, bind at 1, lead_tool_update_state. rewrite H.
  unfold bind at 1, history_append at 1, modify at 1.
  unfold bind at 1, get at 1. unfold bind at 1.
  unfold entered, called.
  cbn [agent env calls state lead_tool conversation_history meeting_tool
       with_history with_lead_tool].
  match goal with
  | |- context [reply_in C (state lt) message ?w1] =>
      destruct (reply_in C (state lt) message w1) as [[r | x] w']
  end; reflexivity.
Qed.

Lemma process_update_raises (message : string) (w : World Env) (lt : LeadTool)
    (e : Env) (x : exn) :
  update_state C message (lead_tool (agent w)) (env w) = (Raises x, lt, e) ->
  process C message w
  = (Raises x, {| agent := with_lead_tool lt (agent w); env := e;
                  calls := (calls w ++ [UpdateState message])%list |}).
Proof.
  intro H. unfold process, bind at 1, lead_tool_update_state. now rewrite H.
Qed.

(** Unfolds the branch that is running, down to the worlds. *)
Ltac run_branch :=
  unfold bind, ret, get, lift, modify, set_state, try_except, finished,
    entered, called, meeting_tool_get_slots, meeting_tool_format_slots,
    meeting_tool_schedule, lead_tool_create_lead, lead_tool_get_missing_fields,
    pdf_qa_tool_answer, llm_invoke_content, agent_executor_output;
  cbn [agent env calls state lead_tool conversation_history meeting_tool
       partial_lead_info current_lead_id available_slots
       with_history with_lead_tool with_meeting_tool with_state
       with_current_lead_id with_available_slots fst snd].

Ltac run_branch_in H :=
  unfold bind, ret, get, lift, modify, set_state, try_except, finished,
    entered, called, meeting_tool_get_slots, meeting_tool_format_slots,
    meeting_tool_schedule, lead_tool_create_lead, lead_tool_get_missing_fields,
    pdf_qa_tool_answer, llm_invoke_content, agent_executor_output in H;
  cbn [agent env calls state lead_tool conversation_history meeting_tool
       partial_lead_info current_lead_id available_slots
       with_history with_lead_tool with_meeting_tool with_state
       with_current_lead_id with_available_slots fst snd] in H.

Lemma decide_tool_runs (message raw : string) (w : World Env) (e : Env) :
  llm_invoke C (decide_prompt message) (env w) = (Returns raw, e) ->
  _decide_tool C message w
  = (Returns (if str_in "sql" (lower raw) then "sql" else "rag"),
     {| agent := agent w; env := e;
        calls := (calls w ++ [LlmInvoke (decide_prompt message)])%list |}).
Proof.
  intro H. unfold _decide_tool, bind, llm_invoke_content. rewrite H.
  rewrite (str_in_lower_strip "sql" raw eq_refl).
  now destruct (str_in "sql" (lower raw)).
Qed.

Lemma truthy_id_some (lead_id : string) :
  lead_id <> EmptyString -> truthy_id (Some lead_id) = Some lead_id.
Proof. destruct lead_id; [contradiction | reflexivity]. Qed.

(** C3 (as amended).  In the state AWAITING_MEETING_CONFIRMATION the
    stripped, lower-cased message is compared with eleven affirmative
    tokens: yes, yeah, y, sure, please, schedule, schedule meeting,
    schedul, scedul, shedule, sedul.  On one of them the slots are
    fetched from the meeting collaborator; a non-empty list is presented,
    formatted by the meeting collaborator between the announcement and
    the invitation to pick one, and the state becomes
    WAITING_MEETING_SLOT_SELECTION; an empty one is answered with the
    apology and the state becomes NO_INTEREST.  Every other message is
    acknowledged and the state becomes NO_INTEREST. *)
Theorem awaiting_confirmation_transitions
    (message : string) (w : World Env) (lt : LeadTool) (e : Env) :
  update_state C message (lead_tool (agent w)) (env w) = (Returns tt, lt, e) ->
  state lt = AWAITING_MEETING_CONFIRMATION ->
  let affirmative :=
    In (str_lower (str_strip message))
       ["yes"; "yeah"; "y"; "sure"; "please"; "schedule"; "schedule meeting";
        "schedul"; "scedul"; "shedule"; "sedul"] in
  (affirmative ->
   forall slots mt e',
     get_slots C (meeting_tool (agent w)) e = (Returns slots, mt, e') ->
     exists reply w',
       process C message w = (Returns reply, w')
       /\ (slots <> [] ->
           calls w'
           = (calls w ++ [UpdateState message; GetSlots; FormatSlots slots])%list
           /\ response reply
              = "Here are the available meeting slots for today:"
                ++ String "010" (format_slots C slots)
                ++ String "010" "Please pick one."
           /\ lead_state reply = WAITING_MEETING_SLOT_SELECTION
           /\ state (lead_tool (agent w')) = WAITING_MEETING_SLOT_SELECTION)
       /\ (slots = [] ->
           calls w' = (calls w ++ [UpdateState message; GetSlots])%list
           /\ response reply
              = "Sorry, I couldn’t fetch available meeting slots right now."
           /\ lead_state reply = NO_INTEREST
           /\ state (lead_tool (agent w')) = NO_INTEREST))
  /\ (~ affirmative ->
      exists reply w',
        process C message w = (Returns reply, w')
        /\ calls w' = (calls w ++ [UpdateState message])%list
        /\ response reply
           = "No problem! Let me know if you have any other questions."
        /\ lead_state reply = NO_INTEREST
        /\ state (lead_tool (agent w')) = NO_INTEREST).
Proof.
  intros Hupd Hst affirmative. subst affirmative.
  change (In (str_lower (str_strip message)) _)
    with (In (str_lower (str_strip message)) affirmative_tokens).
  rewrite (process_steps _ _ _ _ Hupd), Hst. cbn [reply_in].
  unfold awaiting_confirmation_reply, is_affirmative. split.
  - intros Hin slots mt e' Hslots.
    apply in_list_In in Hin. rewrite Hin.
    run_branch. rewrite Hslots.
    destruct slots as [| s slots]; run_branch.
    + eexists _, _. split; [reflexivity |]. cbn.
      rewrite <- app_assoc. repeat split; try reflexivity; congruence.
    + eexists _, _. split; [reflexivity |]. cbn.
      rewrite <- !app_assoc. repeat split; try reflexivity; congruence.
  - intro Hnot. apply in_list_not_In in Hnot. rewrite Hnot.
    run_branch. eexists _, _. split; [reflexivity |]. cbn. auto.
Qed.

(** C10.  In the state AWAITING_MEETING_CONFIRMATION a non-affirmative
    message (its stripped, lower-cased text is none of the eleven
    tokens) changes the lead state, to NO_INTEREST, and nothing else of
    the session: the current lead id, the partial lead info and the
    available slots are the ones [update_state] left, and no
    collaborator is called.  In particular declining the meeting does
    not clear the lead id. *)
Theorem declining_keeps_lead_and_slots
    (message : string) (w : World Env) (lt : LeadTool) (e : Env) :
  update_state C message (lead_tool (agent w)) (env w) = (Returns tt, lt, e) ->
  state lt = AWAITING_MEETING_CONFIRMATION ->
  ~ In (str_lower (str_strip message))
       ["yes"; "yeah"; "y"; "sure"; "please"; "schedule"; "schedule meeting";
        "schedul"; "scedul"; "shedule"; "sedul"] ->
  let w' := snd (process C message w) in
  state (lead_tool (agent w')) = NO_INTEREST
  /\ current_lead_id (lead_tool (agent w')) = current_lead_id lt
  /\ partial_lead_info (lead_tool (agent w')) = partial_lead_info lt
  /\ meeting_tool (agent w') = meeting_tool (agent w)
  /\ env w' = e
  /\ calls w' = (calls w ++ [UpdateState message])%list.
Proof.
  intros Hupd Hst Hnot.
  change (~ In (str_lower (str_strip message)) affirmative_tokens) in Hnot.
  apply in_list_not_In in Hnot.
  rewrite (process_steps _ _ _ _ Hupd), Hst. cbn [reply_in].
  unfold awaiting_confirmation_reply, is_affirmative. rewrite Hnot.
  run_branch. cbn. auto 10.
Qed.

(** C4 (as amended).  In the state WAITING_MEETING_SLOT_SELECTION, when
    the normalized message is one of the available slots and a current
    lead id exists, scheduling is attempted with that lead id and that
    slot.  When [schedule] returns, the answer reports the success or
    the failure, and either way the state becomes NO_INTEREST and the
    available slots and the current lead id are cleared.  When
    [schedule] raises, [process] raises the same exception and resets
    nothing: the lead tool, with its state and its lead id, is as
    [update_state] left it, and the meeting tool as [schedule] left it.
    When the normalized message is none of the offered slots, the answer
    asks again with the valid options and the state remains
    WAITING_MEETING_SLOT_SELECTION. *)
Theorem slot_selection_transitions
    (message : string) (w : World Env) (lt : LeadTool) (e : Env) :
  update_state C message (lead_tool (agent w)) (env w) = (Returns tt, lt, e) ->
  state lt = WAITING_MEETING_SLOT_SELECTION ->
  let slot := _normalize_time message in
  let offered := available_slots (meeting_tool (agent w)) in
  (In slot offered ->
   forall lead_id, current_lead_id lt = Some lead_id -> lead_id <> EmptyString ->
   (forall success mt e',
      schedule C lead_id slot (meeting_tool (agent w)) e = (Returns success, mt, e') ->
      exists reply w',
        process C message w = (Returns reply, w')
        /\ calls w' = (calls w ++ [UpdateState message; Schedule lead_id slot])%list
        /\ response reply
           = (if success
              then "✅ Your meeting has been scheduled at " ++ slot
                   ++ ". Our team will contact you soon!"
              else "❌ Something went wrong while scheduling your meeting at "
                   ++ slot ++ ". Please try again.")
        /\ lead_state reply = NO_INTEREST
        /\ state (lead_tool (agent w')) = NO_INTEREST
        /\ available_slots (meeting_tool (agent w')) = []
        /\ current_lead_id (lead_tool (agent w')) = None)
   /\ (forall x mt e',
         schedule C lead_id slot (meeting_tool (agent w)) e = (Raises x, mt, e') ->
         exists w',
           process C message w = (Raises x, w')
           /\ calls w' = (calls w ++ [UpdateState message; Schedule lead_id slot])%list
           /\ lead_tool (agent w') = lt
           /\ state (lead_tool (agent w')) = WAITING_MEETING_SLOT_SELECTION
           /\ current_lead_id (lead_tool (agent w')) = Some lead_id
           /\ meeting_tool (agent w') = mt))
  /\ (~ In slot offered ->
      exists reply w',
        process C message w = (Returns reply, w')
        /\ calls w' = (calls w ++ [UpdateState message])%list
        /\ response reply
           = "⚠️ '" ++ message ++ "' is not a valid time. Please choose from: "
             ++ String.concat ", " offered
        /\ lead_state reply = WAITING_MEETING_SLOT_SELECTION
        /\ state (lead_tool (agent w')) = WAITING_MEETING_SLOT_SELECTION
        /\ available_slots (meeting_tool (agent w')) = offered).
Proof.
  intros Hupd Hst slot offered.
  rewrite (process_steps _ _ _ _ Hupd), Hst. cbn [reply_in].
  unfold slot_selection_reply. fold slot. split.
  - intros Hin lead_id Hid Hne. apply in_list_In in Hin. split.
    + intros success mt e' Hsched.
      run_branch. fold offered. rewrite Hin, Hid, (truthy_id_some _ Hne).
      run_branch. rewrite Hsched.
      eexists _, _. split; [reflexivity |]. cbn.
      rewrite <- app_assoc. auto 10.
    + intros x mt e' Hsched.
      run_branch. fold offered. rewrite Hin, Hid, (truthy_id_some _ Hne).
      run_branch. rewrite Hsched.
      eexists. split; [reflexivity |]. cbn.
      rewrite <- app_assoc. destruct lt; cbn in *. subst. auto 10.
  - intro Hnot. apply in_list_not_In in Hnot.
    run_branch. fold offered. rewrite Hnot.
    eexists _, _. split; [reflexivity |]. cbn. auto 10.
Qed.

(** C9.  In the state WAITING_MEETING_SLOT_SELECTION, when the
    normalized message is one of the available slots but there is no
    current lead id, no scheduling call is made: the controller answers
    with the invalid-time prompt, the state remains
    WAITING_MEETING_SLOT_SELECTION and the available slots stay as they
    were. *)
Theorem slot_without_lead_reprompts
    (message : string) (w : World Env) (lt : LeadTool) (e : Env) :
  update_state C message (lead_tool (agent w)) (env w) = (Returns tt, lt, e) ->
  state lt = WAITING_MEETING_SLOT_SELECTION ->
  In (_normalize_time message) (available_slots (meeting_tool (agent w))) ->
  current_lead_id lt = None ->
  exists reply w' made,
    process C message w = (Returns reply, w')
    /\ calls w' = (calls w ++ made)%list
    /\ made = [UpdateState message]
    /\ (forall lead_id slot, ~ In (Schedule lead_id slot) made)
    /\ response reply
       = invalid_time_reply message (available_slots (meeting_tool (agent w)))
    /\ lead_state reply = WAITING_MEETING_SLOT_SELECTION
    /\ state (lead_tool (agent w')) = WAITING_MEETING_SLOT_SELECTION
    /\ available_slots (meeting_tool (agent w'))
       = available_slots (meeting_tool (agent w)).
Proof.
  intros Hupd Hst Hin Hid.
  rewrite (process_steps _ _ _ _ Hupd), Hst. cbn [reply_in].
  unfold slot_selection_reply. apply in_list_In in Hin.
  run_branch. rewrite Hin, Hid. cbn [truthy_id].
  eexists _, _, [UpdateState message]. split; [reflexivity |]. cbn.
  split; [reflexivity |]. split; [reflexivity |].
  split; [| auto].
  intros lead_id slot [H | []]. discriminate H.
Qed.


(** C8.  The intent classifier returns sql exactly when the raw answer
    of the reasoning capability contains sql as a substring, whatever
    the case of its letters, and rag otherwise. *)
Theorem decide_tool_sql_iff (message raw : string) (w : World Env) (e : Env) :
  llm_invoke C (decide_prompt message) (env w) = (Returns raw, e) ->
  exists tool w',
    _decide_tool C message w = (Returns tool, w')
    /\ (tool = "sql" \/ tool = "rag")
    /\ (tool = "sql" <-> occurs_ignoring_case "sql" raw).
Proof.
  intro H. unfold _decide_tool, bind, llm_invoke_content. rewrite H.
  rewrite (str_in_lower_strip "sql" raw eq_refl).
  destruct (str_in "sql" (lower raw)) eqn:E; unfold ret;
    eexists _, _; (split; [reflexivity |]).
  - split; [now left |]. split; [| reflexivity].
    intros _. now apply str_in_lower_spec.
  - split; [now right |]. split; [discriminate |].
    intro Hocc. apply str_in_lower_spec in Hocc. congruence.
Qed.

(** ** The conversation history *)

Lemma keeps_history_ret {A : Type} (a : A) : keeps_history (ret (Env := Env) a).
Proof. intros w o w' H. now inversion H. Qed.

Lemma keeps_history_bind {A B : Type} (m : M A) (k : A -> M B) :
  keeps_history m -> (forall a, keeps_history (k a)) ->
  keeps_history (bind (Env := Env) m k).
Proof.
  intros Hm Hk w o w' H. unfold bind in H.
  destruct (m w) as [[a | x] w1] eqn:E.
  - rewrite (Hk a _ _ _ H). exact (Hm _ _ _ E).
  - inversion H; subst. exact (Hm _ _ _ E).
Qed.

Lemma keeps_history_try {A : Type} (m : M A) (handler : exn -> M A) :
  keeps_history m -> (forall x, keeps_history (handler x)) ->
  keeps_history (try_except (Env := Env) m handler).
Proof.
  intros Hm Hh w o w' H. unfold try_except in H.
  destruct (m w) as [[a | x] w1] eqn:E.
  - inversion H; subst. exact (Hm _ _ _ E).
  - rewrite (Hh x _ _ _ H). exact (Hm _ _ _ E).
Qed.

Lemma keeps_history_modify (f : SalesRAGAgent -> SalesRAGAgent) :
  (forall a, conversation_history (f a) = conversation_history a) ->
  keeps_history (modify (Env := Env) f).
Proof. intros Hf w o w' H. inversion H; subst. apply Hf. Qed.

(** Unfolds a collaborator call and names its outcome. *)
Ltac call_outcome H :=
  unfold lead_tool_create_lead, lead_tool_get_missing_fields,
    meeting_tool_get_slots, meeting_tool_format_slots, meeting_tool_schedule,
    pdf_qa_tool_answer, llm_invoke_content, agent_executor_output, lift, get in H;
  repeat match type of H with
         | context [let '(_, _) := ?c in _] => destruct c
         end;
  inversion H; subst; reflexivity.

Lemma keeps_history_create_lead : keeps_history (lead_tool_create_lead C).
Proof. intros w o w' H. call_outcome H. Qed.

Lemma keeps_history_missing_fields : keeps_history (lead_tool_get_missing_fields C).
Proof. intros w o w' H. call_outcome H. Qed.

Lemma keeps_history_format_slots (slots : list string) :
  keeps_history (meeting_tool_format_slots C slots).
Proof. intros w o w' H. call_outcome H. Qed.

Lemma keeps_history_get_slots : keeps_history (meeting_tool_get_slots C).
Proof. intros w o w' H. call_outcome H. Qed.

Lemma keeps_history_schedule (lead_id slot : string) :
  keeps_history (meeting_tool_schedule C lead_id slot).
Proof. intros w o w' H. call_outcome H. Qed.

Lemma keeps_history_answer (message : string) (st : LeadState) :
  keeps_history (pdf_qa_tool_answer C message st).
Proof. intros w o w' H. call_outcome H. Qed.

Lemma keeps_history_llm (prompt : string) : keeps_history (llm_invoke_content C prompt).
Proof. intros w o w' H. call_outcome H. Qed.

Lemma keeps_history_executor (question : string) :
  keeps_history (agent_executor_output C question).
Proof. intros w o w' H. call_outcome H. Qed.

Lemma keeps_history_lift {A : Type} (o : outcome A) : keeps_history (lift (Env := Env) o).
Proof. intros w o' w' H. call_outcome H. Qed.

Lemma keeps_history_get : keeps_history (get (Env := Env)).
Proof. intros w o' w' H. call_outcome H. Qed.

Create HintDb history.

#[local] Hint Resolve keeps_history_ret keeps_history_create_lead
  keeps_history_missing_fields keeps_history_format_slots
  keeps_history_get_slots keeps_history_schedule keeps_history_answer
  keeps_history_llm keeps_history_executor keeps_history_lift
  keeps_history_get : history.

(** Splits a computation at its binds and branches. *)
Ltac history_steps :=
  repeat first
    [ apply keeps_history_bind; [| intro]
    | apply keeps_history_try; [| intro]
    | apply keeps_history_modify; intro; reflexivity
    | solve [auto with history]
    | match goal with
      | |- keeps_history (if ?b then _ else _) => destruct b
      | |- keeps_history (match ?x with _ => _ end) => destruct x
      end ].

Lemma keeps_history_reply_in (st : LeadState) (message : string) :
  keeps_history (reply_in C st message).
Proof.
  destruct st; cbn [reply_in];
    unfold no_interest_reply, interest_detected_reply, collecting_info_reply,
      info_complete_reply, awaiting_confirmation_reply, slot_selection_reply,
      _decide_tool, query, set_state;
    history_steps.
Qed.

Lemma last_n_length {A : Type} (n : nat) (l : list A) : List.length (last_n n l) <= n.
Proof. unfold last_n. rewrite length_skipn. lia. Qed.

Lemma last_n_suffix {A : Type} (n : nat) (l : list A) :
  exists dropped, l = (dropped ++ last_n n l)%list.
Proof.
  exists (firstn (List.length l - n) l). unfold last_n.
  now rewrite firstn_skipn.
Qed.

(** C6 (as amended).  Whatever calls came before, a [process] call
    that returns leaves as conversation history the last 30 entries of
    the history it found followed by the human turn and one assistant
    turn: at most 30 entries, the most recent turns in order.  A call
    that raises does not truncate.  When [update_state] raises, the call
    raises the same exception and leaves the history it found; when
    [update_state] had returned and the call raises, it leaves the
    history it found followed by the human turn. *)
Theorem history_after_call (messages : list string) (message : string)
    (w : World Env) :
  let w0 := after_calls C messages w in
  let before := conversation_history (agent w0) in
  let human := "Human: " ++ message in
  let result := process C message w0 in
  let after := conversation_history (agent (snd result)) in
  (forall reply,
     fst result = Returns reply ->
     let assistant := "Assistant: " ++ response reply in
     let turns := (before ++ [human; assistant])%list in
     after = last_n 30 turns
     /\ List.length after <= 30
     /\ exists dropped, turns = (dropped ++ after)%list)
  /\ (forall x lt e,
        update_state C message (lead_tool (agent w0)) (env w0) = (Raises x, lt, e) ->
        fst result = Raises x /\ after = before)
  /\ (forall lt e x,
        update_state C message (lead_tool (agent w0)) (env w0) = (Returns tt, lt, e) ->
        fst result = Raises x ->
        after = (before ++ [human])%list).
Proof.
  intros w0 before human result after. subst after result.
  split; [| split].
  - intros reply Hret.
    destruct (update_state C message (lead_tool (agent w0)) (env w0))
      as [[[[] | x] lt] e] eqn:Hupd.
    + rewrite (process_steps _ _ _ _ Hupd) in Hret |- *.
      destruct (reply_in C (state lt) message (entered message lt e w0))
        as [[r | x] w1] eqn:Hr; [| discriminate Hret].
      apply keeps_history_reply_in in Hr. cbn in Hr, Hret |- *.
      inversion Hret; subst reply. cbn [response].
      rewrite Hr. fold before human. rewrite <- app_assoc. cbn [app].
      split; [reflexivity |]. split; [apply last_n_length |].
      apply last_n_suffix.
    + rewrite (process_update_raises _ _ _ _ _ Hupd) in Hret. discriminate Hret.
  - intros x lt e Hupd. rewrite (process_update_raises _ _ _ _ _ Hupd).
    split; reflexivity.
  - intros lt e x Hupd Hraise.
    rewrite (process_steps _ _ _ _ Hupd) in Hraise |- *.
    destruct (reply_in C (state lt) message (entered message lt e w0))
      as [[r | y] w1] eqn:Hr; [discriminate Hraise |].
    apply keeps_history_reply_in in Hr. exact Hr.
Qed.

(** ** Returning *)

Lemma always_returns_ret {A : Type} (a : A) : always_returns (ret (Env := Env) a).
Proof. intro w. now exists a, w. Qed.

Lemma always_returns_bind {A B : Type} (m : M A) (k : A -> M B) :
  always_returns m -> (forall a, always_returns (k a)) ->
  always_returns (bind (Env := Env) m k).
Proof.
  intros Hm Hk w. destruct (Hm w) as (a & w1 & E).
  destruct (Hk a w1) as (b & w2 & E2).
  exists b, w2. unfold bind. now rewrite E.
Qed.

Lemma always_returns_modify (f : SalesRAGAgent -> SalesRAGAgent) :
  always_returns (modify (Env := Env) f).
Proof. intro w. eexists _, _. reflexivity. Qed.

Lemma always_returns_get : always_returns (get (Env := Env)).
Proof. intro w. eexists _, _. reflexivity. Qed.

(** Whatever the agent executor does, [query] returns once the area is
    fixed. *)
Lemma always_returns_query (question : string) :
  never_raises C -> always_returns (query C question).
Proof.
  intros HC w. unfold query, bind, lift.
  destruct (fix_area_returns C HC question) as (clean & ->).
  unfold try_except, agent_executor_output.
  destruct (agent_executor_invoke C clean (env w)) as [[r | x] e];
    eexists _, _; reflexivity.
Qed.

Section Returning.

Hypothesis HC : never_raises C.

Lemma always_returns_missing_fields :
  always_returns (lead_tool_get_missing_fields C).
Proof. intro w. eexists _, _. reflexivity. Qed.

Lemma always_returns_format_slots (slots : list string) :
  always_returns (meeting_tool_format_slots C slots).
Proof. intro w. eexists _, _. reflexivity. Qed.

Lemma always_returns_create_lead : always_returns (lead_tool_create_lead C).
Proof.
  intro w. unfold lead_tool_create_lead.
  destruct (create_lead_returns C HC (lead_tool (agent w)) (env w))
    as (r & lt & e & ->).
  eexists _, _. reflexivity.
Qed.

Lemma always_returns_get_slots : always_returns (meeting_tool_get_slots C).
Proof.
  intro w. unfold meeting_tool_get_slots.
  destruct (get_slots_returns C HC (meeting_tool (agent w)) (env w))
    as (r & mt & e & ->).
  eexists _, _. reflexivity.
Qed.

Lemma always_returns_schedule (lead_id slot : string) :
  always_returns (meeting_tool_schedule C lead_id slot).
Proof.
  intro w. unfold meeting_tool_schedule.
  destruct (schedule_returns C HC lead_id slot (meeting_tool (agent w)) (env w))
    as (r & mt & e & ->).
  eexists _, _. reflexivity.
Qed.

Lemma always_returns_answer (message : string) (st : LeadState) :
  always_returns (pdf_qa_tool_answer C message st).
Proof.
  intro w. unfold pdf_qa_tool_answer.
  destruct (answer_returns C HC message (conversation_history (agent w))
              (partial_lead_info (lead_tool (agent w))) st (env w))
    as (r & e & ->).
  eexists _, _. reflexivity.
Qed.

Lemma always_returns_llm (prompt : string) :
  always_returns (llm_invoke_content C prompt).
Proof.
  intro w. unfold llm_invoke_content.
  destruct (llm_invoke_returns C HC prompt (env w)) as (r & e & ->).
  eexists _, _. reflexivity.
Qed.

(** Splits a computation at its binds and branches. *)
Ltac returning_steps :=
  repeat first
    [ apply always_returns_query; exact HC
    | apply always_returns_bind; [| intro]
    | apply always_returns_ret
    | apply always_returns_modify
    | apply always_returns_get
    | apply always_returns_create_lead
    | apply always_returns_missing_fields
    | apply always_returns_format_slots
    | apply always_returns_get_slots
    | apply always_returns_schedule
    | apply always_returns_answer
    | apply always_returns_llm
    | match goal with
      | |- always_returns (if ?b then _ else _) => destruct b
      | |- always_returns (match ?x with _ => _ end) => destruct x
      end ].

Lemma always_returns_reply_in (st : LeadState) (message : string) :
  always_returns (reply_in C st message).
Proof.
  destruct st; cbn [reply_in];
    unfold no_interest_reply, interest_detected_reply, collecting_info_reply,
      info_complete_reply, awaiting_confirmation_reply, slot_selection_reply,
      _decide_tool, set_state;
    returning_steps.
Qed.

End Returning.

(** C7 (as amended).  [process] has no exception handler of its own.
    When no collaborator call raises, the agent executor of the SQL tool
    apart, every [process] call returns a response together with the
    label of the lead state the session is left in.  [query] turns an
    exception of the agent executor into the text SQL agent error
    followed by the text of the exception.  An exception raised by any
    other collaborator call reaches the caller of [process]: by
    [update_state]; without interest, by the reasoning capability asked
    for the route, by [fix_area] on the data route, by the document
    answer, and by the reasoning capability asked again after an
    out-of-domain answer; while collecting, by the document answer; by
    [create_lead]; by [get_slots]; by [schedule].  And [process] raises
    in no other case: an exception that leaves it was raised by one of
    these calls. *)
Theorem process_returns_when_collaborators_return :
  (never_raises C ->
   forall message w,
     exists reply w',
       process C message w = (Returns reply, w')
       /\ lead_state reply = state (lead_tool (agent w')))
  /\ (forall question clean x e w,
        fix_area C question = Returns clean ->
        agent_executor_invoke C clean (env w) = (Raises x, e) ->
        fst (query C question w) = Returns ("SQL agent error: " ++ str x))
  /\ (forall message w x lt e,
        update_state C message (lead_tool (agent w)) (env w) = (Raises x, lt, e) ->
        fst (process C message w) = Raises x)
  /\ (forall message w lt e,
        update_state C message (lead_tool (agent w)) (env w) = (Returns tt, lt, e) ->
        let history :=
          (conversation_history (agent w) ++ [("Human: " ++ message)%string])%list in
        let info := partial_lead_info lt in
        (state lt = NO_INTEREST ->
         (forall x e1,
            llm_invoke C (decide_prompt message) e = (Raises x, e1) ->
            fst (process C message w) = Raises x)
         /\ (forall raw e1 x,
               llm_invoke C (decide_prompt message) e = (Returns raw, e1) ->
               occurs_ignoring_case "sql" raw ->
               fix_area C message = Raises x ->
               fst (process C message w) = Raises x)
         /\ (forall raw e1 x e2,
               llm_invoke C (decide_prompt message) e = (Returns raw, e1) ->
               ~ occurs_ignoring_case "sql" raw ->
               answer C message history info NO_INTEREST e1 = (Raises x, e2) ->
               fst (process C message w) = Raises x)
         /\ (forall raw e1 rag_response e2 x e3,
               llm_invoke C (decide_prompt message) e = (Returns raw, e1) ->
               ~ occurs_ignoring_case "sql" raw ->
               answer C message history info NO_INTEREST e1
               = (Returns rag_response, e2) ->
               str_in "Sorry, I can only answer questions" rag_response = true ->
               llm_invoke C (fallback_prompt history message) e2 = (Raises x, e3) ->
               fst (process C message w) = Raises x))
        /\ (state lt = INTEREST_DETECTED \/ state lt = COLLECTING_INFO ->
            is_contact_info message = false ->
            forall x e1,
              answer C message history info (state lt) e = (Raises x, e1) ->
              fst (process C message w) = Raises x)
        /\ (state lt = INFO_COMPLETE ->
            forall x lt' e',
              create_lead C lt e = (Raises x, lt', e') ->
              fst (process C message w) = Raises x)
        /\ (state lt = AWAITING_MEETING_CONFIRMATION ->
            In (str_lower (str_strip message))
               ["yes"; "yeah"; "y"; "sure"; "please"; "schedule";
                "schedule meeting"; "schedul"; "scedul"; "shedule"; "sedul"] ->
            forall x mt e',
              get_slots C (meeting_tool (agent w)) e = (Raises x, mt, e') ->
              fst (process C message w) = Raises x)
        /\ (state lt = WAITING_MEETING_SLOT_SELECTION ->
            In (_normalize_time message) (available_slots (meeting_tool (agent w))) ->
            forall lead_id, current_lead_id lt = Some lead_id ->
            lead_id <> EmptyString ->
            forall x mt e',
              schedule C lead_id (_normalize_time message)
                (meeting_tool (agent w)) e = (Raises x, mt, e') ->
              fst (process C message w) = Raises x))
  /\ (forall message w x,
        fst (process C message w) = Raises x ->
        let history :=
          (conversation_history (agent w) ++ [("Human: " ++ message)%string])%list in
        exists o lt e,
          update_state C message (lead_tool (agent w)) (env w) = (o, lt, e)
          /\ (o = Raises x
              \/ (exists e1,
                    state lt = NO_INTEREST
                    /\ llm_invoke C (decide_prompt message) e = (Raises x, e1))
              \/ (exists raw e1,
                    state lt = NO_INTEREST
                    /\ llm_invoke C (decide_prompt message) e = (Returns raw, e1)
                    /\ occurs_ignoring_case "sql" raw
                    /\ fix_area C message = Raises x)
              \/ (exists raw e1 e2,
                    state lt = NO_INTEREST
                    /\ llm_invoke C (decide_prompt message) e = (Returns raw, e1)
                    /\ ~ occurs_ignoring_case "sql" raw
                    /\ answer C message history (partial_lead_info lt) NO_INTEREST e1
                       = (Raises x, e2))
              \/ (exists raw e1 rag_response e2 e3,
                    state lt = NO_INTEREST
                    /\ llm_invoke C (decide_prompt message) e = (Returns raw, e1)
                    /\ ~ occurs_ignoring_case "sql" raw
                    /\ answer C message history (partial_lead_info lt) NO_INTEREST e1
                       = (Returns rag_response, e2)
                    /\ str_in "Sorry, I can only answer questions" rag_response = true
                    /\ llm_invoke C (fallback_prompt history message) e2
                       = (Raises x, e3))
              \/ (exists e1,
                    (state lt = INTEREST_DETECTED \/ state lt = COLLECTING_INFO)
                    /\ is_contact_info message = false
                    /\ answer C message history (partial_lead_info lt) (state lt) e
                       = (Raises x, e1))
              \/ (exists lt' e',
                    state lt = INFO_COMPLETE
                    /\ create_lead C lt e = (Raises x, lt', e'))
              \/ (exists mt e',
                    state lt = AWAITING_MEETING_CONFIRMATION
                    /\ In (str_lower (str_strip message))
                         ["yes"; "yeah"; "y"; "sure"; "please"; "schedule";
                          "schedule meeting"; "schedul"; "scedul"; "shedule";
                          "sedul"]
                    /\ get_slots C (meeting_tool (agent w)) e = (Raises x, mt, e'))
              \/ (exists lead_id mt e',
                    state lt = WAITING_MEETING_SLOT_SELECTION
                    /\ In (_normalize_time message)
                         (available_slots (meeting_tool (agent w)))
                    /\ current_lead_id lt = Some lead_id
                    /\ lead_id <> EmptyString
                    /\ schedule C lead_id (_normalize_time message)
                         (meeting_tool (agent w)) e = (Raises x, mt, e')))).
Proof.
  split; [| split; [| split; [| split]]].
  - intros HC message w.
    destruct (update_state_returns C HC message (lead_tool (agent w)) (env w))
      as (lt & e & Hupd).
    rewrite (process_steps _ _ _ _ Hupd).
    destruct (always_returns_reply_in HC (state lt) message (entered message lt e w))
      as (r & w1 & ->).
    eexists _, _. split; reflexivity.
  - intros question clean x e w Hfix Hexec.
    unfold query, bind, lift. rewrite Hfix.
    unfold try_except, agent_executor_output. now rewrite Hexec.
  - intros message w x lt e Hupd.
    now rewrite (process_update_raises _ _ _ _ _ Hupd).
  - intros message w lt e Hupd history info.
    rewrite (process_steps _ _ _ _ Hupd).
    split; [| split; [| split; [| split]]].
    + intro Hst. rewrite Hst. cbn [reply_in]. unfold no_interest_reply.
      split; [| split; [| split]].
      * intros x e1 Hllm. unfold bind at 1, _decide_tool, bind at 1.
        run_branch. now rewrite Hllm.
      * intros raw e1 x Hllm Hsql Hfix. unfold bind at 1.
        rewrite (decide_tool_runs message raw (entered message lt e w) e1 Hllm).
        apply str_in_lower_spec in Hsql. rewrite Hsql.
        cbn [String.eqb Ascii.eqb Bool.eqb].
        unfold query. run_branch. now rewrite Hfix.
      * intros raw e1 x e2 Hllm Hsql Hans. unfold bind at 1.
        rewrite (decide_tool_runs message raw (entered message lt e w) e1 Hllm).
        assert (Hno : str_in "sql" (lower raw) = false).
        { destruct (str_in "sql" (lower raw)) eqn:E; [| reflexivity].
          exfalso. apply Hsql. now apply str_in_lower_spec. }
        rewrite Hno. cbn [String.eqb Ascii.eqb Bool.eqb].
        run_branch. fold history info. now rewrite Hans.
      * intros raw e1 rag_response e2 x e3 Hllm Hsql Hans Hout Hchat.
        unfold bind at 1.
        rewrite (decide_tool_runs message raw (entered message lt e w) e1 Hllm).
        assert (Hno : str_in "sql" (lower raw) = false).
        { destruct (str_in "sql" (lower raw)) eqn:E; [| reflexivity].
          exfalso. apply Hsql. now apply str_in_lower_spec. }
        rewrite Hno. cbn [String.eqb Ascii.eqb Bool.eqb].
        run_branch. fold history info. rewrite Hans, Hout. cbn [negb].
        run_branch. fold history. now rewrite Hchat.
    + intros Hst Hcontact x e1 Hans.
      destruct Hst as [Hst | Hst]; rewrite Hst in Hans |- *; cbn [reply_in];
        unfold interest_detected_reply, collecting_info_reply;
        run_branch; rewrite Hcontact; run_branch; fold history info;
        now rewrite Hans.
    + intros Hst x lt' e' Hcreate. rewrite Hst. cbn [reply_in].
      unfold info_complete_reply. run_branch. now rewrite Hcreate.
    + intros Hst Hin x mt e' Hslots. rewrite Hst. cbn [reply_in].
      change (In (str_lower (str_strip message)) affirmative_tokens) in Hin.
      apply in_list_In in Hin.
      unfold awaiting_confirmation_reply, is_affirmative. rewrite Hin.
      run_branch. now rewrite Hslots.
    + intros Hst Hin lead_id Hid Hne x mt e' Hsched. rewrite Hst. cbn [reply_in].
      apply in_list_In in Hin. unfold slot_selection_reply.
      run_branch. rewrite Hin, Hid, (truthy_id_some _ Hne).
      run_branch. now rewrite Hsched.
  - intros message w x Hraise history.
    destruct (update_state C message (lead_tool (agent w)) (env w))
      as [[[[] | y] lt] e] eqn:Hupd.
    2: { rewrite (process_update_raises _ _ _ _ _ Hupd) in Hraise.
         injection Hraise as ->. exists (Raises x), lt, e. auto. }
    exists (Returns tt), lt, e. split; [reflexivity |]. right.
    rewrite (process_steps _ _ _ _ Hupd) in Hraise.
    destruct (state lt) eqn:Hst; cbn [reply_in] in Hraise.
    + unfold no_interest_reply in Hraise. unfold bind at 1 in Hraise.
      destruct (llm_invoke C (decide_prompt message) e) as [[raw | y] e1] eqn:Hllm.
      * rewrite (decide_tool_runs message raw (entered message lt e w) e1 Hllm)
          in Hraise.
        destruct (str_in "sql" (lower raw)) eqn:Hsql;
          cbn [String.eqb Ascii.eqb Bool.eqb] in Hraise.
        -- unfold query in Hraise. run_branch_in Hraise.
           destruct (fix_area C message) as [clean | y] eqn:Hfix.
           ++ destruct (agent_executor_invoke C clean e1) as [[out | y] e2];
                discriminate Hraise.
           ++ injection Hraise as ->. right. left. exists raw, e1.
              repeat split; try reflexivity. now apply str_in_lower_spec.
        -- assert (Hno : ~ occurs_ignoring_case "sql" raw).
           { intro Hocc. apply str_in_lower_spec in Hocc. congruence. }
           run_branch_in Hraise. fold history in Hraise.
           destruct (answer C message history (partial_lead_info lt) NO_INTEREST e1)
             as [[rag_response | y] e2] eqn:Hans.
           ++ destruct (str_in "Sorry, I can only answer questions" rag_response)
                eqn:Hout; cbn [negb] in Hraise; [| discriminate Hraise].
              run_branch_in Hraise. fold history in Hraise.
              destruct (llm_invoke C (fallback_prompt history message) e2)
                as [[chat | y] e3] eqn:Hchat; [discriminate Hraise |].
              injection Hraise as ->. do 3 right. left.
              exists raw, e1, rag_response, e2, e3. auto 10.
           ++ injection Hraise as ->. do 2 right. left.
              exists raw, e1, e2. auto.
      * unfold _decide_tool, bind at 1 in Hraise. run_branch_in Hraise.
        rewrite Hllm in Hraise. injection Hraise as ->. left. now exists e1.
    + unfold interest_detected_reply in Hraise. run_branch_in Hraise.
      destruct (is_contact_info message) eqn:Hcontact.
      * destruct (get_missing_fields C lt); discriminate Hraise.
      * run_branch_in Hraise. fold history in Hraise.
        destruct (answer C message history (partial_lead_info lt) INTEREST_DETECTED e)
          as [[r | y] e1] eqn:Hans.
        -- destruct (get_missing_fields C lt); discriminate Hraise.
        -- injection Hraise as ->. do 4 right. left. exists e1. auto.
    + unfold collecting_info_reply in Hraise. run_branch_in Hraise.
      destruct (is_contact_info message) eqn:Hcontact.
      * destruct (get_missing_fields C lt); discriminate Hraise.
      * run_branch_in Hraise. fold history in Hraise.
        destruct (answer C message history (partial_lead_info lt) COLLECTING_INFO e)
          as [[r | y] e1] eqn:Hans.
        -- destruct (get_missing_fields C lt); discriminate Hraise.
        -- injection Hraise as ->. do 4 right. left. exists e1. auto.
    + unfold info_complete_reply in Hraise. run_branch_in Hraise.
      destruct (create_lead C lt e) as [[[r | y] lt'] e'] eqn:Hcreate.
      * destruct (truthy_id r); discriminate Hraise.
      * injection Hraise as ->. do 5 right. left. exists lt', e'. auto.
    + unfold awaiting_confirmation_reply in Hraise.
      destruct (is_affirmative message) eqn:Haff; run_branch_in Hraise;
        [| discriminate Hraise].
      apply in_list_In in Haff.
      destruct (get_slots C (meeting_tool (agent w)) e)
        as [[[slots | y] mt] e'] eqn:Hslots.
      * destruct slots; discriminate Hraise.
      * injection Hraise as ->. do 6 right. left. exists mt, e'. auto.
    + unfold slot_selection_reply in Hraise. run_branch_in Hraise.
      destruct (in_list (_normalize_time message)
                  (available_slots (meeting_tool (agent w)))) eqn:Hin;
        [| discriminate Hraise].
      apply in_list_In in Hin.
      destruct (current_lead_id lt) as [[| c lead_id] |] eqn:Hid;
        cbn [truthy_id] in Hraise; try discriminate Hraise.
      run_branch_in Hraise.
      destruct (schedule C (String c lead_id) (_normalize_time message)
                  (meeting_tool (agent w)) e) as [[[ok | y] mt] e'] eqn:Hsched.
      * discriminate Hraise.
      * injection Hraise as ->. do 7 right. exists (String c lead_id), mt, e'.
        repeat split; auto. discriminate.
Qed.

End ControllerFacts.

(* ================================================================== *)
(** * The contact-info detector on the examples of the specification *)
(* ================================================================== *)

(** A pattern that starts with a character no text can supply has no
    match. *)
Lemma match_prefix_dead (r : Re.regex) (s : string) :
  Re.match_prefix (Re.Cat Re.Void r) s = false.
Proof. induction s as [| c s IH]; simpl; [reflexivity | exact IH]. Qed.

Lemma match_prefix_dead_cat (r1 r2 : Re.regex) (s : string) :
  Re.match_prefix (Re.Cat (Re.Cat Re.Void r1) r2) s = false.
Proof. induction s as [| c s IH]; simpl; [reflexivity | exact IH]. Qed.

(** Without one of the characters backslash, w, period and hyphen in the
    message neither pattern has a match, and the detector is the keyword
    test alone: no run of digits and no address such as a@b is
    detected. *)
Lemma contact_info_without_pattern_characters (msg : string) :
  (forall c, In c [backslash; "w"; "."; "-"]%char -> str_in (chr c) msg = false) ->
  is_contact_info msg = existsb (fun kw => str_in kw (lower msg)) name_keywords.
Proof.
  intro Hfree.
  assert (Hphone : Re.re_search phone_pattern msg = false
                   /\ Re.re_search email_pattern msg = false).
  { unfold Re.re_search.
    rewrite compile_phone_pattern, compile_email_pattern. unfold email_set.
    induction msg as [| c msg IH]; [split; reflexivity |].
    assert (Hc : forall d, In d [backslash; "w"; "."; "-"]%char -> Ascii.eqb c d = false).
    { intros d Hd. specialize (Hfree d Hd). simpl in Hfree.
      apply orb_false_iff in Hfree. destruct Hfree as [Hfree _].
      now rewrite andb_true_r, Ascii.eqb_sym in Hfree. }
    assert (Hrest : forall d, In d [backslash; "w"; "."; "-"]%char ->
                      str_in (chr d) msg = false).
    { intros d Hd. specialize (Hfree d Hd). simpl in Hfree.
      now apply orb_false_iff in Hfree. }
    destruct (IH Hrest) as [IHp IHe]. split.
    - cbn [Re.search Re.match_prefix Re.nullable Re.deriv andb orb].
      rewrite (Hc backslash) by (simpl; auto).
      rewrite match_prefix_dead. exact IHp.
    - cbn [Re.search Re.match_prefix Re.nullable Re.deriv andb orb Nat.eqb].
      unfold Re.in_class. cbn [existsb].
      rewrite (Hc backslash), (Hc "w"%char), (Hc "."%char), (Hc "-"%char)
        by (simpl; auto).
      cbn [orb]. rewrite match_prefix_dead_cat. exact IHe. }
  destruct Hphone as [Hp He]. unfold is_contact_info. rewrite Hp, He. cbn [orb].
  now destruct (existsb _ name_keywords).
Qed.

(** C1.  What the detector answers.  The two patterns reach [re] with
    every backslash doubled, so the phone pattern asks for a backslash,
    the letter b, a backslash, ten or more letters d, a backslash and
    the letter b, and the email pattern for characters among backslash,
    w, period and hyphen on both sides of the at sign; the detector
    answers true exactly on the messages that hold such a text or one
    of the four phrases.  The message my email is a@b.com, which holds
    an address, is answered with false, and so is a message with a run
    of ten digits; the keyword examples are answered as the
    specification says. *)
Theorem contact_info_on_examples :
  (forall msg,
     is_contact_info msg = true
     <-> (exists before m after, msg = before ++ m ++ after /\ phone_pattern_text m)
         \/ (exists before m after, msg = before ++ m ++ after /\ email_pattern_text m)
         \/ (exists kw, In kw name_keywords /\ occurs_ignoring_case kw msg))
  /\ is_contact_info "my email is a@b.com" = false
  /\ is_contact_info "call me on 0501234567" = false
  /\ is_contact_info "name is John" = true
  /\ is_contact_info "I like blue" = false.
Proof.
  split; [exact is_contact_info_spec |].
  repeat split; vm_compute; reflexivity.
Qed.

(* ================================================================== *)
(** * Examples *)
(* ================================================================== *)

(** The cases of the normalizer at three messages: one with a no-break
    space at its end, one that is the Arabic-Indic digit nine, and one
    in quotes. *)
Lemma normalize_time_cases_witness :
  _normalize_time (" 7" ++ no_break_space) = "07:00"
  /\ _normalize_time (utf8 [217; 169]) = "0" ++ utf8 [217; 169] ++ ":00"
  /\ _normalize_time "'7:5'" = "07:05".
Proof.
  split; [| split].
  - destruct (normalize_time_cases (" 7" ++ no_break_space)) as (_ & H & _).
    exact (H eq_refl (le_S _ _ (le_n 1))).
  - destruct (normalize_time_cases (utf8 [217; 169])) as (_ & H & _).
    exact (H eq_refl (le_S _ _ (le_n 1))).
  - destruct (normalize_time_cases "'7:5'") as (_ & _ & _ & _ & H & _).
    exact (H "7" "5" eq_refl eq_refl eq_refl).
Defined.

(** A yes in capitals, followed by a no-break space, with slots on
    offer. *)
Lemma awaiting_confirmation_witness :
  exists reply w',
    process friendly ("YES" ++ no_break_space)
      (session AWAITING_MEETING_CONFIRMATION (Some "00Q5g00000ABCDE") [] [])
    = (Returns reply, w')
    /\ response reply
       = "Here are the available meeting slots for today:"
         ++ String "010" ("09:00" ++ String "010" "10:00")
         ++ String "010" "Please pick one."
    /\ lead_state reply = WAITING_MEETING_SLOT_SELECTION.
Proof.
  destruct (awaiting_confirmation_transitions friendly
              ("YES" ++ no_break_space)
              (session AWAITING_MEETING_CONFIRMATION (Some "00Q5g00000ABCDE") [] [])
              _ tt eq_refl eq_refl) as [Hyes _].
  assert (Hin : In (str_lower (str_strip ("YES" ++ no_break_space)))
                  ["yes"; "yeah"; "y"; "sure"; "please"; "schedule";
                   "schedule meeting"; "schedul"; "scedul"; "shedule"; "sedul"])
    by (left; reflexivity).
  destruct (Hyes Hin _ _ _ eq_refl) as (reply & w' & Hp & Hsome & _).
  exists reply, w'. split; [exact Hp |].
  destruct Hsome as (_ & Hr & Hs & _); [discriminate |]. now split.
Defined.

(** C3, the claim as stated, fails: the message schedule meeting is
    none of the ten tokens the claim lists, and yet the slots are
    fetched and the state becomes WAITING_MEETING_SLOT_SELECTION, not
    NO_INTEREST. *)
Lemma schedule_meeting_counterexample :
  in_list (str_lower (str_strip "schedule meeting"))
    listed_affirmative_tokens = false
  /\ option_map lead_state
       (returned (fst (process friendly "schedule meeting"
                         (session AWAITING_MEETING_CONFIRMATION
                            (Some "00Q5g00000ABCDE") [] []))))
     = Some WAITING_MEETING_SLOT_SELECTION
  /\ calls (snd (process friendly "schedule meeting"
                   (session AWAITING_MEETING_CONFIRMATION
                      (Some "00Q5g00000ABCDE") [] [])))
     = [UpdateState "schedule meeting"; GetSlots; FormatSlots ["09:00"; "10:00"]].
Proof. repeat split. Qed.

(** Scenario 3 of the specification: the slot 09:00 chosen as 9, here
    with a no-break space after it. *)
Lemma slot_selection_witness :
  exists reply w',
    process friendly ("9" ++ no_break_space)
      (session WAITING_MEETING_SLOT_SELECTION (Some "00Q5g00000ABCDE") ["09:00"] [])
    = (Returns reply, w')
    /\ calls w' = [UpdateState ("9" ++ no_break_space);
                   Schedule "00Q5g00000ABCDE" "09:00"]
    /\ response reply
       = "✅ Your meeting has been scheduled at 09:00. Our team will contact you soon!"
    /\ lead_state reply = NO_INTEREST
    /\ available_slots (meeting_tool (agent w')) = []
    /\ current_lead_id (lead_tool (agent w')) = None.
Proof.
  destruct (slot_selection_transitions friendly ("9" ++ no_break_space)
              (session WAITING_MEETING_SLOT_SELECTION (Some "00Q5g00000ABCDE") ["09:00"] [])
              _ tt eq_refl eq_refl) as [Hin _].
  destruct (Hin (or_introl eq_refl) "00Q5g00000ABCDE" eq_refl
              ltac:(discriminate)) as [Hreturns _].
  destruct (Hreturns true _ tt eq_refl)
    as (reply & w' & Hp & Hc & Hr & Hs & _ & Ha & Hl).
  exists reply, w'. auto 10.
Defined.

(** C4, the claim as stated, fails: the slot 09:00 is chosen and a lead
    id exists, but [schedule] raises; no response reports a failure,
    the state is still WAITING_MEETING_SLOT_SELECTION, and neither the
    slots nor the lead id are cleared. *)
Lemma schedule_raises_counterexample :
  In (_normalize_time "9") ["09:00"]
  /\ fst (process calendar_down "9"
            (session WAITING_MEETING_SLOT_SELECTION
               (Some "00Q5g00000ABCDE") ["09:00"] []))
     = Raises (Exception "Calendar unavailable.")
  /\ agent (snd (process calendar_down "9"
                   (session WAITING_MEETING_SLOT_SELECTION
                      (Some "00Q5g00000ABCDE") ["09:00"] [])))
     = {| lead_tool := {| state := WAITING_MEETING_SLOT_SELECTION;
                          partial_lead_info := [("name", "John")];
                          current_lead_id := Some "00Q5g00000ABCDE" |};
          meeting_tool := {| available_slots := ["09:00"] |};
          conversation_history := ["Human: 9"] |}.
Proof. repeat split. now left. Qed.

(** The same choice in a session without a lead id. *)
Lemma slot_without_lead_witness :
  exists reply w',
    process friendly "9"
      (session WAITING_MEETING_SLOT_SELECTION None ["09:00"] [])
    = (Returns reply, w')
    /\ calls w' = [UpdateState "9"]
    /\ lead_state reply = WAITING_MEETING_SLOT_SELECTION
    /\ available_slots (meeting_tool (agent w')) = ["09:00"].
Proof.
  destruct (slot_without_lead_reprompts friendly "9"
              (session WAITING_MEETING_SLOT_SELECTION None ["09:00"] [])
              _ tt eq_refl eq_refl (or_introl eq_refl) eq_refl)
    as (reply & w' & made & Hp & Hc & Hm & _ & _ & Hs & _ & Ha).
  exists reply, w'. subst made. auto.
Defined.

(** Declining the meeting keeps the lead id and the slots. *)
Lemma declining_witness :
  let w' := snd (process friendly "no thanks"
                   (session AWAITING_MEETING_CONFIRMATION
                      (Some "00Q5g00000ABCDE") ["09:00"] [])) in
  state (lead_tool (agent w')) = NO_INTEREST
  /\ current_lead_id (lead_tool (agent w')) = Some "00Q5g00000ABCDE"
  /\ partial_lead_info (lead_tool (agent w')) = [("name", "John")]
  /\ available_slots (meeting_tool (agent w')) = ["09:00"].
Proof.
  assert (Hnot : ~ In (str_lower (str_strip "no thanks"))
                     ["yes"; "yeah"; "y"; "sure"; "please"; "schedule";
                      "schedule meeting"; "schedul"; "scedul"; "shedule"; "sedul"]).
  { intro H. repeat (destruct H as [H | H]; [discriminate H |]). exact H. }
  destruct (declining_keeps_lead_and_slots friendly "no thanks"
              (session AWAITING_MEETING_CONFIRMATION
                 (Some "00Q5g00000ABCDE") ["09:00"] [])
              _ tt eq_refl eq_refl Hnot)
    as (Hs & Hl & Hi & Hm & _).
  cbv zeta. rewrite Hs, Hl, Hi, Hm. repeat split.
Defined.


(** Only the agent executor of these collaborators raises. *)
Lemma sql_down_never_raises : never_raises sql_down.
Proof. constructor; intros; repeat eexists. Qed.

(** A data question with a failing agent executor is still answered. *)
Lemma process_returns_witness :
  exists reply w',
    process sql_down "what studios are available in Business Bay?"
      (session NO_INTEREST None [] [])
    = (Returns reply, w')
    /\ lead_state reply = state (lead_tool (agent w')).
Proof.
  destruct (process_returns_when_collaborators_return sql_down)
    as [H _].
  apply (H sql_down_never_raises).
Defined.

(** C7, the claim as stated, fails: with the language model out of
    reach, the exception of [llm.invoke] leaves [process] and no
    response is returned. *)
Lemma process_raises_counterexample :
  process llm_down "hello" (session NO_INTEREST None [] [])
  = (Raises (Exception "Connection error."),
     {| agent := {| lead_tool := {| state := NO_INTEREST;
                                    partial_lead_info := [("name", "John")];
                                    current_lead_id := None |};
                    meeting_tool := {| available_slots := [] |};
                    conversation_history := ["Human: hello"] |};
        env := tt;
        calls := [UpdateState "hello"; LlmInvoke (decide_prompt "hello")] |}).
Proof. reflexivity. Qed.

(** C6, the claim as stated, fails: a call that finds thirty entries
    and in which the language model raises leaves thirty-one entries,
    the human turn appended and no assistant turn. *)
Lemma history_over_cap_counterexample :
  List.length (conversation_history
                 (agent (session NO_INTEREST None [] thirty_turns))) = 30
  /\ fst (process llm_down "hello"
            (session NO_INTEREST None [] thirty_turns))
     = Raises (Exception "Connection error.")
  /\ conversation_history
       (agent (snd (process llm_down "hello"
                      (session NO_INTEREST None [] thirty_turns))))
     = (thirty_turns ++ ["Human: hello"])%list
  /\ List.length
       (conversation_history
          (agent (snd (process llm_down "hello"
                         (session NO_INTEREST None [] thirty_turns))))) = 31.
Proof. repeat split. Qed.

(** An answer in capitals and with blanks around it is read as sql. *)
Lemma decide_tool_witness :
  exists tool w',
    _decide_tool sql_down "price of a studio?" (session NO_INTEREST None [] [])
    = (Returns tool, w')
    /\ (tool = "sql" <-> occurs_ignoring_case "sql" " SQL ").
Proof.
  destruct (decide_tool_sql_iff sql_down "price of a studio?" " SQL "
              (session NO_INTEREST None [] []) tt eq_refl)
    as (tool & w' & Hp & _ & Hiff).
  now exists tool, w'.
Defined.

(* ================================================================== *)
(** * The branches of [process] that collect and answer *)
(* ================================================================== *)

Section BranchFacts.

Context {Env : Type} (C : Collaborators Env).

(** Unfolds the computation that is running, down to the worlds. *)
Ltac run_reply :=
  unfold bind, ret, get, lift, modify, set_state, try_except, finished,
    entered, called, meeting_tool_get_slots, meeting_tool_format_slots,
    meeting_tool_schedule, lead_tool_create_lead, lead_tool_get_missing_fields,
    pdf_qa_tool_answer, llm_invoke_content, agent_executor_output;
  cbn [agent env calls state lead_tool conversation_history meeting_tool
       partial_lead_info current_lead_id available_slots
       with_history with_lead_tool with_meeting_tool with_state
       with_current_lead_id with_available_slots fst snd].

(** X1.  Without interest, a question the model routes to the data base
    is answered with the output of the SQL agent, word for word; the
    lead tool stays as [update_state] left it and the meeting tool as
    it was. *)
Theorem data_question_answered_verbatim
    (message raw clean output : string) (w : World Env) (lt : LeadTool)
    (e e1 e2 : Env) :
  update_state C message (lead_tool (agent w)) (env w) = (Returns tt, lt, e) ->
  state lt = NO_INTEREST ->
  llm_invoke C (decide_prompt message) e = (Returns raw, e1) ->
  occurs_ignoring_case "sql" raw ->
  fix_area C message = Returns clean ->
  agent_executor_invoke C clean e1 = (Returns output, e2) ->
  exists reply w',
    process C message w = (Returns reply, w')
    /\ response reply = output
    /\ lead_state reply = NO_INTEREST
    /\ lead_tool (agent w') = lt
    /\ meeting_tool (agent w') = meeting_tool (agent w)
    /\ calls w' = (calls w ++ [UpdateState message;
                               LlmInvoke (decide_prompt message);
                               AgentExecutorInvoke clean])%list.
Proof.
  intros Hupd Hst Hllm Hsql Hfix Hexec.
  rewrite (process_steps C _ _ _ _ Hupd), Hst. cbn [reply_in].
  unfold no_interest_reply. unfold bind at 1.
  rewrite (decide_tool_runs C message raw (entered message lt e w) e1 Hllm).
  apply str_in_lower_spec in Hsql. rewrite Hsql. cbn [String.eqb Ascii.eqb Bool.eqb].
  unfold query. run_reply. rewrite Hfix, Hexec.
  eexists _, _. split; [reflexivity |]. cbn.
  rewrite Hst, <- !app_assoc. auto 10.
Qed.

(** X2.  Without interest, a question the model does not route to the
    data base goes to the document tool, with the history that ends in
    the human turn.  An answer without the out-of-domain phrase is the
    response, word for word.  An answer with the phrase is dropped: the
    language model is asked once more, with the last six entries of the
    history in the prompt, and its answer is the response. *)
Theorem document_question_and_fallback
    (message raw rag_response : string) (w : World Env) (lt : LeadTool)
    (e e1 e2 : Env) :
  let history := (conversation_history (agent w) ++ [("Human: " ++ message)%string])%list in
  update_state C message (lead_tool (agent w)) (env w) = (Returns tt, lt, e) ->
  state lt = NO_INTEREST ->
  llm_invoke C (decide_prompt message) e = (Returns raw, e1) ->
  ~ occurs_ignoring_case "sql" raw ->
  answer C message history (partial_lead_info lt) NO_INTEREST e1
  = (Returns rag_response, e2) ->
  (out_of_domain rag_response = false ->
   exists reply w',
     process C message w = (Returns reply, w')
     /\ response reply = rag_response
     /\ calls w' = (calls w ++ [UpdateState message;
                                LlmInvoke (decide_prompt message);
                                Answer message history (partial_lead_info lt)
                                  NO_INTEREST])%list)
  /\ (out_of_domain rag_response = true ->
      forall chat e3,
        llm_invoke C (fallback_prompt history message) e2 = (Returns chat, e3) ->
        exists reply w',
          process C message w = (Returns reply, w')
          /\ response reply = chat
          /\ calls w' = (calls w ++ [UpdateState message;
                                     LlmInvoke (decide_prompt message);
                                     Answer message history (partial_lead_info lt)
                                       NO_INTEREST;
                                     LlmInvoke (fallback_prompt history message)])%list).
Proof.
  intros history Hupd Hst Hllm Hsql Hans.
  assert (Hno : str_in "sql" (lower raw) = false).
  { destruct (str_in "sql" (lower raw)) eqn:E; [| reflexivity].
    exfalso. apply Hsql. now apply str_in_lower_spec. }
  split.
  - intro Hin. unfold out_of_domain in Hin.
    rewrite (process_steps C _ _ _ _ Hupd), Hst. cbn [reply_in].
    unfold no_interest_reply. unfold bind at 1.
    rewrite (decide_tool_runs C message raw (entered message lt e w) e1 Hllm).
    rewrite Hno. cbn [String.eqb Ascii.eqb Bool.eqb].
    run_reply. fold history. rewrite Hans, Hin. cbn [negb].
    eexists _, _. split; [reflexivity |]. cbn.
    rewrite <- !app_assoc. auto.
  - intros Hout chat e3 Hchat. unfold out_of_domain in Hout.
    rewrite (process_steps C _ _ _ _ Hupd), Hst. cbn [reply_in].
    unfold no_interest_reply. unfold bind at 1.
    rewrite (decide_tool_runs C message raw (entered message lt e w) e1 Hllm).
    rewrite Hno. cbn [String.eqb Ascii.eqb Bool.eqb].
    run_reply. fold history. rewrite Hans, Hout. cbn [negb].
    run_reply. fold history. rewrite Hchat.
    eexists _, _. split; [reflexivity |]. cbn.
    rewrite <- !app_assoc. auto.
Qed.

(** X3.  While collecting (INTEREST_DETECTED or COLLECTING_INFO), a
    message that the detector takes for contact information is answered
    without asking the document tool: Thanks! when no field is missing,
    the one field by name when exactly one is missing, the fields joined
    by commas otherwise.  The collaborator calls are [update_state] and
    [get_missing_fields] and no other, and the session stays as
    [update_state] left it. *)
Theorem contact_message_names_missing_fields
    (message : string) (w : World Env) (lt : LeadTool) (e : Env) :
  update_state C message (lead_tool (agent w)) (env w) = (Returns tt, lt, e) ->
  state lt = INTEREST_DETECTED \/ state lt = COLLECTING_INFO ->
  is_contact_info message = true ->
  exists reply w',
    process C message w = (Returns reply, w')
    /\ response reply
       = match get_missing_fields C lt with
         | [] => "Thanks!"
         | [field] => "Just need your " ++ field ++ " to get started."
         | fields => "Just need your " ++ join ", " fields ++ " to get started."
         end
    /\ lead_state reply = state lt
    /\ lead_tool (agent w') = lt
    /\ meeting_tool (agent w') = meeting_tool (agent w)
    /\ env w' = e
    /\ calls w' = (calls w ++ [UpdateState message; GetMissingFields])%list.
Proof.
  intros Hupd Hst Hcontact.
  rewrite (process_steps C _ _ _ _ Hupd).
  destruct Hst as [Hst | Hst]; rewrite Hst; cbn [reply_in];
    unfold interest_detected_reply, collecting_info_reply;
    run_reply; rewrite Hcontact;
    destruct (get_missing_fields C lt) as [| f [| g fields]];
    eexists _, _; (split; [reflexivity |]); cbn;
    rewrite Hst, <- ?app_assoc; auto 10.
Qed.

(** X4.  While collecting, any other message goes to the document tool,
    after the missing fields were asked for, with the history that ends
    in the human turn, and the answer comes back followed by a request
    for the missing fields: none when no field is missing, Could you
    share your ... ? in INTEREST_DETECTED, Just need your ... to get
    started. in COLLECTING_INFO. *)
Theorem question_while_collecting
    (message r : string) (w : World Env) (lt : LeadTool) (e e1 : Env) :
  let history := (conversation_history (agent w) ++ [("Human: " ++ message)%string])%list in
  update_state C message (lead_tool (agent w)) (env w) = (Returns tt, lt, e) ->
  state lt = INTEREST_DETECTED \/ state lt = COLLECTING_INFO ->
  is_contact_info message = false ->
  answer C message history (partial_lead_info lt) (state lt) e = (Returns r, e1) ->
  exists reply w',
    process C message w = (Returns reply, w')
    /\ response reply = r ++ fields_request (state lt) (get_missing_fields C lt)
    /\ lead_state reply = state lt
    /\ lead_tool (agent w') = lt
    /\ calls w' = (calls w ++ [UpdateState message; GetMissingFields;
                               Answer message history (partial_lead_info lt)
                                 (state lt)])%list.
Proof.
  intros history Hupd Hst Hcontact Hans.
  rewrite (process_steps C _ _ _ _ Hupd).
  destruct Hst as [Hst | Hst]; rewrite Hst in Hans |- *; cbn [reply_in];
    unfold interest_detected_reply, collecting_info_reply;
    run_reply; rewrite Hcontact; run_reply; fold history; rewrite Hans;
    destruct (get_missing_fields C lt) as [| f fields];
    eexists _, _; (split; [reflexivity |]); cbn;
    rewrite ?append_empty_r, Hst, <- ?app_assoc; auto 10.
Qed.

End BranchFacts.

(* ================================================================== *)
(** * What a [process] call leaves alone *)
(* ================================================================== *)

Section FrameFacts.

Context {Env : Type} (C : Collaborators Env).

Lemma keeps_tools_ret {A : Type} (a : A) : keeps_tools (ret (Env := Env) a).
Proof. intros w o w' H. now inversion H. Qed.

Lemma keeps_tools_bind {A B : Type} (m : M A) (k : A -> M B) :
  keeps_tools m -> (forall a, keeps_tools (k a)) ->
  keeps_tools (bind (Env := Env) m k).
Proof.
  intros Hm Hk w o w' H. unfold bind in H.
  destruct (m w) as [[a | x] w1] eqn:E.
  - destruct (Hk a _ _ _ H) as [H1 H2]. destruct (Hm _ _ _ E) as [H3 H4].
    split; congruence.
  - inversion H; subst. exact (Hm _ _ _ E).
Qed.

Lemma keeps_tools_try {A : Type} (m : M A) (handler : exn -> M A) :
  keeps_tools m -> (forall x, keeps_tools (handler x)) ->
  keeps_tools (try_except (Env := Env) m handler).
Proof.
  intros Hm Hh w o w' H. unfold try_except in H.
  destruct (m w) as [[a | x] w1] eqn:E.
  - inversion H; subst. exact (Hm _ _ _ E).
  - destruct (Hh x _ _ _ H) as [H1 H2]. destruct (Hm _ _ _ E) as [H3 H4].
    split; congruence.
Qed.

(** Unfolds a call that does not touch the agent and names its
    outcome. *)
Ltac quiet_call H :=
  unfold pdf_qa_tool_answer, llm_invoke_content, agent_executor_output,
    lead_tool_get_missing_fields, lift, get in H;
  repeat match type of H with
         | context [let '(_, _) := ?c in _] => destruct c
         end;
  inversion H; subst; split; reflexivity.

Lemma keeps_tools_answer (message : string) (st : LeadState) :
  keeps_tools (pdf_qa_tool_answer C message st).
Proof. intros w o w' H. quiet_call H. Qed.

Lemma keeps_tools_missing_fields : keeps_tools (lead_tool_get_missing_fields C).
Proof. intros w o w' H. quiet_call H. Qed.

Lemma keeps_tools_llm (prompt : string) : keeps_tools (llm_invoke_content C prompt).
Proof. intros w o w' H. quiet_call H. Qed.

Lemma keeps_tools_executor (question : string) :
  keeps_tools (agent_executor_output C question).
Proof. intros w o w' H. quiet_call H. Qed.

Lemma keeps_tools_lift {A : Type} (o : outcome A) : keeps_tools (lift (Env := Env) o).
Proof. intros w o' w' H. quiet_call H. Qed.

Lemma keeps_tools_get : keeps_tools (get (Env := Env)).
Proof. intros w o' w' H. quiet_call H. Qed.

(** Splits a computation at its binds and branches. *)
Ltac tools_steps :=
  repeat first
    [ apply keeps_tools_bind; [| intro]
    | apply keeps_tools_try; [| intro]
    | apply keeps_tools_ret
    | apply keeps_tools_answer
    | apply keeps_tools_missing_fields
    | apply keeps_tools_llm
    | apply keeps_tools_executor
    | apply keeps_tools_lift
    | apply keeps_tools_get
    | match goal with
      | |- keeps_tools (if ?b then _ else _) => destruct b
      | |- keeps_tools (match ?x with _ => _ end) => destruct x
      end ].

Lemma keeps_tools_quiet_reply (st : LeadState) (message : string) :
  In st [NO_INTEREST; INTEREST_DETECTED; COLLECTING_INFO] ->
  keeps_tools (reply_in C st message).
Proof.
  intros [<- | [<- | [<- | []]]]; cbn [reply_in];
    unfold no_interest_reply, interest_detected_reply, collecting_info_reply,
      _decide_tool, query;
    tools_steps.
Qed.

(** X5.  In the states NO_INTEREST, INTEREST_DETECTED and
    COLLECTING_INFO, [process] itself writes nothing but the
    conversation history: whether the call returns or raises, the lead
    tool (state, partial lead info, lead id) is left as [update_state]
    left it and the meeting tool as it was before the call. *)
Theorem quiet_states_keep_the_session
    (message : string) (w : World Env) (lt : LeadTool) (e : Env) :
  update_state C message (lead_tool (agent w)) (env w) = (Returns tt, lt, e) ->
  In (state lt) [NO_INTEREST; INTEREST_DETECTED; COLLECTING_INFO] ->
  let w' := snd (process C message w) in
  lead_tool (agent w') = lt
  /\ meeting_tool (agent w') = meeting_tool (agent w).
Proof.
  intros Hupd Hst.
  rewrite (process_steps C _ _ _ _ Hupd).
  destruct (reply_in C (state lt) message (entered message lt e w))
    as [[r | x] w1] eqn:Hr;
    apply (keeps_tools_quiet_reply _ _ Hst) in Hr; cbn in Hr |- *; exact Hr.
Qed.

(** Unfolds the branch that is running, down to the worlds. *)
Ltac run_backend :=
  unfold bind, ret, get, modify, set_state, finished, entered, called,
    meeting_tool_get_slots, meeting_tool_format_slots, meeting_tool_schedule,
    lead_tool_create_lead, lead_tool_get_missing_fields;
  cbn [agent env calls state lead_tool conversation_history meeting_tool
       partial_lead_info current_lead_id available_slots
       with_history with_lead_tool with_meeting_tool with_state
       with_current_lead_id with_available_slots fst snd].

(** X6.  An exception of the CRM or of the meeting store is passed on
    and [process] resets nothing, so that the user's message can be
    repeated.  When [create_lead], [get_slots] or [schedule] raises,
    [process] raises the same exception and the human turn stays in the
    history without an assistant turn.  After a raising [create_lead]
    the lead tool is as [create_lead] left it.  After a raising
    [get_slots] or [schedule] the lead tool is as [update_state] left
    it, in the same state and with the same lead id; after a raising
    [schedule] the meeting tool is as [schedule] left it. *)
Theorem backend_exception_keeps_state
    (message : string) (w : World Env) (lt : LeadTool) (e : Env) (x : exn) :
  update_state C message (lead_tool (agent w)) (env w) = (Returns tt, lt, e) ->
  let history := (conversation_history (agent w) ++ [("Human: " ++ message)%string])%list in
  (state lt = INFO_COMPLETE ->
   forall lt' e',
     create_lead C lt e = (Raises x, lt', e') ->
     exists w',
       process C message w = (Raises x, w')
       /\ lead_tool (agent w') = lt'
       /\ conversation_history (agent w') = history)
  /\ (state lt = AWAITING_MEETING_CONFIRMATION ->
      In (str_lower (str_strip message))
         ["yes"; "yeah"; "y"; "sure"; "please"; "schedule"; "schedule meeting";
          "schedul"; "scedul"; "shedule"; "sedul"] ->
      forall mt' e',
        get_slots C (meeting_tool (agent w)) e = (Raises x, mt', e') ->
        exists w',
          process C message w = (Raises x, w')
          /\ lead_tool (agent w') = lt
          /\ state (lead_tool (agent w')) = AWAITING_MEETING_CONFIRMATION
          /\ conversation_history (agent w') = history)
  /\ (state lt = WAITING_MEETING_SLOT_SELECTION ->
      In (_normalize_time message) (available_slots (meeting_tool (agent w))) ->
      forall lead_id mt' e',
        current_lead_id lt = Some lead_id -> lead_id <> EmptyString ->
        schedule C lead_id (_normalize_time message) (meeting_tool (agent w)) e
        = (Raises x, mt', e') ->
        exists w',
          process C message w = (Raises x, w')
          /\ lead_tool (agent w') = lt
          /\ state (lead_tool (agent w')) = WAITING_MEETING_SLOT_SELECTION
          /\ current_lead_id (lead_tool (agent w')) = Some lead_id
          /\ meeting_tool (agent w') = mt'
          /\ conversation_history (agent w') = history).
Proof.
  intros Hupd history. rewrite (process_steps C _ _ _ _ Hupd).
  split; [| split].
  - intros Hst lt' e' Hcreate. rewrite Hst. cbn [reply_in].
    unfold info_complete_reply. run_backend. rewrite Hcreate.
    eexists. split; [reflexivity |]. cbn. auto.
  - intros Hst Haff mt' e' Hslots. rewrite Hst. cbn [reply_in].
    change (In (str_lower (str_strip message)) affirmative_tokens) in Haff.
    apply in_list_In in Haff.
    unfold awaiting_confirmation_reply, is_affirmative. rewrite Haff.
    run_backend. rewrite Hslots.
    eexists. split; [reflexivity |]. cbn. auto.
  - intros Hst Hin lead_id mt' e' Hid Hne Hsched. rewrite Hst. cbn [reply_in].
    unfold slot_selection_reply. apply in_list_In in Hin.
    run_backend. rewrite Hin, Hid, (truthy_id_some _ Hne).
    run_backend. rewrite Hsched.
    eexists. split; [reflexivity |]. cbn. auto 10.
Qed.

(** Names the outcome of the innermost pending test or call. *)
Ltac next_outcome :=
  match goal with
  | |- context [match ?c with _ => _ end] =>
      lazymatch c with
      | context [match _ with _ => _ end] => fail
      | _ => destruct c eqn:?
      end
  end.

(** X7.  The collaborator calls of one [process] call, after
    [update_state]: without interest at most three, none of them to the
    lead tool or the meeting tool; in every other state at most two, and
    never the language model or the SQL agent. *)
Theorem calls_of_a_process_call
    (message : string) (w : World Env) (lt : LeadTool) (e : Env) :
  update_state C message (lead_tool (agent w)) (env w) = (Returns tt, lt, e) ->
  exists made,
    calls (snd (process C message w))
    = (calls w ++ UpdateState message :: made)%list
    /\ (state lt = NO_INTEREST ->
        List.length made <= 3
        /\ forallb (fun c => negb (backend_call c)) made = true)
    /\ (state lt <> NO_INTEREST ->
        List.length made <= 2
        /\ forallb (fun c => negb (model_call c)) made = true).
Proof.
  intro Hupd. rewrite (process_steps C _ _ _ _ Hupd).
  destruct (state lt) eqn:Hst; cbn [reply_in];
    unfold no_interest_reply, interest_detected_reply, collecting_info_reply,
      info_complete_reply, awaiting_confirmation_reply, slot_selection_reply,
      _decide_tool, query;
    unfold set_state;
    unfold bind, ret, get, lift, modify, try_except, finished,
      entered, meeting_tool_get_slots, meeting_tool_format_slots,
      meeting_tool_schedule, lead_tool_create_lead,
      lead_tool_get_missing_fields, pdf_qa_tool_answer, llm_invoke_content,
      agent_executor_output;
    repeat next_outcome;
    unfold called; cbn [snd calls agent env];
    eexists;
    (split;
     [ rewrite <- ?app_assoc; cbn [app]; reflexivity
     | split; intro; first [ congruence | cbn; split; [lia | reflexivity] ] ]).
Qed.

(** X19.  An empty identifier counts as no identifier.  When
    [create_lead] returns the empty text, the answer is the
    trouble-saving apology; with the empty text as current lead id, no
    meeting is scheduled, whatever the message: the answer asks again
    with the valid options and [schedule] is not called. *)
Theorem empty_lead_id_counts_as_none
    (message : string) (w : World Env) (lt : LeadTool) (e : Env) :
  update_state C message (lead_tool (agent w)) (env w) = (Returns tt, lt, e) ->
  (state lt = INFO_COMPLETE ->
   forall lt' e',
     create_lead C lt e = (Returns (Some EmptyString), lt', e') ->
     exists reply w',
       process C message w = (Returns reply, w')
       /\ response reply
          = "Sorry, I had trouble saving your information. Would you mind trying again?")
  /\ (state lt = WAITING_MEETING_SLOT_SELECTION ->
      current_lead_id lt = Some EmptyString ->
      exists reply w',
        process C message w = (Returns reply, w')
        /\ calls w' = (calls w ++ [UpdateState message])%list
        /\ response reply
           = "⚠️ '" ++ message ++ "' is not a valid time. Please choose from: "
             ++ String.concat ", " (available_slots (meeting_tool (agent w)))
        /\ lead_state reply = WAITING_MEETING_SLOT_SELECTION).
Proof.
  intro Hupd. rewrite (process_steps C _ _ _ _ Hupd). split.
  - intros Hst lt' e' Hcreate. rewrite Hst. cbn [reply_in].
    unfold info_complete_reply. run_backend. rewrite Hcreate. cbn [truthy_id].
    eexists _, _. split; reflexivity.
  - intros Hst Hid. rewrite Hst. cbn [reply_in].
    unfold slot_selection_reply. run_backend. rewrite Hid. cbn [truthy_id].
    destruct (in_list (_normalize_time message)
                (available_slots (meeting_tool (agent w))));
      eexists _, _; (split; [reflexivity |]); cbn; auto.
Qed.

(** X18.  The [try] block of [query] covers the agent executor and
    nothing else.  Once the area is fixed, [query] calls the executor
    once, with the fixed question, and returns whatever happens: the
    output, word for word, or the text SQL agent error followed by the
    text of the exception; it leaves the agent alone.  An exception of
    [fix_area] leaves [query] before the executor is called. *)
Theorem query_outcomes (question : string) (w : World Env) :
  (forall clean,
     fix_area C question = Returns clean ->
     exists text e,
       query C question w
       = (Returns text,
          {| agent := agent w; env := e;
             calls := (calls w ++ [AgentExecutorInvoke clean])%list |})
       /\ match agent_executor_invoke C clean (env w) with
          | (Returns output, e') => text = output /\ e = e'
          | (Raises x, e') => text = "SQL agent error: " ++ str x /\ e = e'
          end)
  /\ (forall x,
        fix_area C question = Raises x ->
        query C question w = (Raises x, w)).
Proof.
  unfold query, bind, lift, try_except, agent_executor_output, ret, called.
  split.
  - intros clean ->.
    destruct (agent_executor_invoke C clean (env w)) as [[output | x] e'];
      eexists _, _; split; try reflexivity; auto.
  - intros x ->. reflexivity.
Qed.

End FrameFacts.

(* ================================================================== *)
(** * More about the detector and the normalizer *)
(* ================================================================== *)

Lemma occurs_in_context (needle before hay after : string) :
  occurs_ignoring_case needle hay ->
  occurs_ignoring_case needle (before ++ hay ++ after).
Proof.
  intros (b & x & a & -> & Hx).
  exists (before ++ b), x, (a ++ after). split; [| assumption].
  now rewrite !append_assoc.
Qed.

(** X8.  Detection survives context: a message that holds a detected
    message, with any text before and after it, is detected too. *)
Theorem contact_info_survives_context (before msg after : string) :
  is_contact_info msg = true ->
  is_contact_info (before ++ msg ++ after) = true.
Proof.
  intro H. apply is_contact_info_spec in H. apply is_contact_info_spec.
  destruct H as [(b & m & a & -> & Hm) | [(b & m & a & -> & Hm) | (kw & Hin & Hkw)]].
  - left. exists (before ++ b), m, (a ++ after). split; [| assumption].
    now rewrite !append_assoc.
  - right. left. exists (before ++ b), m, (a ++ after). split; [| assumption].
    now rewrite !append_assoc.
  - right. right. exists kw. split; [assumption |].
    now apply occurs_in_context.
Qed.

Lemma all_chars_list (test : ascii -> bool) (s : string) :
  all_chars test s = forallb test (list_ascii_of_string s).
Proof. induction s as [| c s IH]; simpl; [reflexivity | now rewrite IH]. Qed.

Lemma lower_char_not_upper (c : ascii) : isupper_char (lower_char c) = false.
Proof.
  destruct c as [b0 b1 b2 b3 b4 b5 b6 b7].
  destruct b0, b1, b2, b3, b4, b5, b6, b7; reflexivity.
Qed.

Lemma lower_not_upper (s : string) :
  all_chars (fun c => negb (isupper_char c)) (lower s) = true.
Proof.
  induction s as [| c s IH]; simpl; [reflexivity |].
  now rewrite lower_char_not_upper, IH.
Qed.

Lemma all_chars_text_of (test : ascii -> bool) (ps : list string) :
  all_chars test (text_of ps) = forallb (all_chars test) ps.
Proof.
  induction ps as [| p ps IH]; [reflexivity |].
  cbn [text_of forallb]. now rewrite all_chars_app, IH.
Qed.

Lemma all_chars_code_points (test : ascii -> bool) (s : string) :
  all_chars test s = forallb (all_chars test) (code_points s).
Proof. now rewrite <- all_chars_text_of, text_of_code_points. Qed.

Lemma forallb_firstn {A : Type} (f : A -> bool) (n : nat) (l : list A) :
  forallb f l = true -> forallb f (firstn n l) = true.
Proof.
  revert l. induction n as [| n IH]; intros [| x l] H; simpl in *; trivial.
  apply andb_true_iff in H. destruct H as [Hx Hl]. now rewrite Hx, IH.
Qed.

Lemma forallb_skipn {A : Type} (f : A -> bool) (n : nat) (l : list A) :
  forallb f l = true -> forallb f (skipn n l) = true.
Proof.
  revert l. induction n as [| n IH]; intros [| x l] H; simpl in *; trivial.
  apply andb_true_iff in H. destruct H as [Hx Hl]. now apply IH.
Qed.

Lemma all_chars_str_take (test : ascii -> bool) (n : nat) (s : string) :
  all_chars test s = true -> all_chars test (str_take n s) = true.
Proof.
  intro H. unfold str_take. rewrite all_chars_text_of.
  apply forallb_firstn. now rewrite <- all_chars_code_points.
Qed.

Lemma all_chars_str_drop (test : ascii -> bool) (n : nat) (s : string) :
  all_chars test s = true -> all_chars test (str_drop n s) = true.
Proof.
  intro H. unfold str_drop. rewrite all_chars_text_of.
  apply forallb_skipn. now rewrite <- all_chars_code_points.
Qed.

Lemma all_chars_zeros (test : ascii -> bool) (n : nat) :
  test "0"%char = true -> all_chars test (zeros n) = true.
Proof. intro H. induction n as [| n IH]; simpl; [reflexivity | now rewrite H, IH]. Qed.

Lemma all_chars_str_zfill (test : ascii -> bool) (n : nat) (s : string) :
  test "0"%char = true -> all_chars test s = true ->
  all_chars test (str_zfill n s) = true.
Proof.
  intros H0 Hs. unfold str_zfill. destruct s as [| c s].
  - now apply all_chars_zeros.
  - simpl in Hs. apply andb_true_iff in Hs. destruct Hs as [Hc Hs].
    destruct (Ascii.eqb c "+" || Ascii.eqb c "-").
    + simpl. rewrite Hc, all_chars_app, Hs, all_chars_zeros; auto.
    + rewrite all_chars_app, all_chars_zeros by assumption.
      simpl. now rewrite Hc, Hs.
Qed.

Lemma all_chars_split (test : ascii -> bool) (sep : ascii) (s : string) :
  all_chars test s = true ->
  forallb (all_chars test) (split sep s) = true.
Proof.
  induction s as [| c s IH]; simpl; intro H; [reflexivity |].
  apply andb_true_iff in H. destruct H as [Hc Hs]. specialize (IH Hs).
  destruct (Ascii.eqb c sep); simpl; [assumption |].
  destruct (split sep s) as [| p ps]; simpl in *; [now rewrite Hc |].
  apply andb_true_iff in IH. destruct IH as [Hp Hps].
  now rewrite Hc, Hp, Hps.
Qed.

(** What holds of every character of the token, of the zero and of the
    colon holds of every character of the normalized time. *)
Lemma normalize_time_chars (test : ascii -> bool) (message : string) :
  test "0"%char = true -> test ":"%char = true ->
  all_chars test (time_token message) = true ->
  all_chars test (_normalize_time message) = true.
Proof.
  intros H0 Hcolon Ht.
  unfold _normalize_time. cbv zeta.
  set (t := time_token message) in *.
  assert (Hjoin : forall a b,
             all_chars test a = true -> all_chars test b = true ->
             all_chars test (a ++ ":" ++ b) = true).
  { intros a b Ha Hb. rewrite !all_chars_app, Ha, Hb. simpl. now rewrite Hcolon. }
  destruct (str_isdigit t).
  - destruct (str_len t <=? 2).
    { apply (Hjoin _ "00"); [now apply all_chars_str_zfill |].
      simpl. now rewrite H0. }
    destruct (str_len t =? 3).
    { apply (Hjoin ("0" ++ str_take 1 t) (str_drop 1 t)).
      - rewrite all_chars_app, all_chars_str_take by assumption.
        simpl. now rewrite H0.
      - now apply all_chars_str_drop. }
    destruct (str_len t =? 4); [| assumption].
    apply Hjoin; [now apply all_chars_str_take | now apply all_chars_str_drop].
  - destruct (str_in ":" t); [| assumption].
    pose proof (all_chars_split test ":" t Ht) as Hparts.
    destruct ((List.length (split ":" t) =? 2)
              && forallb (str_isdigit) (split ":" t));
      [| assumption].
    destruct (split ":" t) as [| h [| m parts]]; cbn [nth forallb] in *.
    + apply Hjoin; now apply all_chars_str_zfill.
    + rewrite andb_true_r in Hparts.
      apply Hjoin; now apply all_chars_str_zfill.
    + apply andb_true_iff in Hparts. destruct Hparts as [Hh Hparts].
      apply andb_true_iff in Hparts. destruct Hparts as [Hm _].
      apply Hjoin; now apply all_chars_str_zfill.
Qed.

Lemma forallb_lstrip_points (f : string -> bool) (ps : list string) :
  forallb f ps = true -> forallb f (lstrip_points ps) = true.
Proof.
  induction ps as [| p ps IH]; [trivial |]. cbn [lstrip_points]. intro H.
  destruct (isspace_point p); [| exact H].
  cbn [forallb] in H. apply andb_true_iff in H. now apply IH.
Qed.

Lemma forallb_rev {A : Type} (f : A -> bool) (l : list A) :
  forallb f (rev l) = forallb f l.
Proof.
  induction l as [| x l IH]; [reflexivity |].
  cbn [rev]. rewrite forallb_app, IH. cbn [forallb].
  rewrite andb_true_r. apply andb_comm.
Qed.

Lemma forallb_strip_points (f : string -> bool) (ps : list string) :
  forallb f ps = true -> forallb f (rstrip_points (lstrip_points ps)) = true.
Proof.
  intro H. unfold rstrip_points. rewrite forallb_rev.
  apply forallb_lstrip_points. rewrite forallb_rev.
  now apply forallb_lstrip_points.
Qed.

Lemma str_strip_is_ascii (s : string) :
  is_ascii s = true -> is_ascii (str_strip s) = true.
Proof.
  intro H. unfold str_strip. rewrite is_ascii_text_of.
  apply forallb_strip_points. now rewrite <- is_ascii_code_points.
Qed.

Lemma forallb_filter_same {A : Type} (f : A -> bool) (l : list A) :
  forallb f (filter f l) = true.
Proof.
  induction l as [| x l IH]; [reflexivity |].
  cbn [filter]. destruct (f x) eqn:E; [| exact IH].
  cbn [forallb]. now rewrite E, IH.
Qed.

(** X9.  Whatever the message, the normalizer returns a text without
    double quote, apostrophe, space and period; when the message is
    ASCII text, the text it returns has no capital letter A to Z
    either. *)
Theorem normalized_time_is_clean (message : string) :
  all_chars (fun c => negb (existsb (Ascii.eqb c) ["034"; "'"; " "; "."]%char))
    (_normalize_time message) = true
  /\ (is_ascii message = true ->
      all_chars (fun c => negb (isupper_char c)) (_normalize_time message) = true).
Proof.
  split.
  - apply normalize_time_chars; [reflexivity | reflexivity |].
    rewrite all_chars_list, time_token_filter.
    exact (forallb_filter_same
             (fun c => negb (Re.in_class c deleted_chars)) _).
  - intros Hascii.
    apply normalize_time_chars; [reflexivity | reflexivity |].
    rewrite all_chars_list, time_token_filter.
    rewrite (lower_ascii _ (str_strip_is_ascii message Hascii)).
    pose proof (lower_not_upper (str_strip message)) as Hlow.
    rewrite all_chars_list in Hlow.
    induction (list_ascii_of_string (lower (str_strip message))) as [| c l IH];
      [reflexivity |].
    cbn [forallb] in Hlow. apply andb_true_iff in Hlow. destruct Hlow as [Hc Hl].
    cbn [filter]. destruct (negb (Re.in_class c deleted_chars));
      [| now apply IH].
    cbn [forallb]. now rewrite Hc, IH.
Qed.

Lemma canonical_time_shape (s : string) :
  canonical_time s = true ->
  exists a b c d,
    s = String a (String b (String ":" (String c (String d EmptyString))))
    /\ isdigit_char a = true /\ isdigit_char b = true
    /\ isdigit_char c = true /\ isdigit_char d = true.
Proof.
  destruct s as [| a [| b [| k s]]]; try discriminate.
  destruct k as [b0 b1 b2 b3 b4 b5 b6 b7].
  destruct b0, b1, b2, b3, b4, b5, b6, b7; try discriminate.
  destruct s as [| c [| d [| x s]]]; try discriminate.
  cbn [canonical_time]. intro H.
  apply andb_true_iff in H. destruct H as [H Hd].
  apply andb_true_iff in H. destruct H as [H Hc].
  apply andb_true_iff in H. destruct H as [Ha Hb].
  exists a, b, c, d. repeat split; assumption.
Qed.

Lemma canonical_time_fixed (s : string) :
  canonical_time s = true -> _normalize_time s = s.
Proof.
  intros H. apply canonical_time_shape in H.
  destruct H as (a & b & c & d & -> & Ha & Hb & Hc & Hd).
  now apply canonical_fixed.
Qed.

Lemma isdigit_is_ascii (s : string) : isdigit s = true -> is_ascii s = true.
Proof. intro H. now apply all_digits_is_ascii, isdigit_all_digits. Qed.

Lemma pad_two_digits (part : string) :
  isdigit part = true -> String.length part <= 2 ->
  exists a b, pad_two part = String a (String b EmptyString)
              /\ isdigit_char a = true /\ isdigit_char b = true.
Proof.
  intros H Hlen. unfold pad_two.
  rewrite (str_len_ascii part (isdigit_is_ascii part H)).
  destruct part as [| a [| b [| c part]]]; simpl in *;
    try discriminate; try lia.
  - rewrite andb_true_r in H. now exists "0"%char, a.
  - rewrite andb_true_r in H. apply andb_true_iff in H. destruct H.
    now exists a, b.
Qed.

(** X10.  A token of one to four digits, and a token h:m whose two
    parts are numbers of at most two digits, are brought to the
    canonical shape of a slot: two digits, a colon, two digits.
    Normalizing the result again changes nothing. *)
Theorem short_times_become_canonical (message : string) :
  let t := time_token message in
  (isdigit t = true /\ String.length t <= 4)
  \/ (exists h m, t = h ++ ":" ++ m
                  /\ isdigit h = true /\ String.length h <= 2
                  /\ isdigit m = true /\ String.length m <= 2) ->
  canonical_time (_normalize_time message) = true
  /\ _normalize_time (_normalize_time message) = _normalize_time message.
Proof.
  intros t H.
  assert (Hc : canonical_time (_normalize_time message) = true).
  { destruct H as [[Hd Hlen] | (h & m & Ht & Hh & Hlh & Hm & Hlm)].
    - pose proof (isdigit_is_ascii t Hd) as Hascii.
      pose proof (str_isdigit_ascii t Hascii) as Hud. rewrite Hd in Hud.
      pose proof (code_points_is_ascii t Hascii) as Hpoints.
      pose proof (str_len_ascii t Hascii) as Hl.
      subst t.
      destruct (time_token message) as [| a [| b [| c [| d [| x t]]]]] eqn:Et;
        simpl in Hd, Hlen, Hl, Hpoints; try discriminate; try lia;
        repeat (apply andb_true_iff in Hd; destruct Hd as [? Hd]).
      + rewrite (normalize_short message); rewrite ?Et; [| assumption | lia].
        unfold pad_two. rewrite Hl. simpl. now rewrite H.
      + rewrite (normalize_short message); rewrite ?Et; [| assumption | lia].
        unfold pad_two. rewrite Hl. simpl. now rewrite H, H0.
      + rewrite (normalize_three message (chr a) (chr b) (chr c));
          rewrite ?Et; [| assumption | assumption].
        simpl. now rewrite H, H0, H1.
      + rewrite (normalize_four message (chr a) (chr b) (chr c) (chr d));
          rewrite ?Et; [| assumption | assumption].
        simpl. now rewrite H, H0, H1, H2.
    - pose proof (str_isdigit_ascii h (isdigit_is_ascii h Hh)) as Huh.
      pose proof (str_isdigit_ascii m (isdigit_is_ascii m Hm)) as Hum.
      rewrite Hh in Huh. rewrite Hm in Hum.
      rewrite (normalize_colon message h m Huh Hum Ht).
      destruct (pad_two_digits h Hh Hlh) as (a & b & -> & Ha & Hb).
      destruct (pad_two_digits m Hm Hlm) as (c & d & -> & Hc & Hd).
      simpl. now rewrite Ha, Hb, Hc, Hd. }
  split; [assumption | now apply canonical_time_fixed].
Qed.

(** X21.  Beyond ASCII.  A digit of another script, or a superscript
    digit, is a digit for the normalizer, and one character: it is
    padded like 9.  A no-break space around the message is stripped,
    before the normalizer and before the test for an affirmative answer.
    A capital sigma at the end of a word is lower-cased to the final
    sigma. *)
Theorem text_beyond_ascii :
  _normalize_time "²" = "0²:00"
  /\ _normalize_time "٩" = "0٩:00"
  /\ _normalize_time "١٢٣" = "0١:٢٣"
  /\ _normalize_time ("9" ++ no_break_space) = "09:00"
  /\ _normalize_time "ΟΔΟΣ" = "οδος"
  /\ is_affirmative ("yes" ++ no_break_space) = true
  /\ is_affirmative (no_break_space ++ "Sure" ++ no_break_space) = true
  /\ is_affirmative "yeſ" = false.
Proof. repeat split; vm_compute; reflexivity. Qed.

(* ================================================================== *)
(** * The area fix of the SQL tool *)
(* ================================================================== *)

Lemma area_run_spec (s : string) :
  exists after,
    s = SQLAgentTool.area_run s ++ after
    /\ all_chars SQLAgentTool.area_char (SQLAgentTool.area_run s) = true
    /\ match after with
       | EmptyString => True
       | String c _ => SQLAgentTool.area_char c = false
       end.
Proof.
  induction s as [| c s (after & Hs & Hall & Hafter)]; simpl.
  - now exists EmptyString.
  - destruct (SQLAgentTool.area_char c) eqn:Hc.
    + exists after. simpl. rewrite Hc, Hall, <- Hs. auto.
    + exists (String c s). simpl. auto.
Qed.

Lemma match_area_spec (s g : string) :
  SQLAgentTool.match_area s = Some g ->
  exists kw after,
    s = kw ++ g ++ after
    /\ lower kw = "in "
    /\ 1 <= String.length g
    /\ all_chars SQLAgentTool.area_char g = true
    /\ match after with
       | EmptyString => True
       | String c _ => SQLAgentTool.area_char c = false
       end.
Proof.
  destruct s as [| i [| n [| blank rest]]]; try discriminate.
  unfold SQLAgentTool.match_area.
  destruct (Ascii.eqb (lower_char i) "i" && Ascii.eqb (lower_char n) "n"
            && Ascii.eqb blank " ") eqn:E; [| discriminate].
  apply andb_true_iff in E. destruct E as [E Hb].
  apply andb_true_iff in E. destruct E as [Hi Hn].
  apply Ascii.eqb_eq in Hi, Hn, Hb. subst blank.
  destruct (area_run_spec rest) as (after & Hrest & Hall & Hafter).
  destruct (SQLAgentTool.area_run rest) as [| c run] eqn:Hrun; [discriminate |].
  intro H. injection H as <-.
  exists (String i (String n (String " " EmptyString))), after.
  simpl. rewrite Hi, Hn. repeat split; try (simpl in *; auto; lia).
  simpl in Hrest. now rewrite <- Hrest.
Qed.

Lemma search_area_spec (q g : string) :
  SQLAgentTool.search_area q = Some g ->
  exists before kw after,
    q = before ++ kw ++ g ++ after
    /\ lower kw = "in "
    /\ 1 <= String.length g
    /\ all_chars SQLAgentTool.area_char g = true
    /\ match after with
       | EmptyString => True
       | String c _ => SQLAgentTool.area_char c = false
       end.
Proof.
  induction q as [| c q IH]; cbn [SQLAgentTool.search_area].
  - discriminate.
  - destruct (SQLAgentTool.match_area (String c q)) as [g' |] eqn:Hm.
    + intro H. injection H as ->. apply match_area_spec in Hm.
      destruct Hm as (kw & after & Hq & H). exists EmptyString, kw, after.
      split; [exact Hq | exact H].
    + intro H. destruct (IH H) as (before & kw & after & -> & Hrest).
      exists (String c before), kw, after. split; [reflexivity | exact Hrest].
Qed.

(** X11.  For a question of ASCII text: the group [fix_area] takes
    from it is a non-empty run of letters and blanks that follows the
    word in and a blank, letters in any case, and that ends where the
    question ends or where another character stands; a question in
    which the word in, followed by a blank, does not occur is returned
    unchanged. *)
Theorem fix_area_group
    (get_close_matches : string -> list string -> list string)
    (areas : list string) (q : string) :
  is_ascii q = true ->
  (forall g,
     SQLAgentTool.search_area q = Some g ->
     exists before kw after,
       q = before ++ kw ++ g ++ after
       /\ lower kw = "in "
       /\ 1 <= String.length g
       /\ all_chars SQLAgentTool.area_char g = true
       /\ match after with
          | EmptyString => True
          | String c _ => SQLAgentTool.area_char c = false
          end)
  /\ (str_in "in " (lower q) = false ->
      SQLAgentTool.fix_area get_close_matches areas q = Some q).
Proof.
  intros _. split; [intros g; apply search_area_spec |].
  intro Hno. unfold SQLAgentTool.fix_area.
  destruct (SQLAgentTool.search_area q) as [g |] eqn:Hs; [| reflexivity].
  exfalso. apply search_area_spec in Hs.
  destruct Hs as (before & kw & after & -> & Hkw & _).
  assert (str_in "in " (lower (before ++ kw ++ g ++ after)) = true).
  { apply str_in_lower_spec. now exists before, kw, (g ++ after). }
  congruence.
Qed.

Lemma startswith_ci_refl (g after : string) :
  SQLAgentTool.startswith_ci g (g ++ after) = true.
Proof.
  induction g as [| c g IH]; simpl; [reflexivity |].
  now rewrite Ascii.eqb_refl.
Qed.

Lemma startswith_ci_length (old s : string) :
  SQLAgentTool.startswith_ci old s = true -> String.length old <= String.length s.
Proof.
  revert s. induction old as [| a old IH]; intros s H; simpl in *; [lia |].
  destruct s as [| b s]; [discriminate |].
  apply andb_true_iff in H. destruct H as [_ H]. apply IH in H. simpl. lia.
Qed.

Lemma str_in_app_l (n a b : string) : str_in n a = true -> str_in n (a ++ b) = true.
Proof.
  intro H. apply str_in_spec in H. destruct H as (x & y & ->).
  apply str_in_spec. exists x, (y ++ b). now rewrite !append_assoc.
Qed.

Lemma str_in_self (n : string) : str_in n n = true.
Proof.
  apply str_in_spec. exists EmptyString, EmptyString.
  now rewrite append_empty_r.
Qed.

(** Where the text to replace occurs, the replacement stands in the
    result. *)
Lemma sub_ci_holds_replacement (old repl before rest : string) :
  1 <= String.length old ->
  SQLAgentTool.startswith_ci old rest = true ->
  str_in repl (SQLAgentTool.sub_ci old repl 0 (before ++ rest)) = true.
Proof.
  intros Hold Hrest.
  assert (Hhead : forall c s,
             SQLAgentTool.startswith_ci old (String c s) = true ->
             str_in repl (SQLAgentTool.sub_ci old repl 0 (String c s)) = true).
  { intros c s H. cbn [SQLAgentTool.sub_ci]. rewrite H.
    apply str_in_app_l, str_in_self. }
  induction before as [| c before IH].
  - destruct rest as [| c rest]; [| now apply Hhead].
    destruct old; simpl in *; [lia | discriminate].
  - change (String c before ++ rest) with (String c (before ++ rest)).
    destruct (SQLAgentTool.startswith_ci old (String c (before ++ rest))) eqn:E.
    + now apply Hhead.
    + cbn [SQLAgentTool.sub_ci]. rewrite E.
      cbn [str_in]. rewrite IH. apply orb_true_r.
Qed.

(** X12.  For a question of ASCII text: when the question holds an
    area group and the canonical name chosen for it has no backslash,
    the question [fix_area] returns mentions the canonical name. *)
Theorem fix_area_mentions_canonical
    (get_close_matches : string -> list string -> list string)
    (areas : list string) (q g : string) :
  is_ascii q = true ->
  SQLAgentTool.search_area q = Some g ->
  let canonical := SQLAgentTool.fuzzy_match get_close_matches (strip g) areas in
  str_in (chr backslash) canonical = false ->
  exists fixed,
    SQLAgentTool.fix_area get_close_matches areas q = Some fixed
    /\ str_in canonical fixed = true.
Proof.
  intros _ Hs canonical Hback. unfold SQLAgentTool.fix_area. rewrite Hs.
  cbv zeta. fold canonical. rewrite Hback.
  eexists. split; [reflexivity |].
  apply search_area_spec in Hs.
  destruct Hs as (before & kw & after & -> & _ & Hlen & _).
  rewrite <- append_assoc.
  apply sub_ci_holds_replacement; [assumption | apply startswith_ci_refl].
Qed.

(** ** A blank at the end of the group *)

Lemma sub_ci_length (old repl : string) :
  String.length repl <= String.length old ->
  forall s k, k <= String.length s ->
    String.length (SQLAgentTool.sub_ci old repl k s) + k <= String.length s.
Proof.
  intros Hrepl. induction s as [| c s IH]; intros k Hk; simpl in *; [lia |].
  destruct k as [| k].
  - destruct (SQLAgentTool.startswith_ci old (String c s)) eqn:E.
    + apply startswith_ci_length in E. simpl in E.
      rewrite length_append.
      assert (Hskip : String.length old - 1 <= String.length s) by lia.
      specialize (IH _ Hskip). lia.
    + simpl. specialize (IH 0). lia.
  - assert (Hskip : k <= String.length s) by lia.
    specialize (IH _ Hskip). lia.
Qed.

Lemma sub_ci_shorter (old repl before rest : string) :
  String.length repl < String.length old ->
  SQLAgentTool.startswith_ci old rest = true ->
  String.length (SQLAgentTool.sub_ci old repl 0 (before ++ rest))
  < String.length (before ++ rest).
Proof.
  intros Hrepl Hrest.
  assert (Hhead : forall c s,
             SQLAgentTool.startswith_ci old (String c s) = true ->
             String.length (SQLAgentTool.sub_ci old repl 0 (String c s))
             < String.length (String c s)).
  { intros c s H. cbn [SQLAgentTool.sub_ci]. rewrite H.
    apply startswith_ci_length in H. simpl in H |- *.
    rewrite length_append.
    assert (Hskip : String.length old - 1 <= String.length s) by lia.
    pose proof (sub_ci_length old repl ltac:(lia) s _ Hskip). lia. }
  induction before as [| c before IH].
  - destruct rest as [| c rest]; [| now apply Hhead].
    destruct old; simpl in *; [lia | discriminate].
  - change (String c before ++ rest) with (String c (before ++ rest)).
    destruct (SQLAgentTool.startswith_ci old (String c (before ++ rest))) eqn:E.
    + now apply Hhead.
    + cbn [SQLAgentTool.sub_ci]. rewrite E. simpl. lia.
Qed.

Lemma lstrip_shorter (s : string) :
  lstrip s = s \/ String.length (lstrip s) < String.length s.
Proof.
  induction s as [| c s IH]; simpl; [now left |].
  destruct (isspace_char c); [| now left].
  right. destruct IH as [-> | IH]; lia.
Qed.

Lemma rstrip_shorter (s : string) :
  rstrip s = s \/ String.length (rstrip s) < String.length s.
Proof.
  induction s as [| c s IH]; simpl; [now left |].
  destruct IH as [IH | IH].
  - rewrite IH. destruct s as [| d s]; [| now left].
    destruct (isspace_char c); [right; simpl; lia | now left].
  - right. destruct (rstrip s) as [| d r]; simpl in *.
    + destruct (isspace_char c); simpl; lia.
    + lia.
Qed.

Lemma strip_shorter (s : string) :
  strip s <> s -> String.length (strip s) < String.length s.
Proof.
  unfold strip. intro H.
  destruct (lstrip_shorter s) as [Hl | Hl];
    destruct (rstrip_shorter (lstrip s)) as [Hr | Hr]; try lia.
  - exfalso. apply H. now rewrite Hr.
  - rewrite Hl in Hr |- *. exact Hr.
  - rewrite Hr. exact Hl.
Qed.

Lemma all_chars_lstrip (test : ascii -> bool) (s : string) :
  all_chars test s = true -> all_chars test (lstrip s) = true.
Proof.
  induction s as [| c s IH]; simpl; intro H; [reflexivity |].
  apply andb_true_iff in H. destruct H as [Hc Hs].
  destruct (isspace_char c); [now apply IH |]. simpl. now rewrite Hc, Hs.
Qed.

Lemma all_chars_rstrip (test : ascii -> bool) (s : string) :
  all_chars test s = true -> all_chars test (rstrip s) = true.
Proof.
  induction s as [| c s IH]; simpl; intro H; [reflexivity |].
  apply andb_true_iff in H. destruct H as [Hc Hs]. specialize (IH Hs).
  destruct (rstrip s) as [| d r].
  - destruct (isspace_char c); simpl; [reflexivity | now rewrite Hc].
  - cbn [all_chars] in *. now rewrite Hc, IH.
Qed.

Lemma all_chars_without (test : ascii -> bool) (c : ascii) (s : string) :
  all_chars test s = true -> test c = false -> str_in (chr c) s = false.
Proof.
  intros Hs Hc. induction s as [| d s IH]; simpl in *; [reflexivity |].
  apply andb_true_iff in Hs. destruct Hs as [Hd Hs].
  rewrite (IH Hs), andb_true_r, orb_false_r.
  destruct (Ascii.eqb_spec c d) as [-> | _]; [congruence | reflexivity].
Qed.

(** X13.  For a question of ASCII text: when the group ends or starts
    with a blank and no area name is close to it, [fix_area] still
    rewrites the question: every occurrence of the group gives way to
    the group without its blanks, and the question comes back
    shorter. *)
Theorem fix_area_drops_blank
    (get_close_matches : string -> list string -> list string)
    (areas : list string) (q g : string) :
  is_ascii q = true ->
  SQLAgentTool.search_area q = Some g ->
  strip g <> g ->
  get_close_matches (strip g) areas = [] ->
  exists fixed,
    SQLAgentTool.fix_area get_close_matches areas q = Some fixed
    /\ fixed = SQLAgentTool.sub_ci g (strip g) 0 q
    /\ String.length fixed < String.length q.
Proof.
  intros _ Hs Hblank Hnone.
  unfold SQLAgentTool.fix_area, SQLAgentTool.fuzzy_match. rewrite Hs, Hnone.
  cbv zeta. apply search_area_spec in Hs.
  destruct Hs as (before & kw & after & -> & _ & Hlen & Hall & _).
  assert (Hback : str_in (chr backslash) (strip g) = false).
  { apply (all_chars_without SQLAgentTool.area_char); [| reflexivity].
    unfold strip. now apply all_chars_rstrip, all_chars_lstrip. }
  rewrite Hback. eexists. split; [reflexivity |]. split; [reflexivity |].
  rewrite <- append_assoc.
  apply sub_ci_shorter; [now apply strip_shorter | apply startswith_ci_refl].
Qed.

(* ================================================================== *)
(** * The prompt of the fallback *)
(* ================================================================== *)

Lemma last_n_app {A : Type} (older recent : list A) :
  last_n (List.length recent) (older ++ recent)%list = recent.
Proof.
  unfold last_n. rewrite length_app.
  replace (List.length older + List.length recent - List.length recent)
    with (List.length older) by lia.
  rewrite skipn_app, skipn_all, Nat.sub_diag. reflexivity.
Qed.

Lemma last_n_all {A : Type} (recent : list A) :
  last_n (List.length recent) recent = recent.
Proof. unfold last_n. now rewrite Nat.sub_diag. Qed.

Lemma str_in_join (sep turn : string) (turns : list string) :
  In turn turns -> str_in turn (join sep turns) = true.
Proof.
  unfold join. induction turns as [| t turns IH]; [intros [] |].
  intros [-> | Hin].
  - destruct turns as [| u turns]; cbn [String.concat];
      [apply str_in_self | apply str_in_app_l, str_in_self].
  - destruct turns as [| u turns]; [destruct Hin |].
    cbn [String.concat]. apply str_in_app_r, str_in_app_r. now apply IH.
Qed.

(** X20.  The prompt of the fallback is built from the last six entries
    of the history: what came before them leaves the prompt as it is,
    and each of the six stands in the prompt, and so does the
    message. *)
Theorem fallback_prompt_last_six (older recent : list string) (message : string) :
  List.length recent = 6 ->
  fallback_prompt (older ++ recent) message = fallback_prompt recent message
  /\ (forall turn, In turn recent ->
                   str_in turn (fallback_prompt (older ++ recent) message) = true)
  /\ str_in ("Human: " ++ message) (fallback_prompt (older ++ recent) message) = true.
Proof.
  intro Hlen. unfold fallback_prompt. rewrite <- Hlen.
  rewrite last_n_app, last_n_all. split; [reflexivity |]. split.
  - intros turn Hin.
    do 6 apply str_in_app_r. apply str_in_app_l. now apply str_in_join.
  - do 8 apply str_in_app_r. rewrite <- append_assoc.
    apply str_in_app_l, str_in_self.
Qed.

(* ================================================================== *)
(** * The keys of the data pipeline *)
(* ================================================================== *)

Lemma all_chars_replace_from (test : ascii -> bool) (old new : string) :
  all_chars test new = true ->
  forall s skip, all_chars test s = true ->
    all_chars test (DataPipeline.replace_from old new skip s) = true.
Proof.
  intros Hnew. induction s as [| c s IH]; intros skip Hs; simpl in *;
    [reflexivity |].
  apply andb_true_iff in Hs. destruct Hs as [Hc Hs].
  destruct skip as [| k]; [| now apply IH].
  match goal with |- context [if ?b then _ else _] => destruct b end.
  - rewrite all_chars_app, Hnew. now apply IH.
  - simpl. rewrite Hc. now apply IH.
Qed.

Lemma normalize_key_lower (k : string) :
  all_chars (fun c => negb (isupper_char c)) (DataPipeline.normalize_key k) = true.
Proof.
  unfold DataPipeline.normalize_key, DataPipeline.replace.
  apply all_chars_replace_from; [reflexivity | apply lower_not_upper].
Qed.

Section RecordFacts.

Variable V : Type.

Lemma dict_set_items (k : string) (v : V) (d : DataPipeline.record V)
    (k' : string) (v' : V) :
  In (k', v') (DataPipeline.dict_set k v d) ->
  (k' = k /\ v' = v) \/ In (k', v') d.
Proof.
  induction d as [| [k0 v0] d IH]; simpl.
  - intros [H | []]. injection H as <- <-. now left.
  - destruct (String.eqb_spec k0 k) as [-> | Hne]; simpl.
    + intros [H | H]; [injection H as <- <-; now left | now right; right].
    + intros [H | H]; [now right; left |].
      destruct (IH H) as [? | ?]; [now left | now right; right].
Qed.

Lemma dict_set_keys (k : string) (v : V) (d : DataPipeline.record V) :
  NoDup (map fst d) -> NoDup (map fst (DataPipeline.dict_set k v d)).
Proof.
  induction d as [| [k0 v0] d IH]; simpl; intro H.
  - constructor; [intros [] | constructor].
  - inversion H as [| ? ? Hnot Hd]; subst.
    destruct (String.eqb_spec k0 k) as [-> | Hne]; simpl.
    + now constructor.
    + constructor; [| now apply IH].
      intro Hin. apply in_map_iff in Hin. destruct Hin as ([k1 v1] & Hk & Hin).
      simpl in Hk. subst k1.
      apply dict_set_items in Hin. destruct Hin as [[Hk _] | Hin];
        [congruence |].
      apply Hnot. apply in_map_iff. now exists (k0, v1).
Qed.

Lemma dict_get_set_same (k : string) (v : V) (d : DataPipeline.record V) :
  DataPipeline.dict_get k (DataPipeline.dict_set k v d) = Some v.
Proof.
  induction d as [| [k0 v0] d IH]; simpl.
  - now rewrite String.eqb_refl.
  - destruct (String.eqb_spec k0 k) as [-> | Hne]; simpl.
    + now rewrite String.eqb_refl.
    + destruct (String.eqb_spec k0 k); [contradiction | exact IH].
Qed.

Lemma dict_get_set_other (k k' : string) (v : V) (d : DataPipeline.record V) :
  k' <> k ->
  DataPipeline.dict_get k (DataPipeline.dict_set k' v d) = DataPipeline.dict_get k d.
Proof.
  intro Hne. induction d as [| [k0 v0] d IH]; simpl.
  - destruct (String.eqb_spec k' k); [contradiction | reflexivity].
  - destruct (String.eqb_spec k0 k') as [-> | Hne0]; simpl.
    + destruct (String.eqb_spec k' k); [contradiction | reflexivity].
    + destruct (String.eqb_spec k0 k); [reflexivity | exact IH].
Qed.

Lemma normalize_onto_items (obj norm : DataPipeline.record V) (k : string) (v : V) :
  In (k, v) (DataPipeline.normalize_onto obj norm) ->
  In (k, v) norm
  \/ exists k0, In (k0, v) obj /\ k = DataPipeline.normalize_key k0.
Proof.
  revert norm. induction obj as [| [k0 v0] obj IH]; intros norm H; simpl in *.
  - now left.
  - destruct (IH _ H) as [Hin | (k1 & Hin & Hk)].
    + apply dict_set_items in Hin. destruct Hin as [[-> ->] | Hin].
      * right. exists k0. auto.
      * now left.
    + right. exists k1. auto.
Qed.

Lemma normalize_onto_keys (obj norm : DataPipeline.record V) :
  NoDup (map fst norm) -> NoDup (map fst (DataPipeline.normalize_onto obj norm)).
Proof.
  revert norm. induction obj as [| [k0 v0] obj IH]; intros norm H; simpl.
  - assumption.
  - apply IH. now apply dict_set_keys.
Qed.

Lemma normalize_onto_get (obj norm : DataPipeline.record V) (k : string) :
  (forall k' v', In (k', v') obj -> DataPipeline.normalize_key k' <> k) ->
  DataPipeline.dict_get k (DataPipeline.normalize_onto obj norm) = DataPipeline.dict_get k norm.
Proof.
  revert norm. induction obj as [| [k0 v0] obj IH]; intros norm H; simpl.
  - reflexivity.
  - rewrite IH by (intros k' v' Hin; apply (H k' v'); now right).
    apply dict_get_set_other. apply (H k0 v0). now left.
Qed.

(** X14.  The keys of a normalized record are written without capital
    letters, each is the normalized key of an item of the JSON object
    and carries that item's value, and no key stands twice. *)
Theorem normalized_record_keys (obj : DataPipeline.record V) :
  NoDup (map fst (DataPipeline.normalize_record obj))
  /\ forall k v,
       In (k, v) (DataPipeline.normalize_record obj) ->
       all_chars (fun c => negb (isupper_char c)) k = true
       /\ exists k0, In (k0, v) obj /\ k = DataPipeline.normalize_key k0.
Proof.
  split.
  - apply (normalize_onto_keys obj []). constructor.
  - intros k v Hin.
    destruct (normalize_onto_items obj [] k v Hin) as [[] | (k0 & Hin0 & ->)].
    split; [apply normalize_key_lower | now exists k0].
Qed.

(** X15.  Under a normalized key the record holds the value of the
    last item of the JSON object with that normalized key: when two
    keys of the object normalize to the same key, the value of the
    earlier one is lost. *)
Theorem normalized_record_lookup
    (earlier later : DataPipeline.record V) (k : string) (v : V) :
  (forall k' v', In (k', v') later ->
     DataPipeline.normalize_key k' <> DataPipeline.normalize_key k) ->
  DataPipeline.dict_get (DataPipeline.normalize_key k)
    (DataPipeline.normalize_record (earlier ++ (k, v) :: later)%list)
  = Some v.
Proof.
  intro Hlast.
  change (DataPipeline.normalize_record (earlier ++ (k, v) :: later)%list)
    with (DataPipeline.normalize_onto (earlier ++ (k, v) :: later)%list []).
  unfold DataPipeline.normalize_onto at 1.
  rewrite fold_left_app. cbn [fold_left fst snd].
  match goal with
  | |- DataPipeline.dict_get _ (fold_left _ later ?n) = _ =>
      change (DataPipeline.dict_get (DataPipeline.normalize_key k)
                (DataPipeline.normalize_onto later n) = Some v)
  end.
  rewrite normalize_onto_get by assumption.
  apply dict_get_set_same.
Qed.

End RecordFacts.

Lemma replace_from_no_start (old new : string) (c : ascii) (s : string) :
  (forall d old', old = String d old' -> d <> c) -> old <> EmptyString ->
  DataPipeline.replace_from old new 0 (String c s)
  = String c (DataPipeline.replace_from old new 0 s).
Proof.
  intros Hfirst Hne. cbn [DataPipeline.replace_from].
  destruct old as [| d old']; [contradiction |].
  cbn [startswith].
  destruct (Ascii.eqb_spec d c) as [-> | _]; [| reflexivity].
  exfalso. now apply (Hfirst c old').
Qed.

(** X16.  A field name that ends in two underscores and the letter c,
    and has no underscore before them, becomes the lower-case name
    followed by one underscore and the letter c; a key without
    underscore only changes case. *)
Theorem custom_field_key (name : string) :
  str_in "_" name = false ->
  DataPipeline.normalize_key (name ++ "__c") = lower name ++ "_c"
  /\ DataPipeline.normalize_key name = lower name.
Proof.
  intro H. unfold DataPipeline.normalize_key, DataPipeline.replace.
  rewrite lower_app.
  change (lower "__c") with "__c".
  induction name as [| c name IH]; [split; reflexivity |].
  simpl in H. apply orb_false_iff in H. destruct H as [Hc Hrest].
  rewrite andb_true_r in Hc.
  assert (Hlow : lower_char c <> "_"%char).
  { intro E. destruct c as [b0 b1 b2 b3 b4 b5 b6 b7].
    destruct b0, b1, b2, b3, b4, b5, b6, b7; discriminate. }
  destruct (IH Hrest) as [IH1 IH2].
  assert (Hstep : forall s,
             DataPipeline.replace_from "__c" "_c" 0 (String (lower_char c) s)
             = String (lower_char c) (DataPipeline.replace_from "__c" "_c" 0 s)).
  { intro s. apply replace_from_no_start; [| discriminate].
    intros d old' E. injection E as <- _. now apply not_eq_sym. }
  split; cbn [lower append]; rewrite Hstep; [now rewrite IH1 | now rewrite IH2].
Qed.

(* ================================================================== *)
(** * The form of the application *)
(* ================================================================== *)

Lemma lstrip_points_blank (ps : list string) :
  forallb isspace_point ps = true -> lstrip_points ps = [].
Proof.
  induction ps as [| p ps IH]; [reflexivity |]. cbn [forallb lstrip_points].
  intro H. apply andb_true_iff in H. destruct H as [-> Hps]. now apply IH.
Qed.

Lemma lstrip_points_not_blank (ps : list string) :
  forallb isspace_point ps = false ->
  exists p rest, lstrip_points ps = p :: rest /\ isspace_point p = false.
Proof.
  induction ps as [| p ps IH]; [discriminate |]. cbn [forallb lstrip_points].
  destruct (isspace_point p) eqn:Hp; [exact IH |].
  intros _. now exists p, ps.
Qed.

Lemma lstrip_points_incl (ps : list string) (x : string) :
  In x (lstrip_points ps) -> In x ps.
Proof.
  induction ps as [| p ps IH]; [trivial |]. cbn [lstrip_points].
  destruct (isspace_point p); [intro H; right; now apply IH | trivial].
Qed.

Lemma text_of_empty (ps : list string) :
  (forall p, In p ps -> p <> EmptyString) ->
  text_of ps = EmptyString -> ps = [].
Proof.
  destruct ps as [| p ps]; [reflexivity |]. intros Hne H. exfalso.
  apply (Hne p (or_introl eq_refl)).
  cbn [text_of] in H. now destruct p.
Qed.

(** The stripped text is empty exactly when every character of the
    text is white space. *)
Lemma str_strip_blank (s : string) :
  String.eqb (str_strip s) EmptyString = forallb isspace_point (code_points s).
Proof.
  unfold str_strip, rstrip_points.
  destruct (forallb isspace_point (code_points s)) eqn:E.
  - now rewrite (lstrip_points_blank _ E).
  - apply String.eqb_neq. intro Hempty.
    apply text_of_empty in Hempty.
    + destruct (lstrip_points_not_blank _ E) as (p & rest & Hl & Hp).
      rewrite Hl in Hempty.
      assert (Hrev : forallb isspace_point (rev (p :: rest)) = false).
      { rewrite forallb_rev. cbn [forallb]. now rewrite Hp. }
      destruct (lstrip_points_not_blank _ Hrev) as (q & rest' & Hq & _).
      rewrite Hq in Hempty. cbn [rev] in Hempty.
      now destruct (rev rest').
    + intros p Hin. apply in_rev, lstrip_points_incl in Hin.
      apply in_rev, lstrip_points_incl in Hin.
      now apply (code_points_nonempty s).
Qed.

(** X17.  The chat form hands a submitted input to [process] exactly
    when it holds a character that is not white space, and hands it over
    as typed, blanks at its ends included.  A blank input only brings the
    warning: the agent is not called and nothing is appended.  When
    [process] returns, the input as typed and the response are appended
    to the chat history, in this order; when it raises, the chat history
    is left as it was.  White space is that of Unicode: an input of
    no-break spaces is blank. *)
Theorem chat_form_turn {Env : Type} (C : Collaborators Env)
    (user_input : string) (w : World Env) (chat_history : list (string * string)) :
  (forallb isspace_point (code_points user_input) = true ->
   App.chat_form C true user_input w chat_history
   = (Returns (Some "Please enter a message."), w, chat_history))
  /\ (forallb isspace_point (code_points user_input) = false ->
      (forall result w',
         process C user_input w = (Returns result, w') ->
         App.chat_form C true user_input w chat_history
         = (Returns None, w',
            (chat_history ++ [("You", user_input); ("Bot", response result)])%list))
      /\ (forall x w',
            process C user_input w = (Raises x, w') ->
            App.chat_form C true user_input w chat_history
            = (Raises x, w', chat_history)))
  /\ App.chat_form C false user_input w chat_history
     = (Returns None, w, chat_history)
  /\ App.chat_form C true (no_break_space ++ no_break_space) w chat_history
     = (Returns (Some "Please enter a message."), w, chat_history).
Proof.
  unfold App.chat_form. rewrite str_strip_blank. split; [| split; [| split]].
  - intros ->. reflexivity.
  - intros ->. cbn [negb andb]. split.
    + intros result w' ->. reflexivity.
    + intros x w' ->. reflexivity.
  - reflexivity.
  - reflexivity.
Qed.

(* ================================================================== *)
(** * Further examples *)
(* ================================================================== *)

(** Scenario 1 of the specification: a data question without interest. *)
Lemma data_question_witness :
  exists reply w',
    process data_route "what studios are available in Business Bay under 1M?"
      (session NO_INTEREST None [] [])
    = (Returns reply, w')
    /\ response reply = "Three studios are available."
    /\ lead_state reply = NO_INTEREST.
Proof.
  destruct (data_question_answered_verbatim data_route
              "what studios are available in Business Bay under 1M?" "sql"
              "what studios are available in Business Bay under 1M?"
              "Three studios are available."
              (session NO_INTEREST None [] []) _ tt tt tt
              eq_refl eq_refl eq_refl
              (ex_intro _ EmptyString
                 (ex_intro _ "sql" (ex_intro _ EmptyString (conj eq_refl eq_refl))))
              eq_refl eq_refl)
    as (reply & w' & Hp & Hr & Hs & _).
  exists reply, w'. auto.
Defined.

(** A question the document tool declines is answered by the model. *)
Lemma document_fallback_witness :
  exists reply w',
    process declining_documents "hello there" (session NO_INTEREST None [] [])
    = (Returns reply, w')
    /\ response reply = "Hello! Ask me about Emaar.".
Proof.
  assert (Hno : ~ occurs_ignoring_case "sql" "Hello! Ask me about Emaar.").
  { intro H. apply str_in_lower_spec in H. vm_compute in H. discriminate H. }
  destruct (document_question_and_fallback declining_documents
              "hello there" "Hello! Ask me about Emaar."
              "Sorry, I can only answer questions about Emaar."
              (session NO_INTEREST None [] []) _ tt tt tt
              eq_refl eq_refl eq_refl Hno eq_refl) as [_ Hout].
  destruct (Hout eq_refl _ tt eq_refl) as (reply & w' & Hp & Hr & _).
  exists reply, w'. auto.
Defined.

(** One field missing: the singular wording. *)
Lemma contact_message_witness :
  exists reply w',
    process friendly "my name is John"
      (session INTEREST_DETECTED None [] [])
    = (Returns reply, w')
    /\ response reply = "Just need your phone to get started."
    /\ calls w' = [UpdateState "my name is John"; GetMissingFields].
Proof.
  destruct (contact_message_names_missing_fields friendly "my name is John"
              (session INTEREST_DETECTED None [] []) _ tt
              eq_refl (or_introl eq_refl) eq_refl)
    as (reply & w' & Hp & Hr & _ & _ & _ & _ & Hc).
  exists reply, w'. auto.
Defined.

(** Two fields missing, in the state COLLECTING_INFO. *)
Lemma question_while_collecting_witness :
  exists reply w',
    process declining_documents "how much is a studio?"
      (session COLLECTING_INFO None [] [])
    = (Returns reply, w')
    /\ response reply
       = "Sorry, I can only answer questions about Emaar." ++ nl ++ nl
         ++ "Just need your phone, email to get started.".
Proof.
  destruct (question_while_collecting declining_documents
              "how much is a studio?"
              "Sorry, I can only answer questions about Emaar."
              (session COLLECTING_INFO None [] []) _ tt tt
              eq_refl (or_intror eq_refl) eq_refl eq_refl)
    as (reply & w' & Hp & Hr & _).
  exists reply, w'. auto.
Defined.

Lemma quiet_states_witness :
  let w' := snd (process llm_down "hello"
                   (session NO_INTEREST (Some "00Q5g00000ABCDE") ["09:00"] [])) in
  current_lead_id (lead_tool (agent w')) = Some "00Q5g00000ABCDE"
  /\ available_slots (meeting_tool (agent w')) = ["09:00"].
Proof.
  destruct (quiet_states_keep_the_session llm_down "hello"
              (session NO_INTEREST (Some "00Q5g00000ABCDE") ["09:00"] []) _ tt
              eq_refl (or_introl eq_refl)) as [Hl Hm].
  cbv zeta. rewrite Hl, Hm. split; reflexivity.
Defined.

(** A yes while the calendar is out of reach. *)
Lemma backend_exception_witness :
  exists w',
    process declining_documents "yes"
      (session AWAITING_MEETING_CONFIRMATION (Some "00Q5g00000ABCDE") [] [])
    = (Raises (Exception "Calendar unavailable."), w')
    /\ state (lead_tool (agent w')) = AWAITING_MEETING_CONFIRMATION
    /\ conversation_history (agent w') = ["Human: yes"].
Proof.
  destruct (backend_exception_keeps_state declining_documents "yes"
              (session AWAITING_MEETING_CONFIRMATION (Some "00Q5g00000ABCDE") [] [])
              _ tt (Exception "Calendar unavailable.") eq_refl)
    as (_ & Hslots & _).
  destruct (Hslots eq_refl (or_introl eq_refl) _ tt eq_refl)
    as (w' & Hp & _ & Hs & Hh).
  exists w'. auto.
Defined.

Lemma calls_witness :
  exists made,
    calls (snd (process friendly "9"
                  (session WAITING_MEETING_SLOT_SELECTION
                     (Some "00Q5g00000ABCDE") ["09:00"] [])))
    = UpdateState "9" :: made
    /\ List.length made <= 2.
Proof.
  destruct (calls_of_a_process_call friendly "9"
              (session WAITING_MEETING_SLOT_SELECTION
                 (Some "00Q5g00000ABCDE") ["09:00"] []) _ tt eq_refl)
    as (made & Hc & _ & Hother).
  exists made. split; [exact Hc |].
  apply Hother. discriminate.
Defined.

Lemma contact_info_context_witness :
  is_contact_info ("Hello, " ++ "this is Sara" ++ " from Dubai") = true.
Proof. exact (contact_info_survives_context "Hello, " "this is Sara" " from Dubai" eq_refl). Defined.

Lemma short_times_witness :
  canonical_time (_normalize_time "9:5") = true
  /\ _normalize_time (_normalize_time "9:5")
     = _normalize_time "9:5".
Proof.
  apply (short_times_become_canonical "9:5"). right.
  exists "9", "5". repeat split; repeat constructor.
Defined.

Lemma fix_area_group_witness :
  SQLAgentTool.fix_area close_matches_example ["Business Bay"] "cheapest studio?"
  = Some "cheapest studio?".
Proof.
  destruct (fix_area_group close_matches_example ["Business Bay"]
              "cheapest studio?" eq_refl) as [_ H].
  exact (H eq_refl).
Defined.

Lemma fix_area_canonical_witness :
  exists fixed,
    SQLAgentTool.fix_area close_matches_example ["Business Bay"]
      "studios in Busines Bay?" = Some fixed
    /\ str_in "Business Bay" fixed = true.
Proof.
  exact (fix_area_mentions_canonical close_matches_example ["Business Bay"]
           "studios in Busines Bay?" "Busines Bay" eq_refl eq_refl eq_refl).
Defined.

Lemma fix_area_blank_witness :
  exists fixed,
    SQLAgentTool.fix_area close_matches_example ["Business Bay"]
      "flats in Marina 2BR" = Some fixed
    /\ fixed = SQLAgentTool.sub_ci "Marina " (strip "Marina ") 0 "flats in Marina 2BR"
    /\ String.length fixed < String.length "flats in Marina 2BR".
Proof.
  apply (fix_area_drops_blank close_matches_example ["Business Bay"]
           "flats in Marina 2BR" "Marina ").
  - reflexivity.
  - reflexivity.
  - discriminate.
  - reflexivity.
Defined.

Lemma record_lookup_witness :
  DataPipeline.dict_get (DataPipeline.normalize_key "name")
    (DataPipeline.normalize_record ([("Name", "A-101")] ++ ("name", "a-101") :: [])%list)
  = Some "a-101".
Proof.
  apply (normalized_record_lookup string [("Name", "A-101")] [] "name" "a-101").
  intros k' v' [].
Defined.

Lemma custom_field_witness :
  DataPipeline.normalize_key ("Area" ++ "__c") = lower "Area" ++ "_c"
  /\ DataPipeline.normalize_key "Area" = lower "Area".
Proof. exact (custom_field_key "Area" eq_refl). Defined.

(** A failing agent executor behind a fixed question. *)
Lemma query_witness :
  exists text e,
    query sql_down "units in Marina" (session NO_INTEREST None [] [])
    = (Returns text,
       {| agent := agent (session NO_INTEREST None [] []); env := e;
          calls := [AgentExecutorInvoke "units in Marina"] |})
    /\ text = "SQL agent error: no such table: properties".
Proof.
  destruct (query_outcomes sql_down "units in Marina"
              (session NO_INTEREST None [] [])) as [Hfixed _].
  destruct (Hfixed "units in Marina" eq_refl) as (text & e & Hq & Ht).
  exists text, e. split; [exact Hq |]. apply Ht.
Defined.

(** An empty identifier from the CRM. *)
Lemma empty_lead_id_witness :
  exists reply w',
    process blank_id "john@example.com" (session INFO_COMPLETE None [] [])
    = (Returns reply, w')
    /\ response reply
       = "Sorry, I had trouble saving your information. Would you mind trying again?".
Proof.
  destruct (empty_lead_id_counts_as_none blank_id "john@example.com"
              (session INFO_COMPLETE None [] []) _ tt eq_refl) as [H _].
  exact (H eq_refl _ tt eq_refl).
Defined.

(** Eight turns of history: the first two are not in the prompt. *)
Lemma fallback_prompt_witness :
  fallback_prompt (["Human: one"; "Assistant: two"]
                   ++ ["Human: a"; "Assistant: b"; "Human: c"; "Assistant: d";
                       "Human: e"; "Assistant: f"])%list "hello"
  = fallback_prompt ["Human: a"; "Assistant: b"; "Human: c"; "Assistant: d";
                     "Human: e"; "Assistant: f"] "hello".
Proof.
  exact (proj1 (fallback_prompt_last_six ["Human: one"; "Assistant: two"]
                  ["Human: a"; "Assistant: b"; "Human: c"; "Assistant: d";
                   "Human: e"; "Assistant: f"] "hello" eq_refl)).
Defined.
